(** * tools/performance_capture.py: extraction, aggregation and reporting

    A shallow embedding of the capture tool's line parsers
    ([parse_ips_line], [parse_profiler_block], [extract_metrics]), of its
    aggregator ([calculate_summary]), of its reporters ([print_summary],
    [save_raw_capture], [append_to_tracking_doc]), of [find_serial_port]
    and of [main], followed by the properties the specification states
    about them.

    Conventions of the embedding.
    - Text is a list of characters; a character is a code point below 256
      (the Latin-1 block of Unicode), so the tables for [\d], [\s] and
      [str.lower] are the interpreter's tables restricted to that block.
    - A Python function that can raise is a function into [result]; a
      function that also prints or writes a file is a function on the
      state of the console and of the files ([io]), which an exception
      leaves as it was when it was raised.  An exception that reaches the
      top level ends the process; [sys.exit] is the exception SystemExit.
    - An [int] is an integer.  A [float] is a binary64 number ([F64.t]);
      no number of the script is negative, and a finite float is kept as
      the whole number of units of 2^-1074 (the least positive float) it
      is worth.  [float] on a numeral, the division of two integers, the
      conversion of an integer and [format] round to the nearest float or
      decimal, ties to even.
    - The dictionaries of the script have a fixed set of literal keys; each
      is a record with one optional field per key, [k in d] is [isSome] of
      the field and the truth value of a dictionary is "some field is set".
    - What the interpreter leaves open (the cap on the length of a digit
      string given to [int], the iteration order of a [set], the algorithm
      of [statistics.stdev], which has changed between the versions of the
      library) is gathered in the record [runtime].
    - What the process meets outside (the command line as [argparse] reads
      it, the serial ports, the captured lines, the clock, the files) is
      gathered in the record [Main.world]. *)

From Stdlib Require Import String Ascii List Bool Arith ZArith Lia.
From Stdlib Require Import DecimalString.
Import ListNotations.

Open Scope string_scope.
Open Scope nat_scope.
Open Scope list_scope.

(** ** Text *)

Definition str := list ascii.

Coercion list_ascii_of_string : string >-> list.

Definition code (c : ascii) : nat := nat_of_ascii c.

Definition str_eqb (a b : str) : bool :=
  if list_eq_dec ascii_dec a b then true else false.

(** ** Floats *)

Module F64.

Local Open Scope Z_scope.

(** A float that is not negative: a finite one, worth [units] times
    2^-1074, or [inf], or [nan]. *)
Inductive t :=
| Finite (units : Z)
| Infinity
| NaN.

(** 2^1024 in units: the finite floats are below it. *)
Definition top : Z := 2 ^ 2098.

(** [n / d] rounded to the nearest integer, a tie going to the even one
    (for [0 <= n] and [0 < d]). *)
Definition rne (n d : Z) : Z :=
  let q := n / d in
  let r := n mod d in
  if 2 * r <? d then q
  else if d <? 2 * r then q + 1
  else if Z.even q then q else q + 1.

(** The number of bits of [q] beyond the 53 a significand has: the floats
    about [q] units are the multiples of 2 to that power. *)
Definition excess (q : Z) : Z := Z.max 0 (Z.log2 q - 52).

(** The multiple nearest to [n / d] units. *)
Definition nearest (n d : Z) : Z :=
  let k := excess (n / d) in rne n (d * 2 ^ k) * 2 ^ k.

(** The float nearest to [n / d] units, [inf] from 2^1024 on. *)
Definition round (n d : Z) : t :=
  let u := nearest n d in
  if u <? top then Finite u else Infinity.

(** The float nearest to the fraction [a / b]. *)
Definition of_fraction (a b : Z) : t := round (a * 2 ^ 1074) b.

Definition zero : t := Finite 0.

Definition is_nan (x : t) : bool :=
  match x with NaN => true | _ => false end.

Definition is_inf (x : t) : bool :=
  match x with Infinity => true | _ => false end.

Definition units_of (x : t) : Z :=
  match x with Finite u => u | _ => 0 end.

(** [x < y] and [x <= y]: false when an operand is [nan]. *)
Definition ltb (x y : t) : bool :=
  match x, y with
  | Finite a, Finite b => a <? b
  | Finite _, Infinity => true
  | _, _ => false
  end.

Definition leb (x y : t) : bool :=
  match x, y with
  | Finite a, Finite b => a <=? b
  | Finite _, Infinity => true
  | Infinity, Infinity => true
  | _, _ => false
  end.

(** [x] is a number a float can be: [inf], or a finite value below 2^1024
    whose significand has 53 bits at most. *)
Definition number (x : t) : bool :=
  match x with
  | Finite u => (0 <=? u) && (u <? top) && (u mod 2 ^ excess u =? 0)
  | Infinity => true
  | NaN => false
  end.

End F64.

(** ** Exceptions *)

Module Py.

Inductive exn :=
| ValueError
| IndexError
| KeyError
| OverflowError
| AttributeError
| StatisticsError
| OSError
| FileNotFoundError
| SerialException
| SystemExit (status : Z)
| OutsideFragment.  (* a builtin applied outside the fragment embedded here *)

Inductive result (A : Type) :=
| Ok (a : A)
| Raise (e : exn).
Arguments Ok {A} a.
Arguments Raise {A} e.

Definition bind {A B} (c : result A) (k : A -> result B) : result B :=
  match c with
  | Ok a => k a
  | Raise e => Raise e
  end.

(** [for x in l: st = body(st, x)], an exception leaving the loop. *)
Fixpoint for_each {S X} (body : S -> X -> result S) (l : list X) (st : S)
  : result S :=
  match l with
  | [] => Ok st
  | x :: t => bind (body st x) (for_each body t)
  end.

(** *** Character classes of [re] on [str] patterns and [str.lower] *)

(** [\d]: the decimal digits; below 256 these are '0'..'9'. *)
Definition isdigit (c : ascii) : bool :=
  (48 <=? code c) && (code c <=? 57).

(** [\s]: Unicode white space; below 256 these are TAB, LF, VT, FF, CR,
    FS, GS, RS, US, SPACE, NEL and NBSP. *)
Definition isspace (c : ascii) : bool :=
  existsb (Nat.eqb (code c)) [9; 10; 11; 12; 13; 28; 29; 30; 31; 32; 133; 160].

(** [str.lower] on one character: 'A'..'Z' and the Latin-1 capitals
    (192..222 but the multiplication sign 215) move up by 32. *)
Definition lower_char (c : ascii) : ascii :=
  let n := code c in
  if ((65 <=? n) && (n <=? 90))
     || ((192 <=? n) && (n <=? 222) && negb (n =? 215))
  then ascii_of_nat (n + 32) else c.

Definition lower (s : str) : str := map lower_char s.

(** *** [needle in hay] on strings *)

Fixpoint startswith (s prefix : str) : bool :=
  match prefix, s with
  | [], _ => true
  | p :: prefix', c :: s' => Ascii.eqb p c && startswith s' prefix'
  | _ :: _, [] => false
  end.

Fixpoint contains (needle hay : str) : bool :=
  startswith hay needle
  || match hay with
     | [] => false
     | _ :: hay' => contains needle hay'
     end.

(** *** Numbers *)

(** The value of an arithmetic expression of the script: an [int] or a
    [float]. *)
Inductive num :=
| Int (z : Z)
| Float (x : F64.t).

(** [a / b] for integers [0 <= a] and [0 < b], also what [float] does to
    a [Fraction]: the nearest float, OverflowError when that is beyond
    the finite ones. *)
Definition true_divide (a b : Z) : result F64.t :=
  match F64.of_fraction a b with
  | F64.Infinity => Raise OverflowError
  | x => Ok x
  end.

(** *** The runtime *)

(** [int_max_str_digits] is [sys.get_int_max_str_digits()]: 4300 by
    default since CPython 3.11 (and the security releases of 3.7 to 3.10),
    [0] when the cap is switched off or the interpreter has none.
    [set_iter l] is the order in which [set(l)] is iterated: some
    enumeration, without repetition, of the elements of [l].
    [stdev] is [statistics.stdev] on a list of floats. *)
Record runtime := {
  int_max_str_digits : nat;
  set_iter : list str -> list str;
  set_iter_NoDup : forall l, NoDup (set_iter l);
  set_iter_In : forall l x, In x (set_iter l) <-> In x l;
  stdev : list F64.t -> result F64.t
}.

(** *** [int] and [float] on the text of a capture group *)

Definition digit_val (c : ascii) : Z := Z.of_nat (code c) - 48.

Definition digits_value (s : str) : Z :=
  fold_left (fun acc c => (10 * acc + digit_val c)%Z) s 0%Z.

Definition all_digits (s : str) : bool := forallb isdigit s.

(** [int(s)] for [s] a non-empty run of decimal digits: its value, or
    [ValueError] when the run is longer than the cap.  (The builtin also
    accepts blanks, a sign and underscores, which no capture group of the
    script can contain.) *)
Definition int (rt : runtime) (s : str) : result Z :=
  match s with
  | [] => Raise ValueError
  | _ :: _ =>
      if all_digits s then
        if (0 <? int_max_str_digits rt) && (int_max_str_digits rt <? length s)
        then Raise ValueError
        else Ok (digits_value s)
      else Raise OutsideFragment
  end.

(** The longest prefix of [s] whose characters satisfy [p], and the rest. *)
Fixpoint span (p : ascii -> bool) (s : str) : str * str :=
  match s with
  | c :: s' =>
      if p c then let (a, b) := span p s' in (c :: a, b) else ([], s)
  | [] => ([], [])
  end.

(** The float nearest to the number written [ip.fp]: [inf] when the
    number is beyond the finite floats. *)
Definition decimal (ip fp : str) : F64.t :=
  F64.of_fraction
    (digits_value ip * 10 ^ Z.of_nat (length fp) + digits_value fp)
    (10 ^ Z.of_nat (length fp)).

(** [float(s)] for [s] of the shape digits, or digits '.' digits (the
    second run possibly empty).  (The builtin accepts further shapes:
    blanks, sign, exponent, a leading point, [inf], [nan].) *)
Definition float (s : str) : result F64.t :=
  let (ip, rest) := span isdigit s in
  match ip, rest with
  | [], _ => Raise OutsideFragment
  | _ :: _, [] => Ok (decimal ip [])
  | _ :: _, c :: fp =>
      if Ascii.eqb c "."%char && all_digits fp then Ok (decimal ip fp)
      else Raise OutsideFragment
  end.

(** *** [format(x, '.pf')] *)

(** [str(z)] for [0 <= z]. *)
Definition str_of_Z (z : Z) : str :=
  list_ascii_of_string (NilZero.string_of_uint (N.to_uint (Z.to_N z))).

Definition pad (n : nat) (s : str) : str :=
  repeat "0"%char (n - length s) ++ s.

(** The numeral of [scaled / 10^p] with [p] decimals. *)
Definition fixed (p : nat) (scaled : Z) : str :=
  let unit := (10 ^ Z.of_nat p)%Z in
  let whole := str_of_Z (scaled / unit) in
  match p with
  | 0 => whole
  | S _ => whole ++ "." ++ pad p (str_of_Z (scaled mod unit))
  end.

(** A float is written with [p] decimals, the exact value being rounded
    to the nearest numeral, ties to even. *)
Definition format_float (p : nat) (x : F64.t) : str :=
  match x with
  | F64.Finite u =>
      fixed p (F64.rne (u * 10 ^ Z.of_nat p) (2 ^ 1074))%Z
  | F64.Infinity => "inf"
  | F64.NaN => "nan"
  end.

(** An [int] is converted to a float first: OverflowError when it is
    beyond the finite floats. *)
Definition format_f (p : nat) (x : num) : result str :=
  match x with
  | Float f => Ok (format_float p f)
  | Int z =>
      match F64.of_fraction z 1 with
      | F64.Infinity => Raise OverflowError
      | f => Ok (format_float p f)
      end
  end.

End Py.

Import Py.

Notation "x <- c ;; k" := (Py.bind c (fun x => k))
  (at level 61, c at next level, right associativity).

(** ** The fragment of [re] the script uses *)

Module Re.

(** One-character items: a literal character, [\d], [\s]. *)
Inductive atom :=
| Chr (c : ascii)
| Digit
| Space.

(** Patterns: the quantifiers [*], [+], [?] are greedy and, as everywhere
    in the script, applied to one-character items; groups are capturing
    and not nested. *)
Inductive regex :=
| Eps
| One (a : atom)
| Star (a : atom)
| Plus (a : atom)
| Opt (a : atom)
| Cat (r1 r2 : regex)
| Group (r : regex).

Definition test (a : atom) (c : ascii) : bool :=
  match a with
  | Chr x => Ascii.eqb x c
  | Digit => isdigit c
  | Space => isspace c
  end.

Fixpoint lit (s : str) : regex :=
  match s with
  | [] => Eps
  | c :: s' => Cat (One (Chr c)) (lit s')
  end.

Definition seq (rs : list regex) : regex := fold_right Cat Eps rs.

(** Greedy repetition with backtracking: take a character while it fits,
    try the rest of the pattern, give the character back on failure. *)
Fixpoint many {A} (p : ascii -> bool) (s : str) (k : str -> option A)
  : option A :=
  match s with
  | c :: s' =>
      if p c then
        match many p s' k with
        | Some x => Some x
        | None => k s
        end
      else k s
  | [] => k s
  end.

Definition one {A} (p : ascii -> bool) (s : str) (k : str -> option A)
  : option A :=
  match s with
  | c :: s' => if p c then k s' else None
  | [] => None
  end.

(** The text consumed between the suffix [s] and its suffix [s']. *)
Definition consumed (s s' : str) : str := firstn (length s - length s') s.

(** [run r s caps k]: match [r] at the front of [s], with the groups
    closed so far in [caps], and hand the remaining text and the groups to
    the continuation [k]; the first success in the engine's order of
    preference is the answer. *)
Fixpoint run {A} (r : regex) (s : str) (caps : list str)
  (k : str -> list str -> option A) : option A :=
  match r with
  | Eps => k s caps
  | One a => one (test a) s (fun s' => k s' caps)
  | Star a => many (test a) s (fun s' => k s' caps)
  | Plus a => one (test a) s (fun s' => many (test a) s' (fun s'' => k s'' caps))
  | Opt a =>
      match one (test a) s (fun s' => k s' caps) with
      | Some x => Some x
      | None => k s caps
      end
  | Cat r1 r2 => run r1 s caps (fun s1 caps1 => run r2 s1 caps1 k)
  | Group r1 => run r1 s caps (fun s' caps' => k s' (caps' ++ [consumed s s']))
  end.

(** [re.match]: the groups of a match of [r] at the front of [s]. *)
Definition match_here (r : regex) (s : str) : option (list str) :=
  run r s [] (fun _ caps => Some caps).

(** [re.search]: the groups of the leftmost match. *)
Fixpoint search (r : regex) (s : str) : option (list str) :=
  match match_here r s with
  | Some caps => Some caps
  | None =>
      match s with
      | [] => None
      | _ :: s' => search r s'
      end
  end.

(** [m.group(i)], for [i >= 1]. *)
Definition group (caps : list str) (i : nat) : result str :=
  match i with
  | 0 => Raise OutsideFragment
  | S j =>
      match nth_error caps j with
      | Some g => Ok g
      | None => Raise IndexError
      end
  end.

End Re.

Import Re.

(** ** The script *)

(** The pattern of [parse_ips_line], written with blanks between its
    items: [ \( ( \d+ \.? \d* ) \s* MIPS \) ]. *)
Definition ips_re : regex :=
  seq [lit "(";
       Group (seq [Plus Digit; Opt (Chr "."%char); Star Digit]);
       Star Space; lit "MIPS)"].

Definition parse_ips_line (line : str) : result (option F64.t) :=
  match search ips_re line with
  | Some m =>
      g <- group m 1 ;;
      v <- float g ;;
      Ok (Some v)
  | None => Ok None
  end.

(** The pattern of the cycle breakdown, items separated by blanks:
    [ Cycles/instr: \s* fetch= (\d+) \s* \( (\d+) %\) \s* exec= (\d+)
      \s* \( (\d+) %\) \s* total= (\d+) ]. *)
Definition cycles_re : regex :=
  seq [lit "Cycles/instr:"; Star Space;
       lit "fetch="; Group (Plus Digit); Star Space;
       lit "("; Group (Plus Digit); lit "%)"; Star Space;
       lit "exec="; Group (Plus Digit); Star Space;
       lit "("; Group (Plus Digit); lit "%)"; Star Space;
       lit "total="; Group (Plus Digit)].

(** The pattern of the bandwidth line:
    [ PSRAM bandwidth: \s* read= (\d+) KB/s \s* write= (\d+) KB/s \s*
      total= (\d+) KB/s ]. *)
Definition bw_re : regex :=
  seq [lit "PSRAM bandwidth:"; Star Space;
       lit "read="; Group (Plus Digit); lit "KB/s"; Star Space;
       lit "write="; Group (Plus Digit); lit "KB/s"; Star Space;
       lit "total="; Group (Plus Digit); lit "KB/s"].

(** The dictionary [metrics] of [parse_profiler_block]. *)
Module Block.

Record t := {
  fetch_cycles : option Z;
  fetch_pct : option Z;
  exec_cycles : option Z;
  exec_pct : option Z;
  total_cycles : option Z;
  psram_read_kbps : option Z;
  psram_write_kbps : option Z;
  psram_total_kbps : option Z;
  bottleneck : option str
}.

(** [{}] *)
Definition empty : t :=
  {| fetch_cycles := None; fetch_pct := None; exec_cycles := None;
     exec_pct := None; total_cycles := None; psram_read_kbps := None;
     psram_write_kbps := None; psram_total_kbps := None;
     bottleneck := None |}.

Definition isSome {A} (o : option A) : bool :=
  match o with Some _ => true | None => false end.

(** The truth value of the dictionary: it has a key. *)
Definition truthy (b : t) : bool :=
  isSome (fetch_cycles b) || isSome (fetch_pct b) || isSome (exec_cycles b)
  || isSome (exec_pct b) || isSome (total_cycles b)
  || isSome (psram_read_kbps b) || isSome (psram_write_kbps b)
  || isSome (psram_total_kbps b) || isSome (bottleneck b).

Definition set_fetch_cycles (b : t) (v : Z) : t :=
  {| fetch_cycles := Some v; fetch_pct := fetch_pct b;
     exec_cycles := exec_cycles b; exec_pct := exec_pct b;
     total_cycles := total_cycles b; psram_read_kbps := psram_read_kbps b;
     psram_write_kbps := psram_write_kbps b;
     psram_total_kbps := psram_total_kbps b; bottleneck := bottleneck b |}.

Definition set_fetch_pct (b : t) (v : Z) : t :=
  {| fetch_cycles := fetch_cycles b; fetch_pct := Some v;
     exec_cycles := exec_cycles b; exec_pct := exec_pct b;
     total_cycles := total_cycles b; psram_read_kbps := psram_read_kbps b;
     psram_write_kbps := psram_write_kbps b;
     psram_total_kbps := psram_total_kbps b; bottleneck := bottleneck b |}.

Definition set_exec_cycles (b : t) (v : Z) : t :=
  {| fetch_cycles := fetch_cycles b; fetch_pct := fetch_pct b;
     exec_cycles := Some v; exec_pct := exec_pct b;
     total_cycles := total_cycles b; psram_read_kbps := psram_read_kbps b;
     psram_write_kbps := psram_write_kbps b;
     psram_total_kbps := psram_total_kbps b; bottleneck := bottleneck b |}.

Definition set_exec_pct (b : t) (v : Z) : t :=
  {| fetch_cycles := fetch_cycles b; fetch_pct := fetch_pct b;
     exec_cycles := exec_cycles b; exec_pct := Some v;
     total_cycles := total_cycles b; psram_read_kbps := psram_read_kbps b;
     psram_write_kbps := psram_write_kbps b;
     psram_total_kbps := psram_total_kbps b; bottleneck := bottleneck b |}.

Definition set_total_cycles (b : t) (v : Z) : t :=
  {| fetch_cycles := fetch_cycles b; fetch_pct := fetch_pct b;
     exec_cycles := exec_cycles b; exec_pct := exec_pct b;
     total_cycles := Some v; psram_read_kbps := psram_read_kbps b;
     psram_write_kbps := psram_write_kbps b;
     psram_total_kbps := psram_total_kbps b; bottleneck := bottleneck b |}.

Definition set_psram_read_kbps (b : t) (v : Z) : t :=
  {| fetch_cycles := fetch_cycles b; fetch_pct := fetch_pct b;
     exec_cycles := exec_cycles b; exec_pct := exec_pct b;
     total_cycles := total_cycles b; psram_read_kbps := Some v;
     psram_write_kbps := psram_write_kbps b;
     psram_total_kbps := psram_total_kbps b; bottleneck := bottleneck b |}.

Definition set_psram_write_kbps (b : t) (v : Z) : t :=
  {| fetch_cycles := fetch_cycles b; fetch_pct := fetch_pct b;
     exec_cycles := exec_cycles b; exec_pct := exec_pct b;
     total_cycles := total_cycles b; psram_read_kbps := psram_read_kbps b;
     psram_write_kbps := Some v;
     psram_total_kbps := psram_total_kbps b; bottleneck := bottleneck b |}.

Definition set_psram_total_kbps (b : t) (v : Z) : t :=
  {| fetch_cycles := fetch_cycles b; fetch_pct := fetch_pct b;
     exec_cycles := exec_cycles b; exec_pct := exec_pct b;
     total_cycles := total_cycles b; psram_read_kbps := psram_read_kbps b;
     psram_write_kbps := psram_write_kbps b;
     psram_total_kbps := Some v; bottleneck := bottleneck b |}.

Definition set_bottleneck (b : t) (v : str) : t :=
  {| fetch_cycles := fetch_cycles b; fetch_pct := fetch_pct b;
     exec_cycles := exec_cycles b; exec_pct := exec_pct b;
     total_cycles := total_cycles b; psram_read_kbps := psram_read_kbps b;
     psram_write_kbps := psram_write_kbps b;
     psram_total_kbps := psram_total_kbps b; bottleneck := Some v |}.

End Block.

(** The three steps of the loop body of [parse_profiler_block]. *)
Definition parse_cycles (rt : runtime) (metrics : Block.t) (line : str)
  : result Block.t :=
  match search cycles_re line with
  | Some m =>
      g <- group m 1 ;; v <- int rt g ;;
      let metrics := Block.set_fetch_cycles metrics v in
      g <- group m 2 ;; v <- int rt g ;;
      let metrics := Block.set_fetch_pct metrics v in
      g <- group m 3 ;; v <- int rt g ;;
      let metrics := Block.set_exec_cycles metrics v in
      g <- group m 4 ;; v <- int rt g ;;
      let metrics := Block.set_exec_pct metrics v in
      g <- group m 5 ;; v <- int rt g ;;
      Ok (Block.set_total_cycles metrics v)
  | None => Ok metrics
  end.

Definition parse_bw (rt : runtime) (metrics : Block.t) (line : str)
  : result Block.t :=
  match search bw_re line with
  | Some m =>
      g <- group m 1 ;; v <- int rt g ;;
      let metrics := Block.set_psram_read_kbps metrics v in
      g <- group m 2 ;; v <- int rt g ;;
      let metrics := Block.set_psram_write_kbps metrics v in
      g <- group m 3 ;; v <- int rt g ;;
      Ok (Block.set_psram_total_kbps metrics v)
  | None => Ok metrics
  end.

Definition parse_tag (metrics : Block.t) (line : str) : Block.t :=
  if contains "BOTTLENECK: CPU" line then Block.set_bottleneck metrics "CPU"
  else if contains "BOTTLENECK: PSRAM" line
       then Block.set_bottleneck metrics "PSRAM"
       else metrics.

Definition parse_profiler_line (rt : runtime) (metrics : Block.t) (line : str)
  : result Block.t :=
  metrics <- parse_cycles rt metrics line ;;
  metrics <- parse_bw rt metrics line ;;
  Ok (parse_tag metrics line).

Definition parse_profiler_block (rt : runtime) (lines : list str)
  : result Block.t :=
  for_each (parse_profiler_line rt) lines Block.empty.

(** The dictionary returned by [extract_metrics]. *)
Record metrics := {
  mips_values : list F64.t;
  profiler_blocks : list Block.t;
  wifi_connected : bool;
  wifi_error : bool
}.

(** The variables of the loop of [extract_metrics]. *)
Record scan := {
  sc_mips : list F64.t;
  sc_blocks : list Block.t;
  current_block : list str;
  in_profiler_block : bool
}.

Definition scan0 : scan :=
  {| sc_mips := []; sc_blocks := []; current_block := [];
     in_profiler_block := false |}.

Definition profiler_start : str := "========== CPU PROFILER ==========".
Definition profiler_end : str := "==================================".

Definition extract_line (rt : runtime) (st : scan) (line : str) : result scan :=
  mips <- parse_ips_line line ;;
  let mips_values :=
    match mips with
    | Some v => sc_mips st ++ [v]
    | None => sc_mips st
    end in
  if contains profiler_start line then
    Ok {| sc_mips := mips_values; sc_blocks := sc_blocks st;
          current_block := []; in_profiler_block := true |}
  else if contains profiler_end line && in_profiler_block st then
    metrics <- parse_profiler_block rt (current_block st) ;;
    Ok {| sc_mips := mips_values;
          sc_blocks := if Block.truthy metrics
                       then sc_blocks st ++ [metrics] else sc_blocks st;
          current_block := current_block st; in_profiler_block := false |}
  else if in_profiler_block st then
    Ok {| sc_mips := mips_values; sc_blocks := sc_blocks st;
          current_block := current_block st ++ [line];
          in_profiler_block := in_profiler_block st |}
  else
    Ok {| sc_mips := mips_values; sc_blocks := sc_blocks st;
          current_block := current_block st;
          in_profiler_block := in_profiler_block st |}.

Definition extract_metrics (rt : runtime) (lines : list str) : result metrics :=
  st <- for_each (extract_line rt) lines scan0 ;;
  let wifi_connected := existsb (contains "WiFi connected") lines in
  let wifi_error :=
    existsb (fun line => contains "assert failed" (lower line)) lines in
  Ok {| mips_values := sc_mips st; profiler_blocks := sc_blocks st;
        wifi_connected := wifi_connected; wifi_error := wifi_error |}.

(** ** [statistics], [min], [max] *)

Module Stats.

Definition sum (l : list Z) : Z := fold_left Z.add l 0%Z.

(** [statistics.mean] on a list of floats: the exact mean of the values,
    rounded; [nan], else [inf], when the list holds one. *)
Definition mean_floats (l : list F64.t) : result F64.t :=
  match l with
  | [] => Raise StatisticsError
  | _ :: _ =>
      if existsb F64.is_nan l then Ok F64.NaN
      else if existsb F64.is_inf l then Ok F64.Infinity
      else
        match F64.round (sum (map F64.units_of l)) (Z.of_nat (length l)) with
        | F64.Infinity => Raise OverflowError
        | x => Ok x
        end
  end.

(** [statistics.mean] on a list of integers that are not negative: the
    mean as an [int] when it is whole, else the float nearest to it,
    OverflowError when that is beyond the finite floats. *)
Definition mean_ints (l : list Z) : result num :=
  match l with
  | [] => Raise StatisticsError
  | _ :: _ =>
      let total := sum l in
      let n := Z.of_nat (length l) in
      if (total mod n =? 0)%Z then Ok (Int (total / n))
      else x <- true_divide total n ;; Ok (Float x)
  end.

(** [min(l)] and [max(l)]: the first least, the first greatest element. *)
Definition min_ (l : list F64.t) : result F64.t :=
  match l with
  | [] => Raise ValueError
  | x :: t =>
      Ok (fold_left (fun best y => if F64.ltb y best then y else best) t x)
  end.

Definition max_ (l : list F64.t) : result F64.t :=
  match l with
  | [] => Raise ValueError
  | x :: t =>
      Ok (fold_left (fun best y => if F64.ltb best y then y else best) t x)
  end.

(** [max(l, key=key)]: the first element whose key is greatest. *)
Definition max_key {A} (key : A -> nat) (l : list A) : result A :=
  match l with
  | [] => Raise ValueError
  | x :: t =>
      Ok (fold_left (fun best y => if key best <? key y then y else best) t x)
  end.

(** [l.count(x)] *)
Definition count (l : list str) (x : str) : nat :=
  count_occ (list_eq_dec ascii_dec) l x.

End Stats.

Import Stats.

(** [d[k]] and [d.get(k, default)] on an optional field. *)
Definition getitem {A} (o : option A) : result A :=
  match o with
  | Some v => Ok v
  | None => Raise KeyError
  end.

Definition get {A} (o : option A) (default : A) : A :=
  match o with
  | Some v => v
  | None => default
  end.

(** [[f(x) for x in l]] *)
Fixpoint comprehension {A B} (f : A -> result B) (l : list A)
  : result (list B) :=
  match l with
  | [] => Ok []
  | x :: t => y <- f x ;; ys <- comprehension f t ;; Ok (y :: ys)
  end.

Definition nonempty {A} (l : list A) : bool :=
  match l with [] => false | _ :: _ => true end.

(** The dictionary [summary]. *)
Module Summary.

Record t := {
  wifi_status : option str;
  mips_avg : option F64.t;
  mips_min : option F64.t;
  mips_max : option F64.t;
  mips_stdev : option F64.t;
  mips_count : option nat;
  cycles_avg : option num;
  exec_pct_avg : option num;
  psram_bw_avg : option num;
  bottleneck : option str;
  profiler_count : option nat
}.

Definition empty : t :=
  {| wifi_status := None; mips_avg := None; mips_min := None;
     mips_max := None; mips_stdev := None; mips_count := None;
     cycles_avg := None; exec_pct_avg := None; psram_bw_avg := None;
     bottleneck := None; profiler_count := None |}.

Definition set_wifi_status (s : t) (v : str) : t :=
  {| wifi_status := Some v; mips_avg := mips_avg s; mips_min := mips_min s;
     mips_max := mips_max s; mips_stdev := mips_stdev s;
     mips_count := mips_count s; cycles_avg := cycles_avg s;
     exec_pct_avg := exec_pct_avg s; psram_bw_avg := psram_bw_avg s;
     bottleneck := bottleneck s; profiler_count := profiler_count s |}.

Definition set_mips_avg (s : t) (v : F64.t) : t :=
  {| wifi_status := wifi_status s; mips_avg := Some v; mips_min := mips_min s;
     mips_max := mips_max s; mips_stdev := mips_stdev s;
     mips_count := mips_count s; cycles_avg := cycles_avg s;
     exec_pct_avg := exec_pct_avg s; psram_bw_avg := psram_bw_avg s;
     bottleneck := bottleneck s; profiler_count := profiler_count s |}.

Definition set_mips_min (s : t) (v : F64.t) : t :=
  {| wifi_status := wifi_status s; mips_avg := mips_avg s; mips_min := Some v;
     mips_max := mips_max s; mips_stdev := mips_stdev s;
     mips_count := mips_count s; cycles_avg := cycles_avg s;
     exec_pct_avg := exec_pct_avg s; psram_bw_avg := psram_bw_avg s;
     bottleneck := bottleneck s; profiler_count := profiler_count s |}.

Definition set_mips_max (s : t) (v : F64.t) : t :=
  {| wifi_status := wifi_status s; mips_avg := mips_avg s;
     mips_min := mips_min s; mips_max := Some v; mips_stdev := mips_stdev s;
     mips_count := mips_count s; cycles_avg := cycles_avg s;
     exec_pct_avg := exec_pct_avg s; psram_bw_avg := psram_bw_avg s;
     bottleneck := bottleneck s; profiler_count := profiler_count s |}.

Definition set_mips_stdev (s : t) (v : F64.t) : t :=
  {| wifi_status := wifi_status s; mips_avg := mips_avg s;
     mips_min := mips_min s; mips_max := mips_max s; mips_stdev := Some v;
     mips_count := mips_count s; cycles_avg := cycles_avg s;
     exec_pct_avg := exec_pct_avg s; psram_bw_avg := psram_bw_avg s;
     bottleneck := bottleneck s; profiler_count := profiler_count s |}.

Definition set_mips_count (s : t) (v : nat) : t :=
  {| wifi_status := wifi_status s; mips_avg := mips_avg s;
     mips_min := mips_min s; mips_max := mips_max s;
     mips_stdev := mips_stdev s; mips_count := Some v;
     cycles_avg := cycles_avg s; exec_pct_avg := exec_pct_avg s;
     psram_bw_avg := psram_bw_avg s; bottleneck := bottleneck s;
     profiler_count := profiler_count s |}.

Definition set_cycles_avg (s : t) (v : num) : t :=
  {| wifi_status := wifi_status s; mips_avg := mips_avg s;
     mips_min := mips_min s; mips_max := mips_max s;
     mips_stdev := mips_stdev s; mips_count := mips_count s;
     cycles_avg := Some v; exec_pct_avg := exec_pct_avg s;
     psram_bw_avg := psram_bw_avg s; bottleneck := bottleneck s;
     profiler_count := profiler_count s |}.

Definition set_exec_pct_avg (s : t) (v : num) : t :=
  {| wifi_status := wifi_status s; mips_avg := mips_avg s;
     mips_min := mips_min s; mips_max := mips_max s;
     mips_stdev := mips_stdev s; mips_count := mips_count s;
     cycles_avg := cycles_avg s; exec_pct_avg := Some v;
     psram_bw_avg := psram_bw_avg s; bottleneck := bottleneck s;
     profiler_count := profiler_count s |}.

Definition set_psram_bw_avg (s : t) (v : num) : t :=
  {| wifi_status := wifi_status s; mips_avg := mips_avg s;
     mips_min := mips_min s; mips_max := mips_max s;
     mips_stdev := mips_stdev s; mips_count := mips_count s;
     cycles_avg := cycles_avg s; exec_pct_avg := exec_pct_avg s;
     psram_bw_avg := Some v; bottleneck := bottleneck s;
     profiler_count := profiler_count s |}.

Definition set_bottleneck (s : t) (v : str) : t :=
  {| wifi_status := wifi_status s; mips_avg := mips_avg s;
     mips_min := mips_min s; mips_max := mips_max s;
     mips_stdev := mips_stdev s; mips_count := mips_count s;
     cycles_avg := cycles_avg s; exec_pct_avg := exec_pct_avg s;
     psram_bw_avg := psram_bw_avg s; bottleneck := Some v;
     profiler_count := profiler_count s |}.

Definition set_profiler_count (s : t) (v : nat) : t :=
  {| wifi_status := wifi_status s; mips_avg := mips_avg s;
     mips_min := mips_min s; mips_max := mips_max s;
     mips_stdev := mips_stdev s; mips_count := mips_count s;
     cycles_avg := cycles_avg s; exec_pct_avg := exec_pct_avg s;
     psram_bw_avg := psram_bw_avg s; bottleneck := bottleneck s;
     profiler_count := Some v |}.

End Summary.

(** The average of the integer field [field] over [blocks], stored with
    [store] when every block has the field:
    [if all(k in b for b in blocks): summary[k'] = mean([b[k] for b in blocks])]. *)
Definition average_field (field : Block.t -> option Z)
  (store : Summary.t -> num -> Summary.t) (blocks : list Block.t)
  (summary : Summary.t) : result Summary.t :=
  if forallb (fun b => Block.isSome (field b)) blocks then
    values <- comprehension (fun b => getitem (field b)) blocks ;;
    v <- mean_ints values ;;
    Ok (store summary v)
  else Ok summary.

Definition wifi_status_of (m : metrics) : str :=
  if wifi_error m then "ERROR"
  else if wifi_connected m then "Connected" else "Unknown".

Definition mips_statistics (rt : runtime) (values : list F64.t)
  (summary : Summary.t) : result Summary.t :=
  if nonempty values then
    v <- mean_floats values ;;
    let summary := Summary.set_mips_avg summary v in
    v <- min_ values ;;
    let summary := Summary.set_mips_min summary v in
    v <- max_ values ;;
    let summary := Summary.set_mips_max summary v in
    summary <- (if 1 <? length values
                then v <- stdev rt values ;;
                     Ok (Summary.set_mips_stdev summary v)
                else Ok summary) ;;
    Ok (Summary.set_mips_count summary (length values))
  else Ok summary.

Definition profiler_statistics (rt : runtime) (blocks : list Block.t)
  (summary : Summary.t) : result Summary.t :=
  if nonempty blocks then
    summary <- average_field Block.total_cycles Summary.set_cycles_avg
                 blocks summary ;;
    summary <- average_field Block.exec_pct Summary.set_exec_pct_avg
                 blocks summary ;;
    summary <- average_field Block.psram_total_kbps Summary.set_psram_bw_avg
                 blocks summary ;;
    let bottlenecks :=
      map (fun b => get (Block.bottleneck b) ("Unknown" : str)) blocks in
    v <- max_key (count bottlenecks) (set_iter rt bottlenecks) ;;
    let summary := Summary.set_bottleneck summary v in
    Ok (Summary.set_profiler_count summary (length blocks))
  else Ok summary.

Definition calculate_summary (rt : runtime) (m : metrics) : result Summary.t :=
  let summary := Summary.set_wifi_status Summary.empty (wifi_status_of m) in
  summary <- mips_statistics rt (mips_values m) summary ;;
  profiler_statistics rt (profiler_blocks m) summary.

(** ** The console and the files *)

Module IO.

(** What the process has done so far: the texts given to [print], in
    order (the messages of [argparse] and the echo of [capture_serial]
    are not kept), and the files, each path with its content. *)
Record state := {
  console : list str;
  files : list (str * str)
}.

(** A computation that prints and writes, and returns or raises. *)
Definition io (A : Type) := state -> state * result A.

Definition ret {A} (a : A) : io A := fun st => (st, Ok a).

Definition raise {A} (e : exn) : io A := fun st => (st, Raise e).

Definition lift {A} (r : result A) : io A := fun st => (st, r).

Definition bind {A B} (c : io A) (k : A -> io B) : io B :=
  fun st =>
    match c st with
    | (st', Ok a) => k a st'
    | (st', Raise e) => (st', Raise e)
    end.

(** [print(s)] *)
Definition print (s : str) : io unit :=
  fun st => ({| console := console st ++ [s]; files := files st |}, Ok tt).

(** The content of the file at [path], if there is one. *)
Definition read (path : str) (fs : list (str * str)) : option str :=
  match find (fun e => str_eqb (fst e) path) fs with
  | Some e => Some (snd e)
  | None => None
  end.

Definition write (path data : str) (fs : list (str * str))
  : list (str * str) :=
  (path, data) :: filter (fun e => negb (str_eqb (fst e) path)) fs.

(** What the file system refuses: the exception [os.makedirs(path,
    exist_ok=True)] raises, and the one [open(path, mode)] raises for a
    mode that writes, if any; a path that is refused once is refused each
    time, and so for one that is accepted. *)
Record filesystem := {
  makedirs_error : str -> option exn;
  open_error : str -> option exn
}.

Definition makedirs (fs : filesystem) (path : str) : io unit :=
  match makedirs_error fs path with
  | Some e => raise e
  | None => ret tt
  end.

(** [os.path.exists(path)] *)
Definition path_exists (path : str) : io bool :=
  fun st => (st, Ok (match read path (files st) with
                     | Some _ => true
                     | None => false
                     end)).

(** [with open(path, 'w') as f: f.write(data)] *)
Definition open_w (fs : filesystem) (path data : str) : io unit :=
  match open_error fs path with
  | Some e => raise e
  | None =>
      fun st => ({| console := console st;
                    files := write path data (files st) |}, Ok tt)
  end.

(** [with open(path, 'a') as f: f.write(data)] *)
Definition open_a (fs : filesystem) (path data : str) : io unit :=
  match open_error fs path with
  | Some e => raise e
  | None =>
      fun st =>
        let content := match read path (files st) with
                       | Some content => content
                       | None => []
                       end in
        ({| console := console st;
            files := write path (content ++ data) (files st) |}, Ok tt)
  end.

End IO.

Import IO.

Notation "x <-- c ;; k" := (IO.bind c (fun x => k))
  (at level 61, c at next level, right associativity).

Notation "c ;;; k" := (IO.bind c (fun _ => k))
  (at level 61, right associativity).

(** [os.path.join(a, *p)] *)
Definition ends_with_sep (path : str) : bool :=
  match rev path with
  | c :: _ => Ascii.eqb c "/"%char
  | [] => false
  end.

Definition path_join (a : str) (p : list str) : str :=
  fold_left (fun path b =>
               if startswith b "/" then b
               else if negb (nonempty path) || ends_with_sep path
                    then path ++ b
                    else path ++ "/" ++ b)
            p a.

(** ** The port *)

Definition DEFAULT_SERIAL_PORT : str := "/dev/cu.usbmodem11401".

Definition BACKUP_SERIAL_PORTS : list str :=
  ["/dev/cu.usbmodem211401" : str;
   "/dev/cu.usbmodem11301" : str;
   "/dev/ttyUSB0" : str].

(** The loop of [find_serial_port]: [opens port] tells whether
    [serial.Serial(port, BAUD_RATE, timeout=0.1)] returns, rather than
    raising SerialException or OSError. *)
Fixpoint first_port (opens : str -> bool) (ports_to_try : list str)
  : option str :=
  match ports_to_try with
  | [] => None
  | port :: rest => if opens port then Some port else first_port opens rest
  end.

Definition find_serial_port (opens : str -> bool) (preferred_port : str)
  : option str :=
  let ports_to_try := [preferred_port] ++ BACKUP_SERIAL_PORTS in
  first_port opens ports_to_try.

(** ** Reporting *)

Definition nl : str := ["010"%char].

(** [str(n)] for a count. *)
Definition str_of_nat (n : nat) : str :=
  list_ascii_of_string (NilZero.string_of_uint (Nat.to_uint n)).

(** [sep.join(l)] *)
Fixpoint join (sep : str) (l : list str) : str :=
  match l with
  | [] => []
  | [x] => x
  | x :: t => x ++ sep ++ join sep t
  end.

(** [s.replace(' ', '_')] *)
Definition underscores (s : str) : str :=
  map (fun c => if Ascii.eqb c " "%char then "_"%char else c) s.

(** [summary.get(k, 0)] for a key that holds a float. *)
Definition get_float (o : option F64.t) : num :=
  match o with
  | Some x => Float x
  | None => Int 0
  end.

(** [save_raw_capture]: it returns the path of the file it has written.
    [project_root] is the value of [get_project_root()]. *)
Definition save_raw_capture (fs : filesystem) (project_root : str)
  (lines : list str) (label timestamp : str) : io str :=
  let captures_dir :=
    path_join project_root ["docs" : str; "performance_captures" : str] in
  makedirs fs captures_dir ;;;
  let filename := timestamp ++ "_" ++ underscores label ++ ".txt" in
  let filepath := path_join captures_dir [filename] in
  open_w fs filepath (join nl lines) ;;;
  print ("Raw capture saved to: " ++ filepath) ;;;
  ret filepath.

Definition header : str :=
"# BasiliskII ESP32-P4 Performance Tracking

This document tracks performance measurements over time.

## Measurements

| Date | Label | MIPS (avg) | MIPS (range) | Cycles/instr | Exec % | PSRAM BW | Bottleneck | WiFi |
|------|-------|------------|--------------|--------------|--------|----------|------------|------|
".

Definition na : str := "N/A".

(** The cells [append_to_tracking_doc] formats from the summary. *)
Module Row.

Record t := {
  mips_avg : str;
  mips_range : str;
  cycles : str;
  exec_pct : str;
  psram_bw : str;
  bottleneck : str;
  wifi : str
}.

End Row.

Definition cells (summary : Summary.t) : result Row.t :=
  mips_avg <-
    (if Block.isSome (Summary.mips_avg summary)
     then format_f 2 (get_float (Summary.mips_avg summary)) else Ok na) ;;
  mips_range <-
    (if Block.isSome (Summary.mips_min summary)
     then lo <- format_f 2 (get_float (Summary.mips_min summary)) ;;
          hi <- format_f 2 (get_float (Summary.mips_max summary)) ;;
          Ok (lo ++ "-" ++ hi)
     else Ok na) ;;
  cycles <-
    (if Block.isSome (Summary.cycles_avg summary)
     then format_f 0 (get (Summary.cycles_avg summary) (Int 0)) else Ok na) ;;
  exec_pct <-
    (if Block.isSome (Summary.exec_pct_avg summary)
     then v <- format_f 0 (get (Summary.exec_pct_avg summary) (Int 0)) ;;
          Ok (v ++ "%")
     else Ok na) ;;
  psram_bw <-
    (if Block.isSome (Summary.psram_bw_avg summary)
     then v <- format_f 0 (get (Summary.psram_bw_avg summary) (Int 0)) ;;
          Ok (v ++ " KB/s")
     else Ok na) ;;
  Ok {| Row.mips_avg := mips_avg; Row.mips_range := mips_range;
        Row.cycles := cycles; Row.exec_pct := exec_pct;
        Row.psram_bw := psram_bw;
        Row.bottleneck := get (Summary.bottleneck summary) na;
        Row.wifi := get (Summary.wifi_status summary) ("Unknown" : str) |}.

(** The row written to the tracking document. *)
Definition row (date_str label : str) (c : Row.t) : str :=
  "| " ++ date_str ++ " | " ++ label ++ " | " ++ Row.mips_avg c ++ " | "
  ++ Row.mips_range c ++ " | " ++ Row.cycles c ++ " | " ++ Row.exec_pct c
  ++ " | " ++ Row.psram_bw c ++ " | " ++ Row.bottleneck c ++ " | "
  ++ Row.wifi c ++ " |" ++ nl.

(** [append_to_tracking_doc]: [date_str] is the clock reading
    [datetime.now().strftime('%Y-%m-%d %H:%M')]. *)
Definition append_to_tracking_doc (fs : filesystem)
  (project_root date_str : str) (summary : Summary.t) (label : str)
  : io unit :=
  let doc_path :=
    path_join project_root ["docs" : str; "PERFORMANCE_TRACKING.md" : str] in
  present <-- path_exists doc_path ;;
  (if negb present then open_w fs doc_path header else ret tt) ;;;
  c <-- lift (cells summary) ;;
  open_a fs doc_path (row date_str label c) ;;;
  print ("Results appended to: " ++ doc_path).

(** [print(f"...{x:.pf}...")]: the text is formatted, then printed. *)
Definition print_f (text : result str) : io unit :=
  s <-- lift text ;; print s.

Definition print_summary (summary : Summary.t) : io unit :=
  let rule : str := repeat "="%char 60 in
  print (nl ++ rule) ;;;
  print "PERFORMANCE CAPTURE SUMMARY" ;;;
  print rule ;;;
  print (nl ++ "WiFi Status: "
         ++ get (Summary.wifi_status summary) ("Unknown" : str)) ;;;
  (if Block.isSome (Summary.mips_avg summary) then
     print (nl ++ "MIPS Performance ("
            ++ str_of_nat (get (Summary.mips_count summary) 0)
            ++ " samples):") ;;;
     print_f (v <- getitem (Summary.mips_avg summary) ;;
              s <- format_f 2 (Float v) ;;
              Ok ("  Average: " ++ s ++ " MIPS")) ;;;
     print_f (lo <- format_f 2 (get_float (Summary.mips_min summary)) ;;
              hi <- format_f 2 (get_float (Summary.mips_max summary)) ;;
              Ok ("  Range:   " ++ lo ++ " - " ++ hi ++ " MIPS")) ;;;
     (if Block.isSome (Summary.mips_stdev summary) then
        print_f (v <- getitem (Summary.mips_stdev summary) ;;
                 s <- format_f 2 (Float v) ;;
                 Ok ("  StdDev:  " ++ s))
      else ret tt)
   else
     print (nl ++ "No MIPS data captured (emulator may not have started)")) ;;;
  (if Block.isSome (Summary.profiler_count summary) then
     print (nl ++ "Profiler Data ("
            ++ str_of_nat (get (Summary.profiler_count summary) 0)
            ++ " samples):") ;;;
     (if Block.isSome (Summary.cycles_avg summary) then
        print_f (v <- getitem (Summary.cycles_avg summary) ;;
                 s <- format_f 0 v ;;
                 Ok ("  Avg cycles/instr: " ++ s))
      else ret tt) ;;;
     (if Block.isSome (Summary.exec_pct_avg summary) then
        print_f (v <- getitem (Summary.exec_pct_avg summary) ;;
                 s <- format_f 0 v ;;
                 Ok ("  Avg exec %:       " ++ s ++ "%"))
      else ret tt) ;;;
     (if Block.isSome (Summary.psram_bw_avg summary) then
        print_f (v <- getitem (Summary.psram_bw_avg summary) ;;
                 s <- format_f 0 v ;;
                 Ok ("  Avg PSRAM BW:     " ++ s ++ " KB/s"))
      else ret tt) ;;;
     print ("  Bottleneck:       " ++ get (Summary.bottleneck summary) na)
   else
     print (nl ++ "No profiler data captured (profiler may be disabled)")) ;;;
  print (nl ++ rule).

(** ** [main] *)

Module Main.

(** The namespace [parser.parse_args()] returns. *)
Record args := {
  duration : Z;
  label : str;
  port : str;
  no_save : bool
}.

(** What [parser.parse_args()] does: it returns the namespace, or leaves
    the process with status 0 after the help asked for, or with status 2
    on a command line it refuses. *)
Inductive invocation :=
| Parsed (a : args)
| Help
| Refused.

(** What the run meets outside the process: whether a serial port opens,
    the lines [capture_serial(port, duration)] returns (none when the port
    cannot be opened) or the exception that leaves it, the two readings of
    the clock, the project directory, the files and what the file system
    refuses. *)
Record world := {
  opens : str -> bool;
  capture_serial : str -> Z -> result (list str);
  timestamp : str;
  date_str : str;
  project_root : str;
  files : list (str * str);
  filesystem : IO.filesystem
}.

(** [sys.exit(status)] *)
Definition sys_exit {A} (status : Z) : io A := raise (SystemExit status).

(** The truth value of the port [find_serial_port] returned. *)
Definition usable (p : option str) : option str :=
  match p with
  | Some (c :: s) => Some (c :: s)
  | Some [] | None => None
  end.

Definition warning : str :=
  nl ++ "WARNING: WiFi errors detected! Check the capture.".

Definition main (rt : runtime) (inv : invocation) (w : world) : io unit :=
  match inv with
  | Help => sys_exit 0
  | Refused => sys_exit 2
  | Parsed args =>
      match usable (find_serial_port (opens w) (port args)) with
      | None =>
          print ("Error: Could not find serial port. Tried: " ++ port args) ;;;
          print "Make sure the device is connected and the port is correct." ;;;
          sys_exit 1
      | Some p =>
          (if negb (str_eqb p (port args))
           then print ("Note: Using " ++ p ++ " instead of " ++ port args)
           else ret tt) ;;;
          lines <-- lift (capture_serial w p (duration args)) ;;
          if negb (nonempty lines) then
            print "No data captured!" ;;; sys_exit 1
          else
            metrics <-- lift (extract_metrics rt lines) ;;
            summary <-- lift (calculate_summary rt metrics) ;;
            print_summary summary ;;;
            (if negb (no_save args) then
               save_raw_capture (filesystem w) (project_root w) lines
                 (label args) (timestamp w) ;;;
               append_to_tracking_doc (filesystem w) (project_root w)
                 (date_str w) summary (label args)
             else ret tt) ;;;
            if wifi_error metrics then print warning ;;; sys_exit 2
            else sys_exit 0
      end
  end.

(** The process ends by [sys.exit(status)] or by another exception nobody
    catches. *)
Inductive ending :=
| Exit (status : Z)
| Uncaught (e : exn).

Definition ending_of (r : result unit) : ending :=
  match r with
  | Ok _ => Exit 0
  | Raise (SystemExit status) => Exit status
  | Raise e => Uncaught e
  end.

(** The exit status the shell sees: an uncaught exception gives 1. *)
Definition exit_status (e : ending) : Z :=
  match e with
  | Exit status => status
  | Uncaught _ => 1%Z
  end.

(** What the run leaves. *)
Record outcome := {
  console : list str;
  files_after : list (str * str);
  ended : ending
}.

(** [if __name__ == '__main__': main()] *)
Definition process (rt : runtime) (inv : invocation) (w : world) : outcome :=
  let (st, r) := main rt inv w {| IO.console := []; IO.files := files w |} in
  {| console := IO.console st; files_after := IO.files st;
     ended := ending_of r |}.

End Main.

(** ** A runtime: CPython 3.11 with its defaults

    The cap on digit strings is the default one; a set is iterated in the
    order its elements were first inserted (one of the orders the
    interpreter may choose); [statistics.stdev] is the one of the library
    of CPython 3.11: it needs finite values, of which it takes the exact
    sample variance, and rounds the square root of that fraction to the
    nearest float. *)

Module Reference.

Local Open Scope Z_scope.

Definition set_iter (l : list str) : list str :=
  nodup (list_eq_dec ascii_dec) l.

(** [n.bit_length()] *)
Definition bit_length (n : Z) : Z := if n =? 0 then 0 else Z.log2 n + 1.

(** [_integer_sqrt_of_frac_rto]: the square root of [n / m] rounded to an
    integer, to the odd one when it is not exact. *)
Definition integer_sqrt_of_frac_rto (n m : Z) : Z :=
  let a := Z.sqrt (n / m) in
  if a * a * m =? n then a else Z.lor a 1.

(** [_float_sqrt_of_frac] *)
Definition float_sqrt_of_frac (n m : Z) : result F64.t :=
  let q := (bit_length n - bit_length m - 109) / 2 in
  if 0 <=? q then
    true_divide (Z.shiftl (integer_sqrt_of_frac_rto n (Z.shiftl m (2 * q))) q)
                1
  else
    true_divide (integer_sqrt_of_frac_rto (Z.shiftl n (-2 * q)) m)
                (Z.shiftl 1 (- q)).

(** [stdev]: with [n] values worth [u_i] units, the mean of the squared
    deviations is the fraction
    [(n * sum u_i^2 - (sum u_i)^2) / (n * (n - 1) * 2^2148)], taken in
    lowest terms.  With an [inf] or a [nan] among two values or more, the
    library looks for the numerator of a float and raises AttributeError. *)
Definition stdev (data : list F64.t) : result F64.t :=
  let n := Z.of_nat (length data) in
  if n <? 2 then Raise StatisticsError
  else if existsb (fun x => F64.is_nan x || F64.is_inf x) data
       then Raise AttributeError
       else
         let sx := sum (map F64.units_of data) in
         let sxx := sum (map (fun x => F64.units_of x * F64.units_of x) data) in
         let num := n * sxx - sx * sx in
         let den := n * (n - 1) * 2 ^ 2148 in
         let g := Z.gcd num den in
         float_sqrt_of_frac (num / g) (den / g).

Definition cpython : runtime :=
  {| int_max_str_digits := 4300;
     Py.set_iter := set_iter;
     set_iter_NoDup := NoDup_nodup (list_eq_dec ascii_dec);
     set_iter_In := fun l x => nodup_In (list_eq_dec ascii_dec) l x;
     Py.stdev := stdev |}.

End Reference.

(** ** Vocabulary of the properties *)

Module ReSpec.

(** What a pattern matches, read off the pattern: [matches r s caps] when
    the text [s] is in the language of [r], [caps] being the texts of the
    groups of [r] in the order they close. *)
Inductive matches : regex -> str -> list str -> Prop :=
| m_eps : matches Eps [] []
| m_one a c : test a c = true -> matches (One a) [c] []
| m_star a s : Forall (fun c => test a c = true) s -> matches (Star a) s []
| m_plus a c s :
    test a c = true -> Forall (fun c => test a c = true) s ->
    matches (Plus a) (c :: s) []
| m_opt_none a : matches (Opt a) [] []
| m_opt_some a c : test a c = true -> matches (Opt a) [c] []
| m_cat r1 r2 s1 s2 c1 c2 :
    matches r1 s1 c1 -> matches r2 s2 c2 ->
    matches (Cat r1 r2) (s1 ++ s2) (c1 ++ c2)
| m_group r s c : matches r s c -> matches (Group r) s (c ++ [s]).

(** The bodies of the groups of a pattern, in the order they close. *)
Fixpoint groups (r : regex) : list regex :=
  match r with
  | Cat r1 r2 => groups r1 ++ groups r2
  | Group r1 => groups r1 ++ [r1]
  | _ => []
  end.

(** [s] occurs in [line] at the position after [pre]. *)
Definition occurs_at (r : regex) (line pre : str) (caps : list str) : Prop :=
  exists s post, line = pre ++ s ++ post /\ matches r s caps.

End ReSpec.

Import ReSpec.

(** A non-empty run of decimal digits. *)
Definition digit_run (s : str) : Prop :=
  s <> [] /\ Forall (fun c => isdigit c = true) s.

Definition blank_run (s : str) : Prop :=
  Forall (fun c => isspace c = true) s.

(** The text of a throughput reading: a number [ip] or [ip.fp] ([fp]
    possibly empty) in parentheses, then blanks, then the unit.  [dot]
    tells whether the point is written; [fp] is empty when it is not. *)
Definition number_text (ip : str) (dot : bool) (fp : str) : str :=
  ip ++ (if dot then "." ++ fp else []).

Definition reading_text (ip : str) (dot : bool) (fp ws : str) : str :=
  "(" ++ number_text ip dot fp ++ ws ++ "MIPS)".

Definition well_formed_reading (ip : str) (dot : bool) (fp ws : str) : Prop :=
  digit_run ip /\ Forall (fun c => isdigit c = true) fp
  /\ (dot = false -> fp = []) /\ blank_run ws.

(** A throughput reading starts at the front of [s]. *)
Definition reading_at_front (s : str) : Prop :=
  exists ip dot fp ws post,
    s = reading_text ip dot fp ws ++ post /\ well_formed_reading ip dot fp ws.

(** The samples one line contributes. *)
Definition samples_of (line : str) : list F64.t :=
  match parse_ips_line line with
  | Ok (Some v) => [v]
  | _ => []
  end.

(** The line fits the cap of the runtime on digit strings. *)
Definition fits (rt : runtime) (line : str) : bool :=
  (int_max_str_digits rt =? 0) || (length line <=? int_max_str_digits rt).

(** One of the three sub-patterns of a profiler block is recognized in
    the line. *)
Definition tag_of (line : str) : option str :=
  if contains "BOTTLENECK: CPU" line then Some ("CPU" : str)
  else if contains "BOTTLENECK: PSRAM" line then Some ("PSRAM" : str)
  else None.

Definition recognized (line : str) : bool :=
  Block.isSome (search cycles_re line) || Block.isSome (search bw_re line)
  || Block.isSome (tag_of line).

(** The last line on which [f] answers, with the answer. *)
Definition last_some {A B} (f : A -> option B) (l : list A) : option B :=
  fold_left (fun acc x => match f x with Some y => Some y | None => acc end)
            l None.

(** The integer written in group [i] (from 1) of the last line of [lines]
    matching [r]. *)
Definition last_group (r : regex) (i : nat) (lines : list str) : option Z :=
  match last_some (search r) lines with
  | Some m => option_map digits_value (nth_error m (i - 1))
  | None => None
  end.

Definition has_start (line : str) : bool := contains profiler_start line.
Definition has_end (line : str) : bool := contains profiler_end line.

(** The failure marker, in any mix of cases, is in the line. *)
Definition failure_marker (line : str) : bool :=
  contains "assert failed" (lower line).

Definition connected_marker (line : str) : bool :=
  contains "WiFi connected" line.

(** The tags the vote counts: a block without one votes "Unknown". *)
Definition votes (blocks : list Block.t) : list str :=
  map (fun b => get (Block.bottleneck b) ("Unknown" : str)) blocks.

(** The block a line leaves when no conversion raises: the fields of the
    cycle breakdown and of the bandwidth line are written from the groups
    of the match, then the tag. *)
Definition write_cycles (m : list str) (b : Block.t) : Block.t :=
  match m with
  | [g1; g2; g3; g4; g5] =>
      Block.set_total_cycles
        (Block.set_exec_pct
           (Block.set_exec_cycles
              (Block.set_fetch_pct
                 (Block.set_fetch_cycles b (digits_value g1))
                 (digits_value g2))
              (digits_value g3))
           (digits_value g4))
        (digits_value g5)
  | _ => b
  end.

Definition write_bw (m : list str) (b : Block.t) : Block.t :=
  match m with
  | [g1; g2; g3] =>
      Block.set_psram_total_kbps
        (Block.set_psram_write_kbps
           (Block.set_psram_read_kbps b (digits_value g1))
           (digits_value g2))
        (digits_value g3)
  | _ => b
  end.

Definition read_line (b : Block.t) (line : str) : Block.t :=
  let b := match search cycles_re line with
           | Some m => write_cycles m b
           | None => b
           end in
  let b := match search bw_re line with
           | Some m => write_bw m b
           | None => b
           end in
  parse_tag b line.

Definition read_block (lines : list str) : Block.t :=
  fold_left read_line lines Block.empty.

(** The text is empty or starts with a character outside the class. *)
Definition stops (p : ascii -> bool) (t : str) : Prop :=
  match t with
  | [] => True
  | c :: _ => p c = false
  end.

(** What a line does to the variables of the loop of [extract_metrics]
    when nothing raises. *)
Definition next (st : scan) (line : str) : scan :=
  let mips := sc_mips st ++ samples_of line in
  if has_start line then
    {| sc_mips := mips; sc_blocks := sc_blocks st; current_block := [];
       in_profiler_block := true |}
  else if has_end line && in_profiler_block st then
    let b := read_block (current_block st) in
    {| sc_mips := mips;
       sc_blocks := if Block.truthy b then sc_blocks st ++ [b]
                    else sc_blocks st;
       current_block := current_block st; in_profiler_block := false |}
  else if in_profiler_block st then
    {| sc_mips := mips; sc_blocks := sc_blocks st;
       current_block := current_block st ++ [line];
       in_profiler_block := in_profiler_block st |}
  else
    {| sc_mips := mips; sc_blocks := sc_blocks st;
       current_block := current_block st;
       in_profiler_block := in_profiler_block st |}.

Definition read_metrics (lines : list str) : metrics :=
  let st := fold_left next lines scan0 in
  {| mips_values := sc_mips st; profiler_blocks := sc_blocks st;
     wifi_connected := existsb connected_marker lines;
     wifi_error := existsb failure_marker lines |}.

(** The first least and the first greatest of [x :: t], as [min] and
    [max] find them. *)
Definition first_least (x : F64.t) (t : list F64.t) : F64.t :=
  fold_left (fun best y => if F64.ltb y best then y else best) t x.

Definition first_greatest (x : F64.t) (t : list F64.t) : F64.t :=
  fold_left (fun best y => if F64.ltb best y then y else best) t x.

(** [x <= y] on floats. *)
Definition le (x y : F64.t) : Prop := F64.leb x y = true.

(** What the summary holds of the samples, when it is there. *)
Definition mips_fields (rt : runtime) (values : list F64.t) (s : Summary.t)
  : Prop :=
  match values with
  | [] =>
      Summary.mips_avg s = None /\ Summary.mips_min s = None
      /\ Summary.mips_max s = None /\ Summary.mips_stdev s = None
      /\ Summary.mips_count s = None
  | x :: t =>
      (exists a, mean_floats values = Ok a /\ Summary.mips_avg s = Some a)
      /\ Summary.mips_min s = Some (first_least x t)
      /\ Summary.mips_max s = Some (first_greatest x t)
      /\ Summary.mips_count s = Some (length values)
      /\ match t with
         | [] => Summary.mips_stdev s = None
         | _ :: _ =>
             exists d, stdev rt values = Ok d /\ Summary.mips_stdev s = Some d
         end
  end.

(** Every block has the field; the values of the field in the blocks. *)
Definition every (field : Block.t -> option Z) (blocks : list Block.t)
  : bool :=
  forallb (fun b => Block.isSome (field b)) blocks.

Definition field_values (field : Block.t -> option Z) (blocks : list Block.t)
  : list Z :=
  map (fun b => get (field b) 0%Z) blocks.

(** [v] is the average of the field over the blocks when every block has
    it, and nothing otherwise. *)
Definition average_of (field : Block.t -> option Z) (blocks : list Block.t)
  (v : option num) : Prop :=
  if every field blocks
  then exists a, mean_ints (field_values field blocks) = Ok a /\ v = Some a
  else v = None.

(** The first element of [x :: t] whose key is greatest. *)
Definition first_max {A} (key : A -> nat) (x : A) (t : list A) : A :=
  fold_left (fun best y => if key best <? key y then y else best) t x.

(** The tag that wins the vote of the blocks. *)
Definition winner (rt : runtime) (blocks : list Block.t) : str :=
  match set_iter rt (votes blocks) with
  | [] => []
  | x :: t => first_max (count (votes blocks)) x t
  end.

(** What the summary holds of the profiler blocks, when it is there. *)
Definition profiler_fields (rt : runtime) (blocks : list Block.t)
  (s : Summary.t) : Prop :=
  match blocks with
  | [] =>
      Summary.cycles_avg s = None /\ Summary.exec_pct_avg s = None
      /\ Summary.psram_bw_avg s = None /\ Summary.bottleneck s = None
      /\ Summary.profiler_count s = None
  | _ :: _ =>
      average_of Block.total_cycles blocks (Summary.cycles_avg s)
      /\ average_of Block.exec_pct blocks (Summary.exec_pct_avg s)
      /\ average_of Block.psram_total_kbps blocks (Summary.psram_bw_avg s)
      /\ Summary.bottleneck s = Some (winner rt blocks)
      /\ Summary.profiler_count s = Some (length blocks)
  end.

(** [s.split(sep)] for a separator of one character: what reading the raw
    capture back and splitting it at the line feeds gives. *)
Fixpoint split_on (sep : ascii) (s : str) : list str :=
  match s with
  | [] => [[]]
  | c :: t =>
      if Ascii.eqb c sep then [] :: split_on sep t
      else match split_on sep t with
           | x :: r => (c :: x) :: r
           | [] => [[c]]
           end
  end.

(** A line that opens a block, and a line that closes one when a block is
    open. *)
Definition opening (line : str) : bool := has_start line.
Definition closing (line : str) : bool := negb (has_start line) && has_end line.

(** The first option when it holds a value, else the second. *)
Definition or_else {A} (o fallback : option A) : option A :=
  match o with
  | Some v => Some v
  | None => fallback
  end.

(** Two states of the loop of [extract_metrics] that differ at most in
    the samples gathered. *)
Definition same_blocks (st st' : scan) : Prop :=
  sc_blocks st = sc_blocks st' /\ current_block st = current_block st'
  /\ in_profiler_block st = in_profiler_block st'.

(** Two results that raise the same exception, or return states with the
    same blocks. *)
Definition same_outcome (r r' : result scan) : Prop :=
  match r, r' with
  | Ok st, Ok st' => same_blocks st st'
  | Raise e, Raise e' => e = e'
  | _, _ => False
  end.

(** The computation returns. *)
Definition returns {A} (r : result A) : bool :=
  match r with
  | Ok _ => true
  | Raise _ => false
  end.

(** The state in which the process starts, and a state with more texts
    printed. *)
Definition start (w : Main.world) : IO.state :=
  {| IO.console := []; IO.files := Main.files w |}.

Definition printed (out : list str) (st : IO.state) : IO.state :=
  {| IO.console := IO.console st ++ out; IO.files := IO.files st |}.

(** The computation prints [out], writes nothing and ends as [r] says,
    whatever was printed and written before. *)
Definition prints {A} (c : io A) (out : list str) (r : result A) : Prop :=
  forall st, c st = (printed out st, r).

(** A computation that only prints does so whatever came before: it
    prints some texts and ends in some way. *)
Definition printer {A} (c : io A) : Prop := exists out r, prints c out r.

(** The report of [print_summary]: the texts it prints, and whether it
    returns. *)
Definition report (summary : Summary.t) : list str * result unit :=
  let (st, r) := print_summary summary {| IO.console := []; IO.files := [] |} in
  (IO.console st, r).

(** [format] finds a float for the average. *)
Definition formattable (v : option num) : bool :=
  match v with
  | Some x => returns (format_f 0 x)
  | None => true
  end.

(** The note on the port. *)
Definition note (a : Main.args) (p : str) : list str :=
  if str_eqb p (Main.port a) then []
  else ["Note: Using " ++ p ++ " instead of " ++ Main.port a].

(** What a run does with the summary: the report, then the two savers
    unless saving is switched off. *)
Definition reporting (a : Main.args) (w : Main.world) (lines : list str)
  (summary : Summary.t) : io unit :=
  print_summary summary ;;;
  (if negb (Main.no_save a) then
     save_raw_capture (Main.filesystem w) (Main.project_root w) lines
       (Main.label a) (Main.timestamp w) ;;;
     append_to_tracking_doc (Main.filesystem w) (Main.project_root w)
       (Main.date_str w) summary (Main.label a)
   else ret tt).

(** The paths of the raw capture and of the tracking document. *)
Definition capture_path (project_root label timestamp : str) : str :=
  path_join (path_join project_root
               ["docs" : str; "performance_captures" : str])
            [timestamp ++ "_" ++ underscores label ++ ".txt"].

Definition doc_path (project_root : str) : str :=
  path_join project_root ["docs" : str; "PERFORMANCE_TRACKING.md" : str].

(** The exception is not the one of [sys.exit]. *)
Definition is_error (e : exn) : bool :=
  match e with
  | SystemExit _ => false
  | _ => true
  end.

(** The value a computation returns, [d] when it raises. *)
Definition value {A} (d : A) (r : result A) : A :=
  match r with
  | Ok a => a
  | Raise _ => d
  end.

(** The text has no line feed. *)
Definition one_line (s : str) : Prop := ~ In "010"%char s.

(** The number of line feeds of a text. *)
Definition line_feeds (s : str) : nat := count_occ ascii_dec s "010"%char.

(** The integer is a float: binary64 holds it without rounding. *)
Definition exact_int (z : Z) : bool :=
  F64.number (F64.Finite (z * 2 ^ 1074)).

(** [lo <= a <= hi], for an average of either kind. *)
Definition within (lo hi : Z) (a : num) : Prop :=
  match a with
  | Int z => (lo <= z <= hi)%Z
  | Float x =>
      le (F64.Finite (lo * 2 ^ 1074)) x /\ le x (F64.Finite (hi * 2 ^ 1074))
  end.

(** The computation raises nothing, or an exception other than the one of
    [sys.exit]. *)
Definition no_exit {A} (r : result A) : Prop :=
  forall e, r = Raise e -> is_error e = true.

(** A runtime whose [stdev], and a world whose capture and whose file
    system, raise no exception that is the one of [sys.exit]. *)
Definition plain_runtime (rt : runtime) : Prop :=
  forall l, no_exit (stdev rt l).

Definition plain_world (w : Main.world) : Prop :=
  (forall p d, no_exit (Main.capture_serial w p d))
  /\ (forall path e,
         makedirs_error (Main.filesystem w) path = Some e ->
         is_error e = true)
  /\ (forall path e,
         open_error (Main.filesystem w) path = Some e -> is_error e = true).

(** Runs of [append_to_tracking_doc] one after the other, each with its
    date, its summary and its label; a run that raises ends them. *)
Fixpoint append_all (fs : filesystem) (project_root : str)
  (runs : list (str * Summary.t * str)) : io unit :=
  match runs with
  | [] => ret tt
  | (date_str, summary, label) :: rest =>
      append_to_tracking_doc fs project_root date_str summary label ;;;
      append_all fs project_root rest
  end.

(** The content of the tracking document that a row is added to: the
    header when there is no document. *)
Definition ledger (project_root : str) (files : list (str * str)) : str :=
  match IO.read (doc_path project_root) files with
  | Some content => content
  | None => header
  end.

(** A run whose date, label, bottleneck and status have no line feed. *)
Definition tidy (r : str * Summary.t * str) : Prop :=
  one_line (fst (fst r)) /\ one_line (snd r)
  /\ one_line (get (Summary.bottleneck (snd (fst r))) na)
  /\ one_line (get (Summary.wifi_status (snd (fst r))) ("Unknown" : str)).

(** ** Sample inputs *)

Module Sample.

(** A block with the cycle breakdown [fetch=14 (11%) exec=109 (89%)
    total=123] only, and a block with a tag only. *)
Definition block_a : Block.t :=
  {| Block.fetch_cycles := Some 14%Z; Block.fetch_pct := Some 11%Z;
     Block.exec_cycles := Some 109%Z; Block.exec_pct := Some 89%Z;
     Block.total_cycles := Some 123%Z; Block.psram_read_kbps := None;
     Block.psram_write_kbps := None; Block.psram_total_kbps := None;
     Block.bottleneck := None |}.

Definition block_b : Block.t := Block.set_bottleneck Block.empty "PSRAM".




Definition one_sample : metrics :=
  {| mips_values := [decimal "2" "07"]; profiler_blocks := [];
     wifi_connected := true; wifi_error := false |}.

Definition both_markers : list str :=
  ["WiFi connected, IP 192.168.1.20" : str;
   "ASSERT Failed: wifi.c:120" : str].

Definition ips_line : str :=
  "[IPS] 2074192 instructions/sec (2.07 MIPS), total: 132120000".

Definition capture : list str :=
  [ips_line;
   "========== CPU PROFILER ==========" : str;
   "Cycles/instr: fetch=14 (11%) exec=109 (89%) total=123" : str;
   "Cycles/instr: fetch=15 (12%) exec=110 (88%) total=125" : str;
   "PSRAM bandwidth: read=3204KB/s write=2122KB/s total=5327KB/s" : str;
   ">>> BOTTLENECK: CPU" : str;
   "==================================" : str;
   "[IPS] 2100000 instructions/sec (2.10 MIPS), total: 134220000" : str;
   "WiFi connected" : str].

(** The lines of a profiler block with its three sub-patterns, the cycle
    breakdown printed twice; and lines with none of them. *)
Definition block_lines : list str :=
  ["Cycles/instr: fetch=14 (11%) exec=109 (89%) total=123" : str;
   "Cycles/instr: fetch=15 (12%) exec=110 (88%) total=125" : str;
   "PSRAM bandwidth: read=3204KB/s write=2122KB/s total=5327KB/s" : str;
   ">>> BOTTLENECK: CPU" : str].

Definition silent_lines : list str :=
  ["Instructions: 132120000" : str; "Cycles/instr: fetch=14 exec=109" : str].

Definition args : Main.args :=
  {| Main.duration := 60%Z; Main.label := "baseline run";
     Main.port := "/dev/cu.usbmodem11401"; Main.no_save := false |}.

(** A file system that refuses nothing, and one that lets no file be
    opened. *)
Definition disk : filesystem :=
  {| makedirs_error := fun _ => None; open_error := fun _ => None |}.

Definition read_only : filesystem :=
  {| makedirs_error := fun _ => None; open_error := fun _ => Some OSError |}.

(** A world in which the last backup port opens and gives [lines]. *)
Definition world (lines : list str) : Main.world :=
  {| Main.opens := fun p => str_eqb p "/dev/ttyUSB0";
     Main.capture_serial := fun _ _ => Ok lines;
     Main.timestamp := "20260105_101500";
     Main.date_str := "2026-01-05 10:15";
     Main.project_root := "/home/dev/ESP32-BasiliskII";
     Main.files := [];
     Main.filesystem := disk |}.

Definition failing_capture : list str :=
  capture ++ ["assert failed: xQueueSemaphoreTake queue.c:1709" : str].

(** A cycle breakdown whose fetch count has 4301 digits, and a capture
    with it inside a profiler block. *)
Definition overlong_line : str :=
  "Cycles/instr: fetch=" ++ repeat "1"%char 4301
  ++ " (11%) exec=109 (89%) total=123".

Definition overlong_capture : list str :=
  [profiler_start; overlong_line; profiler_end].

Definition one_block : metrics :=
  {| mips_values := [decimal "2" "07"; decimal "2" "10"];
     profiler_blocks := [block_a];
     wifi_connected := true; wifi_error := false |}.




(** Two blocks whose totals are 10^400 and 10^400 + 1: their mean is not
    whole and is beyond the finite floats. *)
Definition wide_pair : metrics :=
  {| mips_values := [];
     profiler_blocks :=
       [Block.set_total_cycles Block.empty (10 ^ 400)%Z;
        Block.set_total_cycles Block.empty (10 ^ 400 + 1)%Z];
     wifi_connected := true; wifi_error := true |}.

(** A reading of 401 digits, which [float] turns into [inf]. *)
Definition huge_reading : str :=
  "[IPS] (1" ++ repeat "0"%char 400 ++ " MIPS)".

Definition huge_samples : metrics :=
  {| mips_values := [F64.Infinity; decimal "1" "5"]; profiler_blocks := [];
     wifi_connected := false; wifi_error := false |}.

(** A label with a slash, and a file system without the directory the
    slash asks for. *)
Definition slash_args : Main.args :=
  {| Main.duration := 60%Z; Main.label := "before/after";
     Main.port := "/dev/ttyUSB0"; Main.no_save := false |}.

Definition slash_world (lines : list str) : Main.world :=
  {| Main.opens := fun p => str_eqb p "/dev/ttyUSB0";
     Main.capture_serial := fun _ _ => Ok lines;
     Main.timestamp := "20260105_101500";
     Main.date_str := "2026-01-05 10:15";
     Main.project_root := "/home/dev/ESP32-BasiliskII";
     Main.files := [];
     Main.filesystem :=
       {| makedirs_error := fun _ => None;
          open_error := fun path =>
            if contains "before/after" path then Some FileNotFoundError
            else None |} |}.

End Sample.

(** * Properties *)

(** ** The exception monad and the loops *)

Lemma bind_Ok {A B} (c : result A) (k : A -> result B) (b : B) :
  Py.bind c k = Ok b -> exists a, c = Ok a /\ k a = Ok b.
Proof.
  destruct c as [a|e]; simpl; intros H; [eauto | discriminate].
Qed.

Lemma for_each_app {S X} (body : S -> X -> result S) (l1 l2 : list X) (st : S) :
  for_each body (l1 ++ l2) st
  = Py.bind (for_each body l1 st) (for_each body l2).
Proof.
  revert st; induction l1 as [|x l1 IH]; intros st; simpl; [reflexivity|].
  destruct (body st x) as [st'|e]; simpl; [apply IH | reflexivity].
Qed.

(** ** Substrings *)

Lemma startswith_spec (s p : str) :
  startswith s p = true <-> exists post, s = p ++ post.
Proof.
  revert s; induction p as [|c p IH]; intros [|d s]; simpl.
  - split; [exists []; reflexivity | reflexivity].
  - split; [eauto | reflexivity].
  - split; [discriminate | intros (post & H); discriminate].
  - rewrite andb_true_iff, IH, Ascii.eqb_eq. split.
    + intros (-> & post & ->); eauto.
    + intros (post & H); injection H as -> ->; eauto.
Qed.

Lemma contains_spec (needle hay : str) :
  contains needle hay = true <-> exists pre post, hay = pre ++ needle ++ post.
Proof.
  induction hay as [|c hay IH]; cbn [contains].
  - rewrite orb_false_r, startswith_spec. split.
    + intros (post & ->); exists [], post; reflexivity.
    + intros (pre & post & H). destruct pre; [simpl in H; eauto|discriminate].
  - rewrite orb_true_iff, startswith_spec, IH. split.
    + intros [(post & ->) | (pre & post & ->)].
      * exists [], post; reflexivity.
      * exists (c :: pre), post; reflexivity.
    + intros (pre & post & H). destruct pre as [|d pre]; simpl in H.
      * left; eauto.
      * right; injection H as -> ->; eauto.
Qed.

(** ** The matcher answers only with matches of the pattern *)

Lemma one_sound {A} (p : ascii -> bool) (s : str) (k : str -> option A) (x : A) :
  one p s k = Some x -> exists c s', s = c :: s' /\ p c = true /\ k s' = Some x.
Proof.
  destruct s as [|c s]; simpl; [discriminate|].
  destruct (p c) eqn:E; [eauto | discriminate].
Qed.

Lemma many_sound {A} (p : ascii -> bool) (s : str) (k : str -> option A) (x : A) :
  many p s k = Some x ->
  exists s1 s2, s = s1 ++ s2 /\ Forall (fun c => p c = true) s1 /\ k s2 = Some x.
Proof.
  induction s as [|c s IH]; simpl; intros H.
  - exists [], []; auto.
  - destruct (p c) eqn:E.
    + destruct (many p s k) as [y|] eqn:M.
      * injection H as ->. destruct (IH eq_refl) as (s1 & s2 & -> & F & K).
        exists (c :: s1), s2; auto.
      * exists [], (c :: s); auto.
    + exists [], (c :: s); auto.
Qed.

Lemma consumed_app (s1 s2 : str) : consumed (s1 ++ s2) s2 = s1.
Proof.
  unfold consumed. rewrite length_app, Nat.add_sub.
  rewrite firstn_app, Nat.sub_diag, firstn_all; simpl. apply app_nil_r.
Qed.

Lemma run_sound {A} (r : regex) :
  forall (s : str) (caps : list str) (k : str -> list str -> option A) (x : A),
    run r s caps k = Some x ->
    exists s1 s2 cs,
      s = s1 ++ s2 /\ matches r s1 cs /\ k s2 (caps ++ cs) = Some x.
Proof.
  induction r as [|a|a|a|a|r1 IH1 r2 IH2|r IH]; intros s caps k x H; simpl in H.
  - exists [], s, []; rewrite app_nil_r; auto using m_eps.
  - apply one_sound in H as (c & s' & -> & T & K).
    exists [c], s', []; rewrite app_nil_r; auto using m_one.
  - apply many_sound in H as (s1 & s2 & -> & F & K).
    exists s1, s2, []; rewrite app_nil_r; auto using m_star.
  - apply one_sound in H as (c & s' & -> & T & K).
    apply many_sound in K as (s1 & s2 & -> & F & K).
    exists (c :: s1), s2, []; rewrite app_nil_r; auto using m_plus.
  - destruct (one (test a) s (fun s' => k s' caps)) as [y|] eqn:O.
    + injection H as ->. apply one_sound in O as (c & s' & -> & T & K).
      exists [c], s', []; rewrite app_nil_r; auto using m_opt_some.
    + exists [], s, []; rewrite app_nil_r; auto using m_opt_none.
  - apply IH1 in H as (s1 & s2 & c1 & -> & M1 & H).
    apply IH2 in H as (s3 & s4 & c2 & -> & M2 & H).
    exists (s1 ++ s3), s4, (c1 ++ c2).
    rewrite <- !app_assoc in *; auto using m_cat.
  - apply IH in H as (s1 & s2 & cs & -> & M & H).
    rewrite consumed_app, <- app_assoc in H.
    exists s1, s2, (cs ++ [s1]); auto using m_group.
Qed.

Lemma match_here_sound (r : regex) (s : str) (caps : list str) :
  match_here r s = Some caps ->
  exists s1 s2, s = s1 ++ s2 /\ matches r s1 caps.
Proof.
  intros H; apply run_sound in H as (s1 & s2 & cs & -> & M & H).
  injection H as <-; eauto.
Qed.

(** [search] answers with the match at the first position that has one. *)
Lemma search_leftmost (r : regex) (line : str) (caps : list str) :
  search r line = Some caps <->
  exists pre rest,
    line = pre ++ rest /\ match_here r rest = Some caps
    /\ forall p1 p2, pre = p1 ++ p2 -> p2 <> [] ->
         match_here r (p2 ++ rest) = None.
Proof.
  split.
  - induction line as [|c line IH]; simpl; intros H.
    + destruct (match_here r []) eqn:E; [|discriminate]. injection H as ->.
      exists [], []; repeat split; auto.
      intros p1 p2 E'; destruct p1, p2; try discriminate; congruence.
    + destruct (match_here r (c :: line)) eqn:E.
      * injection H as ->. exists [], (c :: line); repeat split; auto.
        intros p1 p2 E'; destruct p1, p2; try discriminate; congruence.
      * destruct (IH H) as (pre & rest & -> & M & L).
        exists (c :: pre), rest; repeat split; auto.
        intros [|d p1] p2 E' N; simpl in E'.
        -- subst p2; exact E.
        -- injection E' as -> ->; eauto.
  - intros (pre & rest & -> & M & L).
    induction pre as [|c pre IH]; simpl.
    + destruct rest; simpl; rewrite M; reflexivity.
    + assert (E : match_here r (c :: pre ++ rest) = None)
        by (apply (L [] (c :: pre) eq_refl); discriminate).
      rewrite E. apply IH. intros p1 p2 -> N. apply (L (c :: p1) p2 eq_refl N).
Qed.

Lemma search_None (r : regex) (line : str) :
  search r line = None <->
  forall pre rest, line = pre ++ rest -> match_here r rest = None.
Proof.
  split.
  - induction line as [|c line IH]; simpl; intros H pre rest E.
    + destruct (match_here r []) eqn:M; [discriminate|].
      destruct pre, rest; try discriminate; assumption.
    + destruct (match_here r (c :: line)) eqn:M; [discriminate|].
      destruct pre as [|d pre]; simpl in E.
      * subst rest; assumption.
      * injection E as -> ->; eauto.
  - intros H. induction line as [|c line IH]; simpl.
    + rewrite (H [] [] eq_refl); reflexivity.
    + rewrite (H [] (c :: line) eq_refl).
      apply IH; intros pre rest ->; apply (H (c :: pre) rest eq_refl).
Qed.

Lemma search_occurs (r : regex) (line : str) (caps : list str) :
  search r line = Some caps -> exists pre, occurs_at r line pre caps.
Proof.
  intros H; apply search_leftmost in H as (pre & rest & -> & M & _).
  apply match_here_sound in M as (s1 & s2 & -> & M).
  exists pre, s1, s2; auto.
Qed.

(** *** The groups of a match *)

Lemma matches_groups (r : regex) (s : str) (caps : list str) :
  matches r s caps ->
  Forall2 (fun body c => exists cs, matches body c cs) (groups r) caps.
Proof.
  induction 1; simpl; try constructor.
  - apply Forall2_app; assumption.
  - apply Forall2_app; [assumption|]. constructor; [eauto | constructor].
Qed.

Lemma matches_caps_length (r : regex) (s : str) (caps : list str) :
  matches r s caps -> Forall (fun c => length c <= length s) caps.
Proof.
  induction 1 as [| | | | | |r1 r2 s1 s2 c1 c2 M1 IH1 M2 IH2|r s c M IH];
    try constructor.
  - apply Forall_app; split;
      (eapply Forall_impl; [|eassumption]); intros g Hg;
      cbv beta in Hg; rewrite length_app; lia.
  - apply Forall_app; split; [assumption | constructor; auto].
Qed.

Lemma matches_plus_digit (c : str) (cs : list str) :
  matches (Plus Digit) c cs -> digit_run c.
Proof.
  inversion 1; subst; split; [discriminate | constructor; assumption].
Qed.

(** ** [int] and [float] on the groups of the script *)

Lemma all_digits_Forall (s : str) :
  all_digits s = true <-> Forall (fun c => isdigit c = true) s.
Proof.
  unfold all_digits. rewrite forallb_forall, Forall_forall. reflexivity.
Qed.

Lemma int_digit_run (rt : runtime) (g : str) :
  digit_run g ->
  int rt g = if (0 <? int_max_str_digits rt)
                && (int_max_str_digits rt <? length g)
             then Raise ValueError else Ok (digits_value g).
Proof.
  intros (N & D). apply all_digits_Forall in D.
  destruct g as [|c g]; [congruence|]. unfold int. rewrite D. reflexivity.
Qed.

Lemma int_within (rt : runtime) (g line : str) :
  digit_run g -> length g <= length line -> fits rt line = true ->
  int rt g = Ok (digits_value g).
Proof.
  intros D L F. rewrite (int_digit_run rt g D).
  unfold fits in F. apply orb_true_iff in F as [F|F].
  - apply Nat.eqb_eq in F. rewrite F. reflexivity.
  - apply Nat.leb_le in F.
    replace (int_max_str_digits rt <? length g) with false
      by (symmetry; apply Nat.ltb_ge; lia).
    rewrite andb_false_r. reflexivity.
Qed.

(** The groups of a successful search: one text per group of the pattern,
    each a match of the body of its group and a piece of the line. *)
Lemma search_groups (r : regex) (line : str) (m : list str) :
  search r line = Some m ->
  Forall2 (fun body c => (exists cs, matches body c cs)
                         /\ length c <= length line) (groups r) m.
Proof.
  intros H. apply search_occurs in H as (pre & s & post & -> & M).
  pose proof (matches_groups _ _ _ M) as G.
  pose proof (matches_caps_length _ _ _ M) as L.
  clear M. revert L. induction G as [|body c bodies cs B G IH]; intros L.
  - constructor.
  - inversion L as [|? ? Lc Lcs]; subst. constructor; [|auto].
    split; [assumption|]. rewrite !length_app. lia.
Qed.

Ltac split_groups H :=
  repeat match type of H with
         | Forall2 _ (_ :: _) _ =>
             let g := fresh "g" in
             let m := fresh "m" in
             let Hg := fresh "Hg" in
             let Lg := fresh "Lg" in
             inversion H as [|? g ? m [[? Hg] Lg] H']; subst; clear H;
             rename H' into H
         | Forall2 _ [] _ => inversion H; subst; clear H
         end.

Lemma search_cycles_groups (line : str) (m : list str) :
  search cycles_re line = Some m ->
  exists g1 g2 g3 g4 g5,
    m = [g1; g2; g3; g4; g5]
    /\ Forall (fun g => digit_run g /\ length g <= length line) m.
Proof.
  intros H. apply search_groups in H.
  change (groups cycles_re)
    with [Plus Digit; Plus Digit; Plus Digit; Plus Digit; Plus Digit] in H.
  split_groups H. do 5 eexists. split; [reflexivity|].
  repeat (apply Forall_cons;
          [split; [eapply matches_plus_digit; eassumption | assumption]|]).
  constructor.
Qed.

Lemma search_bw_groups (line : str) (m : list str) :
  search bw_re line = Some m ->
  exists g1 g2 g3,
    m = [g1; g2; g3]
    /\ Forall (fun g => digit_run g /\ length g <= length line) m.
Proof.
  intros H. apply search_groups in H.
  change (groups bw_re) with [Plus Digit; Plus Digit; Plus Digit] in H.
  split_groups H. do 3 eexists. split; [reflexivity|].
  repeat (apply Forall_cons;
          [split; [eapply matches_plus_digit; eassumption | assumption]|]).
  constructor.
Qed.

Lemma int_Ok (rt : runtime) (g : str) (v : Z) :
  digit_run g -> int rt g = Ok v -> v = digits_value g.
Proof.
  intros D H. rewrite (int_digit_run rt g D) in H.
  destruct (_ && _); [discriminate | congruence].
Qed.

(** ** [parse_profiler_block] *)

Ltac step_int H :=
  match type of H with
  | context [int ?rt ?g] =>
      let E := fresh "E" in
      destruct (int rt g) eqn:E; simpl in H; [|discriminate];
      apply int_Ok in E; [subst | assumption]
  end.

Lemma parse_cycles_Ok (rt : runtime) (b b' : Block.t) (line : str) :
  parse_cycles rt b line = Ok b' ->
  b' = match search cycles_re line with
       | Some m => write_cycles m b
       | None => b
       end.
Proof.
  unfold parse_cycles. destruct (search cycles_re line) as [m|] eqn:S.
  - apply search_cycles_groups in S as (g1 & g2 & g3 & g4 & g5 & -> & F).
    inversion F as [|? ? [D1 _] F1]; inversion F1 as [|? ? [D2 _] F2];
      inversion F2 as [|? ? [D3 _] F3]; inversion F3 as [|? ? [D4 _] F4];
      inversion F4 as [|? ? [D5 _] _]; subst.
    simpl. intros H. do 5 step_int H. congruence.
  - congruence.
Qed.

Lemma parse_cycles_fits (rt : runtime) (b : Block.t) (line : str) :
  fits rt line = true ->
  parse_cycles rt b line
  = Ok match search cycles_re line with
       | Some m => write_cycles m b
       | None => b
       end.
Proof.
  intros Hf. unfold parse_cycles.
  destruct (search cycles_re line) as [m|] eqn:S; [|reflexivity].
  apply search_cycles_groups in S as (g1 & g2 & g3 & g4 & g5 & -> & F).
  inversion F as [|? ? [D1 L1] F1]; inversion F1 as [|? ? [D2 L2] F2];
    inversion F2 as [|? ? [D3 L3] F3]; inversion F3 as [|? ? [D4 L4] F4];
    inversion F4 as [|? ? [D5 L5] _]; subst.
  simpl.
  rewrite (int_within rt g1 line), (int_within rt g2 line),
    (int_within rt g3 line), (int_within rt g4 line),
    (int_within rt g5 line) by assumption.
  reflexivity.
Qed.

Lemma parse_bw_Ok (rt : runtime) (b b' : Block.t) (line : str) :
  parse_bw rt b line = Ok b' ->
  b' = match search bw_re line with
       | Some m => write_bw m b
       | None => b
       end.
Proof.
  unfold parse_bw. destruct (search bw_re line) as [m|] eqn:S.
  - apply search_bw_groups in S as (g1 & g2 & g3 & -> & F).
    inversion F as [|? ? [D1 _] F1]; inversion F1 as [|? ? [D2 _] F2];
      inversion F2 as [|? ? [D3 _] _]; subst.
    simpl. intros H. do 3 step_int H. congruence.
  - congruence.
Qed.

Lemma parse_bw_fits (rt : runtime) (b : Block.t) (line : str) :
  fits rt line = true ->
  parse_bw rt b line
  = Ok match search bw_re line with
       | Some m => write_bw m b
       | None => b
       end.
Proof.
  intros Hf. unfold parse_bw.
  destruct (search bw_re line) as [m|] eqn:S; [|reflexivity].
  apply search_bw_groups in S as (g1 & g2 & g3 & -> & F).
  inversion F as [|? ? [D1 L1] F1]; inversion F1 as [|? ? [D2 L2] F2];
    inversion F2 as [|? ? [D3 L3] _]; subst.
  simpl.
  rewrite (int_within rt g1 line), (int_within rt g2 line),
    (int_within rt g3 line) by assumption.
  reflexivity.
Qed.

Lemma parse_profiler_line_Ok (rt : runtime) (b b' : Block.t) (line : str) :
  parse_profiler_line rt b line = Ok b' -> b' = read_line b line.
Proof.
  unfold parse_profiler_line, read_line. intros H.
  apply bind_Ok in H as (b1 & H1 & H). apply bind_Ok in H as (b2 & H2 & H).
  apply parse_cycles_Ok in H1. apply parse_bw_Ok in H2.
  injection H as <-. subst b2 b1. reflexivity.
Qed.

Lemma parse_profiler_line_fits (rt : runtime) (b : Block.t) (line : str) :
  fits rt line = true -> parse_profiler_line rt b line = Ok (read_line b line).
Proof.
  intros Hf. unfold parse_profiler_line, read_line.
  rewrite parse_cycles_fits by assumption. simpl.
  rewrite parse_bw_fits by assumption. reflexivity.
Qed.

(** When the loop of [parse_profiler_block] returns, it returns the block
    read off the lines. *)
Lemma parse_profiler_block_Ok (rt : runtime) (lines : list str) (b : Block.t) :
  parse_profiler_block rt lines = Ok b -> b = read_block lines.
Proof.
  unfold parse_profiler_block, read_block. generalize Block.empty.
  induction lines as [|line lines IH]; simpl; intros b0 H.
  - congruence.
  - apply bind_Ok in H as (b1 & H1 & H).
    apply parse_profiler_line_Ok in H1. subst b1. auto.
Qed.

(** It returns when every line fits the cap of the runtime. *)
Lemma parse_profiler_block_fits (rt : runtime) (lines : list str) :
  forallb (fits rt) lines = true ->
  parse_profiler_block rt lines = Ok (read_block lines).
Proof.
  unfold parse_profiler_block, read_block. generalize Block.empty.
  induction lines as [|line lines IH]; simpl; intros b0 H.
  - reflexivity.
  - apply andb_true_iff in H as (H1 & H).
    rewrite parse_profiler_line_fits by assumption. simpl. auto.
Qed.

(** *** What a line does to the block *)

Lemma last_some_snoc {A B} (f : A -> option B) (l : list A) (x : A) :
  last_some f (l ++ [x])
  = match f x with Some y => Some y | None => last_some f l end.
Proof. unfold last_some. rewrite fold_left_app. reflexivity. Qed.

(** A field that each step either rewrites from the answer of [f] or
    leaves alone holds, after the loop, what the last answer wrote. *)
Lemma fold_left_last {A B Y V} (step : B -> A -> B) (f : A -> option Y)
  (g : Y -> option V) (proj : B -> option V) :
  (forall b x, proj (step b x)
               = match f x with Some y => g y | None => proj b end) ->
  forall l b0,
    proj (fold_left step l b0)
    = match last_some f l with Some y => g y | None => proj b0 end.
Proof.
  intros Hstep l b0. induction l as [|x l IH] using rev_ind.
  - reflexivity.
  - rewrite fold_left_app, last_some_snoc. simpl. rewrite Hstep.
    destruct (f x); [reflexivity | exact IH].
Qed.

(** The last answer comes from a line of the list, after which no line
    answers. *)
Lemma last_some_Some {A B} (f : A -> option B) (l : list A) (y : B) :
  last_some f l = Some y <->
  exists l1 x l2,
    l = l1 ++ x :: l2 /\ f x = Some y /\ Forall (fun z => f z = None) l2.
Proof.
  induction l as [|x l IH] using rev_ind.
  - split; [discriminate | intros (l1 & x & l2 & E & _); destruct l1; discriminate].
  - rewrite last_some_snoc. destruct (f x) as [y'|] eqn:E.
    + split.
      * intros H; injection H as ->. exists l, x, []; auto.
      * intros (l1 & z & l2 & E' & Fz & N).
        destruct l2 as [|w l2] using rev_ind.
        -- apply app_inj_tail in E' as (_ & ->). congruence.
        -- clear IHl2. rewrite app_comm_cons, app_assoc in E'.
           apply app_inj_tail in E' as (_ & ->).
           apply Forall_app in N as (_ & N). inversion N; congruence.
    + rewrite IH. split.
      * intros (l1 & z & l2 & -> & Fz & N). exists l1, z, (l2 ++ [x]).
        rewrite <- app_assoc. repeat split; auto.
        apply Forall_app; auto.
      * intros (l1 & z & l2 & E' & Fz & N).
        destruct l2 as [|w l2] using rev_ind.
        -- apply app_inj_tail in E' as (_ & ->). congruence.
        -- clear IHl2. rewrite app_comm_cons, app_assoc in E'.
           apply app_inj_tail in E' as (-> & ->).
           apply Forall_app in N as (N & _). exists l1, z, l2; auto.
Qed.

Ltac read_line_cases line :=
  unfold read_line, parse_tag;
  let S1 := fresh "S" in
  let S2 := fresh "S" in
  destruct (search cycles_re line) as [?m|] eqn:S1;
  [apply search_cycles_groups in S1 as (? & ? & ? & ? & ? & -> & _)|];
  (destruct (search bw_re line) as [?m|] eqn:S2;
   [apply search_bw_groups in S2 as (? & ? & ? & -> & _)|]);
  destruct (contains "BOTTLENECK: CPU" line);
  destruct (contains "BOTTLENECK: PSRAM" line).

Lemma read_line_cycles (b : Block.t) (line : str) :
  let keep (proj : Block.t -> option Z) i :=
    proj (read_line b line)
    = match search cycles_re line with
      | Some m => option_map digits_value (nth_error m i)
      | None => proj b
      end in
  keep Block.fetch_cycles 0 /\ keep Block.fetch_pct 1
  /\ keep Block.exec_cycles 2 /\ keep Block.exec_pct 3
  /\ keep Block.total_cycles 4.
Proof.
  cbv zeta. read_line_cases line; repeat split; reflexivity.
Qed.

Lemma read_line_bw (b : Block.t) (line : str) :
  let keep (proj : Block.t -> option Z) i :=
    proj (read_line b line)
    = match search bw_re line with
      | Some m => option_map digits_value (nth_error m i)
      | None => proj b
      end in
  keep Block.psram_read_kbps 0 /\ keep Block.psram_write_kbps 1
  /\ keep Block.psram_total_kbps 2.
Proof.
  cbv zeta. read_line_cases line; repeat split; reflexivity.
Qed.

Lemma read_line_tag (b : Block.t) (line : str) :
  Block.bottleneck (read_line b line)
  = match tag_of line with
    | Some t => Some t
    | None => Block.bottleneck b
    end.
Proof.
  unfold tag_of. read_line_cases line; reflexivity.
Qed.

Lemma truthy_read_line (b : Block.t) (line : str) :
  Block.truthy (read_line b line) = Block.truthy b || recognized line.
Proof.
  unfold recognized, tag_of.
  read_line_cases line; unfold Block.truthy; simpl;
    rewrite ?orb_true_r, ?orb_false_r; reflexivity.
Qed.

Lemma truthy_read_block (lines : list str) :
  Block.truthy (read_block lines) = existsb recognized lines.
Proof.
  unfold read_block.
  induction lines as [|line lines IH] using rev_ind.
  - reflexivity.
  - rewrite fold_left_app, existsb_app. simpl.
    rewrite truthy_read_line, IH, orb_false_r. reflexivity.
Qed.

(** ** The matcher on a text of the expected shape *)

Lemma matches_lit (w s : str) (cs : list str) :
  matches (lit w) s cs -> s = w /\ cs = [].
Proof.
  revert s cs; induction w as [|c w IH]; simpl; intros s cs H.
  - inversion H; auto.
  - inversion H as [| | | | | |? ? s1 s2 c1 c2 M1 M2|]; subst.
    inversion M1 as [|? d T| | | | | |]; subst.
    apply IH in M2 as (-> & ->). simpl in T. apply Ascii.eqb_eq in T.
    subst; auto.
Qed.

Lemma many_greedy {A} (p : ascii -> bool) (ds t : str) (k : str -> option A)
  (x : A) :
  Forall (fun c => p c = true) ds -> stops p t -> k t = Some x ->
  many p (ds ++ t) k = Some x.
Proof.
  intros F St K. induction F as [|d ds Hd F IH]; simpl.
  - destruct t as [|c t]; simpl in *; [assumption|]. rewrite St; assumption.
  - rewrite Hd, IH. reflexivity.
Qed.

Lemma run_lit_app {A} (w s : str) (caps : list str)
  (k : str -> list str -> option A) :
  run (lit w) (w ++ s) caps k = k s caps.
Proof.
  induction w as [|c w IH]; simpl; [reflexivity|].
  rewrite Ascii.eqb_refl. exact IH.
Qed.

Lemma run_plus_greedy {A} (a : atom) (ds t : str) (caps : list str)
  (k : str -> list str -> option A) (x : A) :
  ds <> [] -> Forall (fun c => test a c = true) ds -> stops (test a) t ->
  k t caps = Some x -> run (Plus a) (ds ++ t) caps k = Some x.
Proof.
  intros N F St K. destruct F as [|d ds Hd F]; [congruence|]. simpl.
  rewrite Hd. apply many_greedy; assumption.
Qed.

Lemma run_star_greedy {A} (a : atom) (ds t : str) (caps : list str)
  (k : str -> list str -> option A) (x : A) :
  Forall (fun c => test a c = true) ds -> stops (test a) t ->
  k t caps = Some x -> run (Star a) (ds ++ t) caps k = Some x.
Proof. intros F St K. simpl. apply many_greedy; assumption. Qed.

Lemma run_opt_skip {A} (a : atom) (t : str) (caps : list str)
  (k : str -> list str -> option A) :
  stops (test a) t -> run (Opt a) t caps k = k t caps.
Proof.
  intros St. simpl. destruct t as [|c t]; simpl in *; [reflexivity|].
  rewrite St. reflexivity.
Qed.

Lemma run_opt_take {A} (a : atom) (c : ascii) (t : str) (caps : list str)
  (k : str -> list str -> option A) (x : A) :
  test a c = true -> k t caps = Some x ->
  run (Opt a) (c :: t) caps k = Some x.
Proof. intros T K. simpl. rewrite T, K. reflexivity. Qed.

Lemma isspace_not_digit (c : ascii) : isspace c = true -> isdigit c = false.
Proof.
  unfold isspace, isdigit. simpl. intros H.
  repeat (apply orb_true_iff in H as [H|H];
          [apply Nat.eqb_eq in H; rewrite H; reflexivity|]).
  discriminate.
Qed.

(** After a run of blanks and the unit, neither a digit nor a point nor a
    blank comes first where the run ends. *)
Lemma stops_unit (ws post : str) :
  blank_run ws ->
  stops isdigit (ws ++ "MIPS)" ++ post)
  /\ stops (test (Chr "."%char)) (ws ++ "MIPS)" ++ post)
  /\ stops isspace ("MIPS)" ++ post).
Proof.
  intros B. split; [|split].
  - destruct B as [|c ws Hc B]; [reflexivity|].
    cbn [app stops]. apply isspace_not_digit; assumption.
  - destruct B as [|c ws Hc B]; [reflexivity|].
    cbn [app stops test]. destruct (Ascii.eqb_spec "."%char c) as [<-|_];
      [discriminate Hc | reflexivity].
  - reflexivity.
Qed.

Lemma run_cat {A} (r1 r2 : regex) (s : str) (caps : list str)
  (k : str -> list str -> option A) :
  run (Cat r1 r2) s caps k = run r1 s caps (fun s1 c1 => run r2 s1 c1 k).
Proof. reflexivity. Qed.

Lemma run_group {A} (r : regex) (s : str) (caps : list str)
  (k : str -> list str -> option A) :
  run (Group r) s caps k
  = run r s caps (fun s' caps' => k s' (caps' ++ [consumed s s'])).
Proof. reflexivity. Qed.

Lemma run_eps {A} (s : str) (caps : list str)
  (k : str -> list str -> option A) :
  run Eps s caps k = k s caps.
Proof. reflexivity. Qed.

Ltac next_item :=
  cbv beta; repeat (rewrite run_cat || rewrite run_group || rewrite run_eps).

(** At the front of a throughput reading the pattern matches, and its
    group is the number. *)
Lemma match_here_reading (ip : str) (dot : bool) (fp ws post : str) :
  well_formed_reading ip dot fp ws ->
  match_here ips_re (reading_text ip dot fp ws ++ post)
  = Some [number_text ip dot fp].
Proof.
  intros ((N & D) & F & E & B).
  destruct (stops_unit ws post B) as (S1 & S2 & S3).
  unfold match_here, ips_re, reading_text, seq. cbn [fold_right].
  rewrite <- !app_assoc. rewrite run_cat, run_lit_app. next_item.
  unfold number_text. destruct dot.
  - rewrite <- !app_assoc.
    apply run_plus_greedy; [assumption | assumption | reflexivity |].
    next_item. change (("." : str) ++ ?t) with ("."%char :: t).
    apply run_opt_take; [reflexivity|]. next_item.
    apply run_star_greedy; [assumption | assumption |]. next_item.
    apply run_star_greedy; [assumption | assumption |]. next_item.
    rewrite run_lit_app.
    replace (ip ++ "."%char :: fp ++ ws ++ "MIPS)" ++ post)
      with ((ip ++ "." ++ fp) ++ ws ++ "MIPS)" ++ post)
      by (rewrite <- !app_assoc; reflexivity).
    rewrite consumed_app. reflexivity.
  - cbn [app]. rewrite app_nil_r.
    apply run_plus_greedy; [assumption | assumption | assumption |].
    next_item. rewrite run_opt_skip by assumption. next_item.
    apply (run_star_greedy Digit [] _); [constructor | assumption |].
    next_item.
    apply run_star_greedy; [assumption | assumption |]. next_item.
    rewrite run_lit_app. rewrite consumed_app. reflexivity.
Qed.

(** ** What the throughput pattern matches *)

Lemma matches_cat_inv (r1 r2 : regex) (s : str) (cs : list str) :
  matches (Cat r1 r2) s cs ->
  exists s1 s2 c1 c2,
    s = s1 ++ s2 /\ cs = c1 ++ c2 /\ matches r1 s1 c1 /\ matches r2 s2 c2.
Proof. inversion 1; subst; do 4 eexists; eauto. Qed.

Lemma matches_group_inv (r : regex) (s : str) (cs : list str) :
  matches (Group r) s cs -> exists c, cs = c ++ [s] /\ matches r s c.
Proof. inversion 1; subst; eauto. Qed.

Lemma matches_star_inv (a : atom) (s : str) (cs : list str) :
  matches (Star a) s cs -> Forall (fun c => test a c = true) s /\ cs = [].
Proof. inversion 1; subst; auto. Qed.

Lemma matches_plus_inv (a : atom) (s : str) (cs : list str) :
  matches (Plus a) s cs ->
  s <> [] /\ Forall (fun c => test a c = true) s /\ cs = [].
Proof. inversion 1; subst; repeat split; [discriminate | auto]. Qed.

Lemma matches_opt_inv (a : atom) (s : str) (cs : list str) :
  matches (Opt a) s cs ->
  (s = [] \/ exists c, s = [c] /\ test a c = true) /\ cs = [].
Proof. inversion 1; subst; split; eauto. Qed.

Lemma matches_eps_inv (s : str) (cs : list str) :
  matches Eps s cs -> s = [] /\ cs = [].
Proof. inversion 1; auto. Qed.

Lemma matches_number (g : str) (cs : list str) :
  matches (seq [Plus Digit; Opt (Chr "."%char); Star Digit]) g cs ->
  cs = []
  /\ exists ip dot fp,
       g = number_text ip dot fp /\ digit_run ip
       /\ Forall (fun c => isdigit c = true) fp /\ (dot = false -> fp = []).
Proof.
  unfold seq; cbn [fold_right]; intros H.
  apply matches_cat_inv in H as (s1 & t1 & c1 & d1 & -> & -> & H1 & H).
  apply matches_cat_inv in H as (s2 & t2 & c2 & d2 & -> & -> & H2 & H).
  apply matches_cat_inv in H as (s3 & t3 & c3 & d3 & -> & -> & H3 & H).
  apply matches_eps_inv in H as (-> & ->).
  apply matches_plus_inv in H1 as (N & D & ->).
  apply matches_opt_inv in H2 as (O & ->).
  apply matches_star_inv in H3 as (F & ->).
  split; [reflexivity|]. rewrite app_nil_r.
  destruct O as [-> | (c & -> & T)].
  - exists (s1 ++ s3), false, []. unfold number_text. rewrite app_nil_r.
    repeat split; auto.
    + destruct s1; [congruence | discriminate].
    + apply Forall_app; auto.
  - cbn [test] in T. apply Ascii.eqb_eq in T. subst c.
    exists s1, true, s3. repeat split; auto. discriminate.
Qed.

Lemma matches_ips (s : str) (cs : list str) :
  matches ips_re s cs ->
  exists ip dot fp ws,
    s = reading_text ip dot fp ws /\ well_formed_reading ip dot fp ws
    /\ cs = [number_text ip dot fp].
Proof.
  unfold ips_re. unfold seq at 1. cbn [fold_right]. intros H.
  apply matches_cat_inv in H as (s1 & t1 & c1 & d1 & -> & -> & H1 & H).
  apply matches_cat_inv in H as (s2 & t2 & c2 & d2 & -> & -> & H2 & H).
  apply matches_cat_inv in H as (s3 & t3 & c3 & d3 & -> & -> & H3 & H).
  apply matches_cat_inv in H as (s4 & t4 & c4 & d4 & -> & -> & H4 & H).
  apply matches_eps_inv in H as (-> & ->).
  apply matches_lit in H1 as (-> & ->). apply matches_lit in H4 as (-> & ->).
  apply matches_star_inv in H3 as (B & ->).
  apply matches_group_inv in H2 as (c & -> & H2).
  apply matches_number in H2 as (-> & ip & dot & fp & -> & D & F & E).
  exists ip, dot, fp, s3. unfold reading_text, well_formed_reading.
  rewrite ?app_nil_r, <- ?app_assoc. destruct D. repeat split; auto.
Qed.

(** Where the matcher succeeds, a throughput reading starts. *)
Lemma match_here_ips (s : str) (caps : list str) :
  match_here ips_re s = Some caps -> reading_at_front s.
Proof.
  intros H. apply match_here_sound in H as (s1 & s2 & -> & M).
  apply matches_ips in M as (ip & dot & fp & ws & -> & W & _).
  exists ip, dot, fp, ws, s2; auto.
Qed.

(** ** [float] on the number of a reading *)

Lemma span_app (p : ascii -> bool) (a b : str) :
  Forall (fun c => p c = true) a -> stops p b -> span p (a ++ b) = (a, b).
Proof.
  intros F St. induction F as [|c a Hc F IH]; simpl.
  - destruct b as [|c b]; simpl in *; [reflexivity|]. rewrite St; reflexivity.
  - rewrite Hc, IH. reflexivity.
Qed.

Lemma float_number (ip : str) (dot : bool) (fp : str) :
  digit_run ip -> Forall (fun c => isdigit c = true) fp ->
  (dot = false -> fp = []) ->
  float (number_text ip dot fp) = Ok (decimal ip fp).
Proof.
  intros (N & D) F E. unfold float, number_text. destruct dot.
  - rewrite span_app by (assumption || reflexivity).
    destruct ip as [|c ip]; [congruence|]. simpl.
    apply all_digits_Forall in F. rewrite F. reflexivity.
  - rewrite (E eq_refl). rewrite span_app by (assumption || exact I).
    destruct ip as [|c ip]; [congruence | reflexivity].
Qed.

(** ** [parse_ips_line] *)

Lemma parse_ips_line_search (line : str) :
  match search ips_re line with
  | Some m =>
      exists pre ip dot fp ws post,
        line = pre ++ reading_text ip dot fp ws ++ post
        /\ well_formed_reading ip dot fp ws
        /\ m = [number_text ip dot fp]
        /\ parse_ips_line line = Ok (Some (decimal ip fp))
  | None => parse_ips_line line = Ok None
  end.
Proof.
  unfold parse_ips_line. destruct (search ips_re line) as [m|] eqn:S.
  - apply search_occurs in S as (pre & s & post & -> & M).
    apply matches_ips in M as (ip & dot & fp & ws & -> & W & ->).
    exists pre, ip, dot, fp, ws, post.
    do 3 (split; [first [reflexivity | assumption]|]).
    cbn [group nth_error Py.bind]. destruct W as (D & F & E & B).
    rewrite float_number by assumption. reflexivity.
  - reflexivity.
Qed.

(** The throughput extractor returns on every line. *)
Lemma parse_ips_line_returns (line : str) :
  exists o, parse_ips_line line = Ok o.
Proof.
  pose proof (parse_ips_line_search line) as H.
  destruct (search ips_re line).
  - destruct H as (pre & ip & dot & fp & ws & post & _ & _ & _ & ->). eauto.
  - eauto.
Qed.

(** ** [extract_metrics] *)

Lemma samples_of_cases (line : str) :
  exists o, parse_ips_line line = Ok o
            /\ samples_of line = match o with Some v => [v] | None => [] end.
Proof.
  unfold samples_of. destruct (parse_ips_line_returns line) as (o & ->).
  exists o. destruct o; auto.
Qed.

(** When the body of the loop returns, it leaves [next]. *)
Lemma extract_line_Ok (rt : runtime) (st st' : scan) (line : str) :
  extract_line rt st line = Ok st' -> st' = next st line.
Proof.
  unfold extract_line, next, has_start, has_end.
  destruct (samples_of_cases line) as (o & -> & ->). cbn [Py.bind].
  assert (E : match o with Some v => sc_mips st ++ [v] | None => sc_mips st end
              = sc_mips st ++ match o with Some v => [v] | None => [] end)
    by (destruct o; [reflexivity | symmetry; apply app_nil_r]).
  rewrite E.
  destruct (contains profiler_start line); [congruence|].
  destruct (contains profiler_end line && in_profiler_block st).
  - intros H. apply bind_Ok in H as (b & Hb & H).
    apply parse_profiler_block_Ok in Hb. subst b. congruence.
  - destruct (in_profiler_block st); congruence.
Qed.

(** It returns when the lines gathered for the block fit the cap. *)
Lemma extract_line_fits (rt : runtime) (st : scan) (line : str) :
  forallb (fits rt) (current_block st) = true ->
  extract_line rt st line = Ok (next st line).
Proof.
  intros Hf. unfold extract_line, next, has_start, has_end.
  destruct (samples_of_cases line) as (o & -> & ->). cbn [Py.bind].
  assert (E : match o with Some v => sc_mips st ++ [v] | None => sc_mips st end
              = sc_mips st ++ match o with Some v => [v] | None => [] end)
    by (destruct o; [reflexivity | symmetry; apply app_nil_r]).
  rewrite E.
  destruct (contains profiler_start line); [reflexivity|].
  destruct (contains profiler_end line && in_profiler_block st).
  - rewrite parse_profiler_block_fits by assumption. reflexivity.
  - destruct (in_profiler_block st); reflexivity.
Qed.

Lemma scan_Ok (rt : runtime) (lines : list str) (st st' : scan) :
  for_each (extract_line rt) lines st = Ok st' -> st' = fold_left next lines st.
Proof.
  revert st; induction lines as [|line lines IH]; simpl; intros st H.
  - congruence.
  - apply bind_Ok in H as (st1 & H1 & H).
    apply extract_line_Ok in H1. subst st1. auto.
Qed.

Lemma next_current_fits (rt : runtime) (st : scan) (line : str) :
  fits rt line = true -> forallb (fits rt) (current_block st) = true ->
  forallb (fits rt) (current_block (next st line)) = true.
Proof.
  intros Hl Hc. unfold next.
  destruct (has_start line); [reflexivity|].
  destruct (has_end line && in_profiler_block st); [assumption|].
  destruct (in_profiler_block st); [|assumption].
  simpl. rewrite forallb_app, Hc. simpl. rewrite Hl. reflexivity.
Qed.

Lemma scan_fits (rt : runtime) (lines : list str) (st : scan) :
  forallb (fits rt) lines = true ->
  forallb (fits rt) (current_block st) = true ->
  for_each (extract_line rt) lines st = Ok (fold_left next lines st).
Proof.
  revert st; induction lines as [|line lines IH]; simpl; intros st Hl Hc.
  - reflexivity.
  - apply andb_true_iff in Hl as (H1 & Hl).
    rewrite extract_line_fits by assumption. simpl.
    apply IH; [assumption | apply next_current_fits; assumption].
Qed.

(** When [extract_metrics] returns, it returns [read_metrics]. *)
Lemma extract_metrics_Ok (rt : runtime) (lines : list str) (m : metrics) :
  extract_metrics rt lines = Ok m -> m = read_metrics lines.
Proof.
  unfold extract_metrics, read_metrics. intros H.
  apply bind_Ok in H as (st & Hst & H). apply scan_Ok in Hst. subst st.
  injection H as <-. reflexivity.
Qed.

(** It returns when every line fits the cap of the runtime on digit
    strings: always when the cap is off. *)
Lemma extract_metrics_fits (rt : runtime) (lines : list str) :
  forallb (fits rt) lines = true ->
  extract_metrics rt lines = Ok (read_metrics lines).
Proof.
  intros H. unfold extract_metrics, read_metrics.
  rewrite scan_fits by (assumption || reflexivity). reflexivity.
Qed.

(** A prefix of the capture is extracted when the capture is. *)
Lemma extract_metrics_prefix (rt : runtime) (l1 l2 : list str) (m : metrics) :
  extract_metrics rt (l1 ++ l2) = Ok m ->
  extract_metrics rt l1 = Ok (read_metrics l1).
Proof.
  unfold extract_metrics. intros H. apply bind_Ok in H as (st & Hst & _).
  rewrite for_each_app in Hst. apply bind_Ok in Hst as (st1 & H1 & _).
  rewrite H1. apply scan_Ok in H1. subst st1. reflexivity.
Qed.

Lemma next_mips (lines : list str) (st : scan) :
  sc_mips (fold_left next lines st) = sc_mips st ++ flat_map samples_of lines.
Proof.
  revert st; induction lines as [|line lines IH]; simpl; intros st.
  - symmetry; apply app_nil_r.
  - rewrite IH. rewrite app_assoc. f_equal.
    unfold next. destruct (has_start line); [reflexivity|].
    destruct (has_end line && in_profiler_block st); [reflexivity|].
    destruct (in_profiler_block st); reflexivity.
Qed.

(** ** Rounding to a float *)

Module F64Facts.

Import F64.

Local Open Scope Z_scope.


Lemma rne_floor (n d : Z) : 0 < d -> n / d <= rne n d <= n / d + 1.
Proof.
  intros D. unfold rne.
  destruct (2 * (n mod d) <? d); [lia|].
  destruct (d <? 2 * (n mod d)); [lia|].
  destruct (Z.even (n / d)); lia.
Qed.

Lemma rne_le (n d b : Z) : 0 < d -> n <= b * d -> rne n d <= b.
Proof.
  intros D H. unfold rne.
  pose proof (Z.div_mod n d ltac:(lia)) as E.
  pose proof (Z.mod_pos_bound n d D) as B.
  assert (Q : n / d <= b) by (apply Z.div_le_upper_bound; lia).
  destruct (Z.ltb_spec (2 * (n mod d)) d) as [L|L]; [exact Q|].
  assert (n / d < b) by nia.
  destruct (d <? 2 * (n mod d)); [lia|].
  destruct (Z.even (n / d)); lia.
Qed.


Lemma excess_nonneg q : 0 <= excess q.
Proof. unfold excess. lia. Qed.

Lemma excess_mono (a b : Z) : 0 <= a <= b -> excess a <= excess b.
Proof.
  intros H. unfold excess. pose proof (Z.log2_le_mono a b ltac:(lia)). lia.
Qed.

(** q < 2^(53 + excess q) *)
Lemma excess_upper (q : Z) : 0 <= q -> q < 2 ^ (53 + excess q).
Proof.
  intros H. unfold excess.
  destruct (Z.eq_dec q 0) as [->|N].
  - apply Z.pow_pos_nonneg; lia.
  - pose proof (Z.log2_spec q ltac:(lia)) as (_ & U).
    pose proof (Z.log2_nonneg q).
    eapply Z.lt_le_trans; [exact U|].
    apply Z.pow_le_mono_r; lia.
Qed.

(** when the excess is positive, 2^(52 + excess q) <= q *)
Lemma excess_lower (q : Z) : 0 < excess q -> 2 ^ (52 + excess q) <= q.
Proof.
  unfold excess. intros H.
  assert (P : 0 < q).
  { destruct (Z.lt_trichotomy q 0) as [L|[->|L]]; [|simpl in H; lia|exact L].
    rewrite Z.log2_nonpos in H by lia. lia. }
  pose proof (Z.log2_spec q P) as (L & _).
  replace (52 + Z.max 0 (Z.log2 q - 52)) with (Z.log2 q) by lia. exact L.
Qed.


Lemma pow2_pos (k : Z) : 0 <= k -> 0 < 2 ^ k.
Proof. intros. apply Z.pow_pos_nonneg; lia. Qed.

(** The significand has 53 bits at most, or is 2^53. *)
Lemma significand_bound (n d : Z) :
  0 <= n -> 0 < d -> rne n (d * 2 ^ excess (n / d)) <= 2 ^ 53.
Proof.
  intros N D. set (k := excess (n / d)).
  pose proof (excess_nonneg (n / d)) as K. fold k in K.
  pose proof (pow2_pos k K) as P.
  apply rne_le; [nia|].
  assert (Q : 0 <= n / d) by (apply Z.div_pos; lia).
  pose proof (excess_upper (n / d) Q) as U. fold k in U.
  rewrite Z.pow_add_r in U by lia.
  pose proof (Z.div_mod n d ltac:(lia)) as E.
  pose proof (Z.mod_pos_bound n d D) as B.
  nia.
Qed.

Lemma significand_nonneg (n d : Z) (k : Z) :
  0 <= n -> 0 < d -> 0 <= k -> 0 <= rne n (d * 2 ^ k).
Proof.
  intros N D K. pose proof (pow2_pos k K).
  pose proof (rne_floor n (d * 2 ^ k) ltac:(nia)) as (L & _).
  assert (0 <= n / (d * 2 ^ k)) by (apply Z.div_pos; nia). lia.
Qed.

Lemma excess_pow (a k : Z) :
  0 <= k -> 0 <= a < 2 ^ 53 -> excess (a * 2 ^ k) <= k.
Proof.
  intros K A. unfold excess.
  destruct (Z.eq_dec a 0) as [->|N]; [rewrite Z.mul_0_l; simpl; lia|].
  assert (L : Z.log2 (a * 2 ^ k) < 53 + k).
  { apply Z.log2_lt_pow2; [pose proof (pow2_pos k K); nia|].
    rewrite Z.pow_add_r by lia. pose proof (pow2_pos k K). nia. }
  lia.
Qed.

Lemma pow2_divide (j k : Z) :
  0 <= j <= k -> exists c, 2 ^ k = c * 2 ^ j /\ 0 < c.
Proof.
  intros H. exists (2 ^ (k - j)). split.
  - rewrite <- Z.pow_add_r by lia. f_equal. lia.
  - apply pow2_pos. lia.
Qed.

Lemma nearest_number (n d : Z) :
  0 <= n -> 0 < d -> number (round n d) = true.
Proof.
  intros N D. unfold round, nearest.
  set (k := excess (n / d)).
  pose proof (excess_nonneg (n / d)) as K. fold k in K.
  pose proof (significand_bound n d N D) as U. fold k in U.
  pose proof (significand_nonneg n d k N D K) as L.
  set (a := rne n (d * 2 ^ k)) in *.
  pose proof (pow2_pos k K) as P.
  destruct (Z.ltb_spec (a * 2 ^ k) top) as [T|T]; [|reflexivity].
  cbn [number].
  apply andb_true_iff. split; [apply andb_true_iff; split|].
  - apply Z.leb_le. nia.
  - apply Z.ltb_lt. exact T.
  - apply Z.eqb_eq.
    destruct (Z.eq_dec a (2 ^ 53)) as [E|E].
    + rewrite E, <- Z.pow_add_r by lia.
      unfold excess. rewrite Z.log2_pow2 by lia.
      replace (Z.max 0 (53 + k - 52)) with (k + 1) by lia.
      replace (53 + k) with (52 + (k + 1)) by lia.
      rewrite Z.pow_add_r by lia. apply Z.mod_mul.
      pose proof (pow2_pos (k + 1)); lia.
    + pose proof (excess_pow a k K ltac:(lia)) as X.
      pose proof (excess_nonneg (a * 2 ^ k)) as X0.
      set (j := excess (a * 2 ^ k)) in *.
      destruct (pow2_divide j k ltac:(lia)) as (c & C & _).
      pose proof (pow2_pos _ X0).
      rewrite C, Z.mul_assoc. apply Z.mod_mul. lia.
Qed.

Lemma number_multiple (u : Z) :
  number (Finite u) = true ->
  0 <= u < top /\ exists c, u = c * 2 ^ excess u.
Proof.
  cbn [number]. intros H.
  apply andb_true_iff in H as (H & M). apply andb_true_iff in H as (L & T).
  apply Z.leb_le in L. apply Z.ltb_lt in T. apply Z.eqb_eq in M.
  split; [lia|]. exists (u / 2 ^ excess u).
  pose proof (pow2_pos _ (excess_nonneg u)).
  pose proof (Z.div_mod u (2 ^ excess u) ltac:(lia)). lia.
Qed.


Lemma nearest_lower (lo n d : Z) :
  number (Finite lo) = true -> 0 < d -> lo * d <= n -> lo <= nearest n d.
Proof.
  intros H D B. destruct (number_multiple lo H) as ((L & _) & c & E).
  assert (N : 0 <= n) by nia.
  assert (Q : lo <= n / d) by (apply Z.div_le_lower_bound; lia).
  unfold nearest. set (k := excess (n / d)).
  pose proof (excess_nonneg (n / d)) as K. fold k in K.
  pose proof (pow2_pos k K) as P.
  pose proof (excess_mono lo (n / d) ltac:(lia)) as M. fold k in M.
  pose proof (excess_nonneg lo) as K0.
  pose proof (rne_floor n (d * 2 ^ k) ltac:(nia)) as (F & _).
  destruct (Z.eq_dec (excess lo) k) as [Ek|Ek].
  - rewrite Ek in E.
    assert (c <= n / (d * 2 ^ k)) by (apply Z.div_le_lower_bound; nia).
    nia.
  - assert (Kp : 0 < k) by lia.
    pose proof (excess_lower (n / d) Kp) as Lq. fold k in Lq.
    rewrite Z.pow_add_r in Lq by lia.
    assert (2 ^ 52 <= n / (d * 2 ^ k)).
    { apply Z.div_le_lower_bound; [nia|].
      pose proof (Z.div_mod n d ltac:(lia)).
      pose proof (Z.mod_pos_bound n d D). nia. }
    pose proof (excess_upper lo L) as Ul.
    assert (2 ^ (53 + excess lo) <= 2 ^ (52 + k))
      by (apply Z.pow_le_mono_r; lia).
    rewrite (Z.pow_add_r 2 52 k) in * by lia. nia.
Qed.

Lemma nearest_upper (hi n d : Z) :
  number (Finite hi) = true -> 0 < d -> 0 <= n -> n <= hi * d ->
  nearest n d <= hi.
Proof.
  intros H D N B. destruct (number_multiple hi H) as ((L & _) & c & E).
  assert (Q : n / d <= hi) by (apply Z.div_le_upper_bound; lia).
  assert (Q0 : 0 <= n / d) by (apply Z.div_pos; lia).
  unfold nearest. set (k := excess (n / d)).
  pose proof (excess_nonneg (n / d)) as K. fold k in K.
  pose proof (pow2_pos k K) as P.
  pose proof (excess_mono (n / d) hi ltac:(lia)) as M. fold k in M.
  destruct (Z.eq_dec (excess hi) k) as [Ek|Ek].
  - rewrite Ek in E.
    assert (rne n (d * 2 ^ k) <= c) by (apply rne_le; nia).
    nia.
  - assert (Kp : 0 < excess hi) by lia.
    pose proof (excess_lower hi Kp) as Lh.
    pose proof (significand_bound n d N D) as U. fold k in U.
    assert (2 ^ (53 + k) <= 2 ^ (52 + excess hi))
      by (apply Z.pow_le_mono_r; lia).
    rewrite (Z.pow_add_r 2 53 k) in * by lia. nia.
Qed.


(** The float nearest to a fraction is a number. *)
Lemma round_number (n d : Z) : 0 <= n -> 0 < d -> number (round n d) = true.
Proof. apply nearest_number. Qed.

(** Rounding is monotone at the floats: the float nearest to a fraction
    between two floats lies between them. *)
Lemma round_lower (lo n d : Z) :
  number (Finite lo) = true -> 0 < d -> lo * d <= n ->
  leb (Finite lo) (round n d) = true.
Proof.
  intros H D B. unfold round.
  pose proof (nearest_lower lo n d H D B) as L.
  destruct (nearest n d <? top); cbn [leb]; [apply Z.leb_le; exact L|].
  reflexivity.
Qed.

Lemma round_upper (hi n d : Z) :
  number (Finite hi) = true -> 0 < d -> 0 <= n -> n <= hi * d ->
  leb (round n d) (Finite hi) = true.
Proof.
  intros H D N B. unfold round.
  pose proof (nearest_upper hi n d H D N B) as U.
  destruct (number_multiple hi H) as ((_ & T) & _).
  destruct (Z.ltb_spec (nearest n d) top) as [L|L]; [|lia].
  cbn [leb]. apply Z.leb_le. exact U.
Qed.

(** The order of the numbers. *)
Lemma leb_refl (x : t) : is_nan x = false -> leb x x = true.
Proof.
  destruct x; cbn; intros H;
    [apply Z.leb_refl | reflexivity | discriminate].
Qed.

Lemma leb_trans (x y z : t) :
  leb x y = true -> leb y z = true -> leb x z = true.
Proof.
  destruct x, y, z; cbn; try discriminate; try reflexivity.
  rewrite !Z.leb_le. lia.
Qed.

Lemma ltb_leb (x y : t) : ltb x y = true -> leb x y = true.
Proof.
  destruct x, y; cbn; try discriminate; try reflexivity.
  rewrite Z.ltb_lt, Z.leb_le. lia.
Qed.

Lemma ltb_false_leb (x y : t) :
  is_nan x = false -> is_nan y = false -> ltb x y = false -> leb y x = true.
Proof.
  destruct x, y; cbn; try discriminate; try reflexivity.
  rewrite Z.ltb_ge, Z.leb_le. lia.
Qed.

Lemma number_not_nan (x : t) : number x = true -> is_nan x = false.
Proof. destruct x; cbn; [reflexivity | reflexivity | discriminate]. Qed.

End F64Facts.

(** ** [statistics.mean], [min] and [max] *)

Lemma sum_from (l : list Z) (acc : Z) :
  fold_left Z.add l acc = (acc + sum l)%Z.
Proof.
  unfold sum. revert acc. induction l as [|x l IH]; intros acc;
    cbn [fold_left]; [lia|].
  rewrite (IH (acc + x)%Z), (IH (0 + x)%Z). lia.
Qed.

Lemma sum_cons (x : Z) (l : list Z) : sum (x :: l) = (x + sum l)%Z.
Proof. unfold sum at 1. cbn [fold_left]. rewrite sum_from. lia. Qed.

Lemma sum_bounds (lo hi : Z) (l : list Z) :
  Forall (fun u => (lo <= u <= hi)%Z) l ->
  (lo * Z.of_nat (length l) <= sum l <= hi * Z.of_nat (length l))%Z.
Proof.
  induction 1 as [|x l Hx F IH]; [cbn; lia|].
  rewrite sum_cons. cbn [length]. lia.
Qed.


Lemma no_special_finite (l : list F64.t) :
  existsb F64.is_nan l = false -> existsb F64.is_inf l = false ->
  Forall (fun x => x = F64.Finite (F64.units_of x)) l.
Proof.
  induction l as [|x l IH]; cbn [existsb]; intros N I; [constructor|].
  apply orb_false_iff in N as (Nx & N). apply orb_false_iff in I as (Ix & I).
  constructor; [|apply IH; assumption].
  destruct x; [reflexivity | discriminate | discriminate].
Qed.

(** The mean of numbers lies between two numbers that bound them. *)
Lemma mean_floats_between (l : list F64.t) (a lo hi : F64.t) :
  Forall (fun x => F64.number x = true) l ->
  F64.number lo = true -> F64.number hi = true ->
  Forall (fun x => le lo x /\ le x hi) l ->
  mean_floats l = Ok a -> le lo a /\ le a hi.
Proof.
  intros Nl Nlo Nhi B. unfold mean_floats, le in *.
  destruct l as [|x0 l0]; [discriminate|].
  set (l := x0 :: l0) in *.
  assert (Hnan : existsb F64.is_nan l = false).
  { destruct (existsb F64.is_nan l) eqn:E; [|reflexivity].
    apply existsb_exists in E as (x & Hx & Ex).
    rewrite Forall_forall in Nl. apply Nl in Hx.
    apply F64Facts.number_not_nan in Hx. congruence. }
  rewrite Hnan.
  destruct (existsb F64.is_inf l) eqn:Hinf.
  - intros H; injection H as <-.
    apply existsb_exists in Hinf as (x & Hx & Ex).
    rewrite Forall_forall in B. destruct (B x Hx) as (_ & U).
    destruct x; try discriminate.
    destruct hi; try discriminate. destruct lo; try discriminate; auto.
  - pose proof (no_special_finite l Hnan Hinf) as Fin.
    assert (Len : (0 < Z.of_nat (length l))%Z) by (subst l; cbn [length]; lia).
    assert (Nn : Forall (fun u => (0 <= u)%Z) (map F64.units_of l)).
    { apply Forall_map. rewrite Forall_forall in *. intros x Hx.
      specialize (Nl x Hx). rewrite (Fin x Hx) in Nl.
      apply F64Facts.number_multiple in Nl. cbn [F64.units_of]. lia. }
    assert (S0 : (0 <= sum (map F64.units_of l))%Z).
    { clear - Nn. induction Nn as [|u us Hu F IH]; [cbn; lia|].
      rewrite sum_cons. lia. }
    assert (Lo : exists ulo, lo = F64.Finite ulo
                 /\ Forall (fun u => (ulo <= u)%Z) (map F64.units_of l)).
    { destruct lo as [ulo| |]; [|exfalso|discriminate].
      - exists ulo. split; [reflexivity|]. apply Forall_map.
        rewrite Forall_forall in *. intros x Hx.
        destruct (B x Hx) as (L & _). rewrite (Fin x Hx) in L.
        cbn [F64.leb] in L. apply Z.leb_le in L. exact L.
      - rewrite Forall_forall in *.
        destruct (B x0 (or_introl eq_refl)) as (L & _).
        rewrite (Fin x0 (or_introl eq_refl)) in L. discriminate L. }
    destruct Lo as (ulo & -> & Flo).
    assert (Blo : (ulo * Z.of_nat (length l) <= sum (map F64.units_of l))%Z).
    { assert (G : Forall (fun u => (ulo <= u <= u)%Z) (map F64.units_of l))
        by (eapply Forall_impl; [|exact Flo]; cbv beta; intros; lia).
      clear - Flo. rewrite <- (length_map F64.units_of l).
      induction Flo as [|u us Hu F IH]; [cbn; lia|].
      rewrite sum_cons. cbn [length]. lia. }
    pose proof (F64Facts.round_lower ulo _ _ Nlo Len Blo) as RL.
    assert (RU : F64.leb (F64.round (sum (map F64.units_of l))
                                    (Z.of_nat (length l))) hi = true).
    { destruct hi as [uhi| |]; [| |discriminate].
      - apply F64Facts.round_upper; [exact Nhi | exact Len | exact S0 |].
        assert (Fhi : Forall (fun u => (u <= uhi)%Z) (map F64.units_of l)).
        { apply Forall_map. rewrite Forall_forall in *. intros x Hx.
          destruct (B x Hx) as (_ & U). rewrite (Fin x Hx) in U.
          cbn [F64.leb] in U. apply Z.leb_le in U. exact U. }
        clear - Fhi. rewrite <- (length_map F64.units_of l).
        induction Fhi as [|u us Hu F IH]; [cbn; lia|].
        rewrite sum_cons. cbn [length]. lia.
      - unfold F64.round.
        destruct (F64.nearest _ _ <? F64.top)%Z; reflexivity. }
    destruct (F64.round (sum (map F64.units_of l)) (Z.of_nat (length l)));
      intros H; [injection H as <-; auto | discriminate | discriminate].
Qed.

Lemma first_least_In (x : F64.t) (t : list F64.t) :
  In (first_least x t) (x :: t).
Proof.
  revert x; induction t as [|y t IH]; intros x; [left; reflexivity|].
  change (first_least x (y :: t))
    with (first_least (if F64.ltb y x then y else x) t).
  destruct (IH (if F64.ltb y x then y else x)) as [E|I].
  - rewrite <- E. destruct (F64.ltb y x); [right; left | left]; reflexivity.
  - right; right; exact I.
Qed.

Lemma first_greatest_In (x : F64.t) (t : list F64.t) :
  In (first_greatest x t) (x :: t).
Proof.
  revert x; induction t as [|y t IH]; intros x; [left; reflexivity|].
  change (first_greatest x (y :: t))
    with (first_greatest (if F64.ltb x y then y else x) t).
  destruct (IH (if F64.ltb x y then y else x)) as [E|I].
  - rewrite <- E. destruct (F64.ltb x y); [right; left | left]; reflexivity.
  - right; right; exact I.
Qed.

Lemma first_least_le (x : F64.t) (t : list F64.t) :
  Forall (fun v => F64.is_nan v = false) (x :: t) ->
  Forall (fun v => le (first_least x t) v) (x :: t).
Proof.
  unfold le. revert x; induction t as [|y t IH]; intros x F.
  - inversion F; subst. constructor; [|constructor].
    apply F64Facts.leb_refl. assumption.
  - inversion F as [|? ? Hx F']; subst. inversion F' as [|? ? Hy F'']; subst.
    change (first_least x (y :: t))
      with (first_least (if F64.ltb y x then y else x) t).
    set (x' := if F64.ltb y x then y else x).
    assert (Hx' : F64.is_nan x' = false) by (subst x'; destruct (F64.ltb y x); assumption).
    specialize (IH x' (Forall_cons _ Hx' F'')).
    inversion IH as [|? ? L0 Lt]; subst.
    assert (Lx : F64.leb x' x = true).
    { subst x'. destruct (F64.ltb y x) eqn:E;
        [apply F64Facts.ltb_leb; exact E | apply F64Facts.leb_refl; exact Hx]. }
    assert (Ly : F64.leb x' y = true).
    { subst x'. destruct (F64.ltb y x) eqn:E;
        [apply F64Facts.leb_refl; exact Hy
        | apply F64Facts.ltb_false_leb; assumption]. }
    constructor; [eapply F64Facts.leb_trans; eassumption|].
    constructor; [eapply F64Facts.leb_trans; eassumption | exact Lt].
Qed.

Lemma first_greatest_le (x : F64.t) (t : list F64.t) :
  Forall (fun v => F64.is_nan v = false) (x :: t) ->
  Forall (fun v => le v (first_greatest x t)) (x :: t).
Proof.
  unfold le. revert x; induction t as [|y t IH]; intros x F.
  - inversion F; subst. constructor; [|constructor].
    apply F64Facts.leb_refl. assumption.
  - inversion F as [|? ? Hx F']; subst. inversion F' as [|? ? Hy F'']; subst.
    change (first_greatest x (y :: t))
      with (first_greatest (if F64.ltb x y then y else x) t).
    set (x' := if F64.ltb x y then y else x).
    assert (Hx' : F64.is_nan x' = false) by (subst x'; destruct (F64.ltb x y); assumption).
    specialize (IH x' (Forall_cons _ Hx' F'')).
    inversion IH as [|? ? L0 Lt]; subst.
    assert (Lx : F64.leb x x' = true).
    { subst x'. destruct (F64.ltb x y) eqn:E;
        [apply F64Facts.ltb_leb; exact E | apply F64Facts.leb_refl; exact Hx]. }
    assert (Ly : F64.leb y x' = true).
    { subst x'. destruct (F64.ltb x y) eqn:E;
        [apply F64Facts.leb_refl; exact Hy
        | apply F64Facts.ltb_false_leb; assumption]. }
    constructor; [eapply F64Facts.leb_trans; eassumption|].
    constructor; [eapply F64Facts.leb_trans; eassumption | exact Lt].
Qed.

(** ** [calculate_summary] *)

Lemma comprehension_getitem {A} (field : Block.t -> option A) (d : A)
  (blocks : list Block.t) :
  forallb (fun b => Block.isSome (field b)) blocks = true ->
  comprehension (fun b => getitem (field b)) blocks
  = Ok (map (fun b => get (field b) d) blocks).
Proof.
  induction blocks as [|b blocks IH]; simpl; intros H; [reflexivity|].
  apply andb_true_iff in H as (Hb & H). rewrite (IH H).
  destruct (field b); [reflexivity | discriminate].
Qed.

(** The set of the votes has an element when there is a block. *)
Lemma set_iter_nonempty (rt : runtime) (l : list str) :
  l <> [] -> set_iter rt l <> [].
Proof.
  destruct l as [|x l]; [congruence|]. intros _ E.
  assert (H : In x (set_iter rt (x :: l)))
    by (apply set_iter_In; left; reflexivity).
  rewrite E in H. exact H.
Qed.

(** What [average_field] does when it returns; it returns when the mean
    does. *)
Lemma average_field_Ok (field : Block.t -> option Z)
  (store : Summary.t -> num -> Summary.t) (blocks : list Block.t)
  (s s' : Summary.t) :
  average_field field store blocks s = Ok s' ->
  if every field blocks
  then exists a, mean_ints (field_values field blocks) = Ok a /\ s' = store s a
  else s' = s.
Proof.
  unfold average_field, every, field_values.
  destruct (forallb _ blocks) eqn:E; [|congruence].
  rewrite (comprehension_getitem field 0%Z) by exact E. cbn [Py.bind].
  intros H. apply bind_Ok in H as (a & Ha & H). injection H as <-.
  exists a. split; [exact Ha | reflexivity].
Qed.

Lemma mips_statistics_Ok (rt : runtime) (values : list F64.t)
  (s s' : Summary.t) :
  mips_statistics rt values s = Ok s' ->
  Summary.mips_avg s = None -> Summary.mips_min s = None ->
  Summary.mips_max s = None -> Summary.mips_stdev s = None ->
  Summary.mips_count s = None ->
  mips_fields rt values s'
  /\ Summary.wifi_status s' = Summary.wifi_status s
  /\ Summary.cycles_avg s' = Summary.cycles_avg s
  /\ Summary.exec_pct_avg s' = Summary.exec_pct_avg s
  /\ Summary.psram_bw_avg s' = Summary.psram_bw_avg s
  /\ Summary.bottleneck s' = Summary.bottleneck s
  /\ Summary.profiler_count s' = Summary.profiler_count s.
Proof.
  unfold mips_statistics, mips_fields. intros H A B C D E.
  destruct values as [|x t]; cbn [nonempty] in H.
  - injection H as <-. repeat split; assumption.
  - apply bind_Ok in H as (a & Ha & H). cbn [min_ max_ Py.bind] in H.
    fold (first_least x t) in H. fold (first_greatest x t) in H.
    destruct t as [|y t]; cbn [length Nat.ltb Nat.leb] in H.
    + cbn [Py.bind] in H. injection H as <-. cbn.
      repeat split; try assumption. exists a. auto.
    + apply bind_Ok in H as (s1 & H1 & H). injection H as <-.
      apply bind_Ok in H1 as (d & Hd & H1). injection H1 as <-. cbn.
      repeat split; try assumption; [exists a | exists d]; auto.
Qed.

Lemma average_of_store (field : Block.t -> option Z)
  (store : Summary.t -> num -> Summary.t) (proj : Summary.t -> option num)
  (blocks : list Block.t) (s s' : Summary.t) :
  (forall s a, proj (store s a) = Some a) -> proj s = None ->
  (if every field blocks
   then exists a, mean_ints (field_values field blocks) = Ok a
                  /\ s' = store s a
   else s' = s) ->
  average_of field blocks (proj s').
Proof.
  intros P N H. unfold average_of. destruct (every field blocks).
  - destruct H as (a & Ha & ->). exists a. split; [exact Ha | apply P].
  - subst s'. exact N.
Qed.

Lemma profiler_statistics_Ok (rt : runtime) (blocks : list Block.t)
  (s s' : Summary.t) :
  profiler_statistics rt blocks s = Ok s' ->
  Summary.cycles_avg s = None -> Summary.exec_pct_avg s = None ->
  Summary.psram_bw_avg s = None -> Summary.bottleneck s = None ->
  Summary.profiler_count s = None ->
  profiler_fields rt blocks s'
  /\ Summary.wifi_status s' = Summary.wifi_status s
  /\ Summary.mips_avg s' = Summary.mips_avg s
  /\ Summary.mips_min s' = Summary.mips_min s
  /\ Summary.mips_max s' = Summary.mips_max s
  /\ Summary.mips_stdev s' = Summary.mips_stdev s
  /\ Summary.mips_count s' = Summary.mips_count s.
Proof.
  unfold profiler_statistics, profiler_fields. intros H A B C D E.
  destruct blocks as [|b0 bs]; cbn [nonempty] in H.
  - injection H as <-. repeat split; assumption.
  - set (blocks := b0 :: bs) in *.
    apply bind_Ok in H as (s1 & H1 & H). apply bind_Ok in H as (s2 & H2 & H).
    apply bind_Ok in H as (s3 & H3 & H). apply bind_Ok in H as (v & Hv & H).
    injection H as <-.
    apply average_field_Ok in H1, H2, H3.
    assert (W : v = winner rt blocks).
    { unfold winner, votes. unfold max_key in Hv.
      destruct (set_iter rt _) as [|x t]; [discriminate|].
      injection Hv as <-. reflexivity. }
    subst v.
    assert (K1 : average_of Block.total_cycles blocks (Summary.cycles_avg s1)
                 /\ Summary.exec_pct_avg s1 = None
                 /\ Summary.psram_bw_avg s1 = None
                 /\ Summary.wifi_status s1 = Summary.wifi_status s
                 /\ Summary.mips_avg s1 = Summary.mips_avg s
                 /\ Summary.mips_min s1 = Summary.mips_min s
                 /\ Summary.mips_max s1 = Summary.mips_max s
                 /\ Summary.mips_stdev s1 = Summary.mips_stdev s
                 /\ Summary.mips_count s1 = Summary.mips_count s).
    { split; [eapply (average_of_store _ Summary.set_cycles_avg);
              [reflexivity | exact A | exact H1]|].
      destruct (every Block.total_cycles blocks);
        [destruct H1 as (a & _ & ->) | subst s1]; cbn; repeat split;
        assumption. }
    destruct K1 as (F1 & B1 & C1 & W1 & M1 & M2 & M3 & M4 & M5).
    assert (K2 : average_of Block.exec_pct blocks (Summary.exec_pct_avg s2)
                 /\ Summary.cycles_avg s2 = Summary.cycles_avg s1
                 /\ Summary.psram_bw_avg s2 = None
                 /\ Summary.wifi_status s2 = Summary.wifi_status s
                 /\ Summary.mips_avg s2 = Summary.mips_avg s
                 /\ Summary.mips_min s2 = Summary.mips_min s
                 /\ Summary.mips_max s2 = Summary.mips_max s
                 /\ Summary.mips_stdev s2 = Summary.mips_stdev s
                 /\ Summary.mips_count s2 = Summary.mips_count s).
    { split; [eapply (average_of_store _ Summary.set_exec_pct_avg);
              [reflexivity | exact B1 | exact H2]|].
      destruct (every Block.exec_pct blocks);
        [destruct H2 as (a & _ & ->) | subst s2]; cbn; repeat split;
        assumption. }
    destruct K2 as (F2 & A2 & C2 & W2 & N1 & N2 & N3 & N4 & N5).
    assert (K3 : average_of Block.psram_total_kbps blocks
                   (Summary.psram_bw_avg s3)
                 /\ Summary.cycles_avg s3 = Summary.cycles_avg s1
                 /\ Summary.exec_pct_avg s3 = Summary.exec_pct_avg s2
                 /\ Summary.wifi_status s3 = Summary.wifi_status s
                 /\ Summary.mips_avg s3 = Summary.mips_avg s
                 /\ Summary.mips_min s3 = Summary.mips_min s
                 /\ Summary.mips_max s3 = Summary.mips_max s
                 /\ Summary.mips_stdev s3 = Summary.mips_stdev s
                 /\ Summary.mips_count s3 = Summary.mips_count s).
    { split; [eapply (average_of_store _ Summary.set_psram_bw_avg);
              [reflexivity | exact C2 | exact H3]|].
      destruct (every Block.psram_total_kbps blocks);
        [destruct H3 as (a & _ & ->) | subst s3]; cbn; repeat split;
        assumption. }
    destruct K3 as (F3 & A3 & B3 & W3 & O1 & O2 & O3 & O4 & O5).
    cbn. rewrite A3, B3. repeat split; assumption.
Qed.

(** What the summary holds when [calculate_summary] returns. *)
Lemma calculate_summary_Ok (rt : runtime) (m : metrics) (s : Summary.t) :
  calculate_summary rt m = Ok s ->
  Summary.wifi_status s = Some (wifi_status_of m)
  /\ mips_fields rt (mips_values m) s
  /\ profiler_fields rt (profiler_blocks m) s.
Proof.
  unfold calculate_summary. intros H. apply bind_Ok in H as (s1 & H1 & H2).
  apply mips_statistics_Ok in H1; try reflexivity.
  destruct H1 as (M & W & A & B & C & D & E).
  apply profiler_statistics_Ok in H2; try assumption.
  destruct H2 as (P & W' & M1 & M2 & M3 & M4 & M5).
  split; [rewrite W', W; reflexivity|]. split; [|exact P].
  unfold mips_fields in *. rewrite M1, M2, M3, M4, M5. exact M.
Qed.

(** [calculate_summary] returns when the means and the standard deviation
    it asks for are returned. *)
Lemma average_field_returns (field : Block.t -> option Z)
  (store : Summary.t -> num -> Summary.t) (blocks : list Block.t)
  (s : Summary.t) :
  (every field blocks = true ->
   exists a, mean_ints (field_values field blocks) = Ok a) ->
  exists s', average_field field store blocks s = Ok s'.
Proof.
  unfold average_field, every, field_values. intros H.
  destruct (forallb _ blocks) eqn:E; [|eauto].
  rewrite (comprehension_getitem field 0%Z) by exact E. cbn [Py.bind].
  destruct (H eq_refl) as (a & ->). cbn [Py.bind]. eauto.
Qed.

Lemma calculate_summary_returns (rt : runtime) (m : metrics) :
  (mips_values m <> [] -> exists a, mean_floats (mips_values m) = Ok a) ->
  (1 < length (mips_values m) -> exists d, stdev rt (mips_values m) = Ok d) ->
  (forall field,
      every field (profiler_blocks m) = true ->
      exists a, mean_ints (field_values field (profiler_blocks m)) = Ok a) ->
  exists s, calculate_summary rt m = Ok s.
Proof.
  intros Hm Hd Hf. unfold calculate_summary.
  assert (M : exists s1,
             mips_statistics rt (mips_values m)
               (Summary.set_wifi_status Summary.empty (wifi_status_of m))
             = Ok s1).
  { unfold mips_statistics. destruct (mips_values m) as [|x t] eqn:E;
      cbn [nonempty]; [eauto|].
    destruct (Hm ltac:(discriminate)) as (a & ->). cbn [Py.bind min_ max_].
    destruct (Nat.ltb_spec 1 (length (x :: t))) as [L|L];
      [|cbn [Py.bind]; eauto].
    destruct (Hd L) as (d & ->). cbn [Py.bind]. eauto. }
  destruct M as (s1 & ->). cbn [Py.bind]. unfold profiler_statistics.
  destruct (profiler_blocks m) as [|b0 bs] eqn:E; cbn [nonempty]; [eauto|].
  destruct (average_field_returns Block.total_cycles Summary.set_cycles_avg
              (b0 :: bs) s1 (Hf _)) as (s2 & ->). cbn [Py.bind].
  destruct (average_field_returns Block.exec_pct Summary.set_exec_pct_avg
              (b0 :: bs) s2 (Hf _)) as (s3 & ->). cbn [Py.bind].
  destruct (average_field_returns Block.psram_total_kbps
              Summary.set_psram_bw_avg (b0 :: bs) s3 (Hf _)) as (s4 & ->).
  cbn [Py.bind].
  pose proof (set_iter_nonempty rt
                (map (fun b => get (Block.bottleneck b) ("Unknown" : str))
                     (b0 :: bs)) ltac:(discriminate)) as N.
  unfold max_key.
  destruct (set_iter rt _) as [|x t]; [congruence|]. cbn [Py.bind]. eauto.
Qed.

Lemma returns_Ok {A} (r : result A) :
  returns r = true -> exists a, r = Ok a.
Proof. destruct r as [a|e]; [eauto | discriminate]. Qed.



(** ** The status *)

Lemma lower_app_inv (line a b c : str) :
  lower line = a ++ b ++ c ->
  exists pre w post,
    line = pre ++ w ++ post /\ lower pre = a /\ lower w = b /\ lower post = c.
Proof.
  unfold lower. intros H.
  apply map_eq_app in H as (pre & rest & -> & Ha & H).
  apply map_eq_app in H as (w & post & -> & Hb & Hc).
  exists pre, w, post; auto.
Qed.

(** The failure marker is looked for without regard to case. *)
Lemma failure_marker_spec (line : str) :
  failure_marker line = true <->
  exists pre w post, line = pre ++ w ++ post /\ lower w = "assert failed".
Proof.
  unfold failure_marker. rewrite contains_spec. split.
  - intros (a & c & H). apply lower_app_inv in H
      as (pre & w & post & -> & _ & Hw & _). eauto.
  - intros (pre & w & post & -> & Hw).
    exists (lower pre), (lower post). unfold lower in *.
    rewrite !map_app, Hw. reflexivity.
Qed.

(** C2. When [calculate_summary] returns, the status of the summary is
    "ERROR" when the failure flag is set, else "Connected" when the
    connected flag is set, else "Unknown"; the failure flag is set exactly
    when some captured line holds the failure marker in some mix of
    cases, the connected flag exactly when some line holds the connected
    marker; so the summary of a capture with both markers has the status
    "ERROR". *)
Theorem status_precedence (rt : runtime) :
  (forall m s,
      calculate_summary rt m = Ok s ->
      Summary.wifi_status s
      = Some (if wifi_error m then "ERROR" : str
              else if wifi_connected m then "Connected" : str
                   else "Unknown" : str))
  /\ (forall lines m,
         extract_metrics rt lines = Ok m ->
         wifi_error m = existsb failure_marker lines
         /\ wifi_connected m = existsb connected_marker lines
         /\ (wifi_error m = true <->
             exists line pre w post,
               In line lines /\ line = pre ++ w ++ post
               /\ lower w = "assert failed"))
  /\ (forall lines m s,
         extract_metrics rt lines = Ok m ->
         calculate_summary rt m = Ok s ->
         existsb connected_marker lines = true ->
         existsb failure_marker lines = true ->
         Summary.wifi_status s = Some ("ERROR" : str)).
Proof.
  split; [|split].
  - intros m s H. apply calculate_summary_Ok in H as (W & _). exact W.
  - intros lines m H. apply extract_metrics_Ok in H. subst m.
    split; [reflexivity|]. split; [reflexivity|].
    cbn [read_metrics wifi_error]. rewrite existsb_exists. split.
    + intros (line & Hin & Hm). apply failure_marker_spec in Hm
        as (pre & w & post & E & Hw).
      exists line, pre, w, post; auto.
    + intros (line & pre & w & post & Hin & E & Hw).
      exists line. split; [assumption|]. apply failure_marker_spec; eauto.
  - intros lines m s H Hs Hc Hf. apply extract_metrics_Ok in H. subst m.
    apply calculate_summary_Ok in Hs as (W & _). rewrite W.
    unfold wifi_status_of. cbn [read_metrics wifi_error]. rewrite Hf.
    reflexivity.
Qed.

Lemma status_precedence_witness :
  extract_metrics Reference.cpython Sample.both_markers
  = Ok (read_metrics Sample.both_markers)
  /\ existsb connected_marker Sample.both_markers = true
  /\ existsb failure_marker Sample.both_markers = true
  /\ exists s,
       calculate_summary Reference.cpython (read_metrics Sample.both_markers)
       = Ok s
       /\ Summary.wifi_status s = Some ("ERROR" : str).
Proof.
  assert (E : extract_metrics Reference.cpython Sample.both_markers
              = Ok (read_metrics Sample.both_markers))
    by (vm_compute; reflexivity).
  assert (R : returns (calculate_summary Reference.cpython
                         (read_metrics Sample.both_markers)) = true)
    by (vm_compute; reflexivity).
  apply returns_Ok in R as (s & Hs).
  split; [exact E|]. split; [reflexivity|]. split; [reflexivity|].
  exists s. split; [exact Hs|].
  destruct (status_precedence Reference.cpython) as (_ & _ & H).
  exact (H Sample.both_markers _ s E Hs eq_refl eq_refl).
Defined.

(** ** The throughput statistics *)


Lemma digit_val_nonneg (c : ascii) : isdigit c = true -> (0 <= digit_val c)%Z.
Proof.
  unfold isdigit, digit_val. generalize (code c). intros n H.
  apply andb_true_iff in H as (H & _). apply Nat.leb_le in H. lia.
Qed.

Lemma digits_value_nonneg (s : str) :
  Forall (fun c => isdigit c = true) s -> (0 <= digits_value s)%Z.
Proof.
  unfold digits_value. intros F.
  assert (G : forall acc, (0 <= acc)%Z ->
                (0 <= fold_left (fun a c => (10 * a + digit_val c)%Z) s acc)%Z).
  { induction F as [|c s Hc F IH]; cbn [fold_left]; intros acc Ha;
      [assumption|].
    apply IH. pose proof (digit_val_nonneg c Hc). lia. }
  apply G. lia.
Qed.

Lemma sample_is_number (line : str) (v : F64.t) :
  parse_ips_line line = Ok (Some v) -> F64.number v = true.
Proof.
  intros H. pose proof (parse_ips_line_search line) as P.
  destruct (search ips_re line); [|congruence].
  destruct P as (pre & ip & dot & fp & ws & post & _ & ((_ & D) & F & _) & _ & P).
  rewrite H in P. injection P as ->. unfold decimal, F64.of_fraction.
  pose proof (digits_value_nonneg ip D). pose proof (digits_value_nonneg fp F).
  assert (0 < 10 ^ Z.of_nat (length fp))%Z by (apply Z.pow_pos_nonneg; lia).
  assert (0 < 2 ^ 1074)%Z by (apply Z.pow_pos_nonneg; lia).
  apply F64Facts.round_number; [nia | assumption].
Qed.


(** ** The vote *)

Lemma first_max_snoc {A} (key : A -> nat) (x : A) (t : list A) (y : A) :
  first_max key x (t ++ [y])
  = if key (first_max key x t) <? key y then y else first_max key x t.
Proof. unfold first_max. rewrite fold_left_app. reflexivity. Qed.

(** [first_max] picks an element with the greatest key, before which
    every key is smaller. *)
Lemma first_max_spec {A} (key : A -> nat) (x : A) (t : list A) :
  exists before after,
    x :: t = before ++ first_max key x t :: after
    /\ Forall (fun y => key y < key (first_max key x t)) before
    /\ Forall (fun y => key y <= key (first_max key x t)) after.
Proof.
  induction t as [|y t IH] using rev_ind.
  - exists [], []. repeat split; constructor.
  - destruct IH as (before & after & E & B & F).
    rewrite first_max_snoc. destruct (Nat.ltb_spec (key (first_max key x t)) (key y)) as [L|L].
    + exists (x :: t), []. split; [reflexivity|]. split; [|constructor].
      rewrite E. apply Forall_app. split.
      * eapply Forall_impl; [|exact B]. intros z Hz; cbv beta in Hz; lia.
      * constructor; [assumption|].
        eapply Forall_impl; [|exact F]. intros z Hz; cbv beta in Hz; lia.
    + exists before, (after ++ [y]). split; [|split].
      * rewrite app_comm_cons, E, <- app_assoc. reflexivity.
      * assumption.
      * apply Forall_app; split; [assumption | constructor; auto].
Qed.




(** ** The throughput extractor *)

(** C4. A line in which a throughput reading (a number in parentheses,
    blanks at most between it and the unit MIPS before the closing
    parenthesis) starts, and none starts further left, yields the sample
    written in that reading; a line in which no reading starts yields no
    sample; a sample always is the number of a reading of its line; the
    extractor answers on every line with one sample at most, and the
    samples of a capture are those of its lines, in the order of the
    lines. *)
Theorem throughput_extractor (rt : runtime) :
  (forall pre ip dot fp ws post,
      well_formed_reading ip dot fp ws ->
      (forall p1 p2,
          pre = p1 ++ p2 -> p2 <> [] ->
          ~ reading_at_front (p2 ++ reading_text ip dot fp ws ++ post)) ->
      parse_ips_line (pre ++ reading_text ip dot fp ws ++ post)
      = Ok (Some (decimal ip fp)))
  /\ (forall line,
         (forall pre rest, line = pre ++ rest -> ~ reading_at_front rest) ->
         parse_ips_line line = Ok None)
  /\ (forall line v,
         parse_ips_line line = Ok (Some v) ->
         exists pre ip dot fp ws post,
           line = pre ++ reading_text ip dot fp ws ++ post
           /\ well_formed_reading ip dot fp ws /\ v = decimal ip fp)
  /\ (forall line, exists o, parse_ips_line line = Ok o)
  /\ (forall lines m,
         extract_metrics rt lines = Ok m ->
         mips_values m = flat_map samples_of lines).
Proof.
  split; [|split; [|split; [|split]]].
  - intros pre ip dot fp ws post W L.
    assert (S : search ips_re (pre ++ reading_text ip dot fp ws ++ post)
                = Some [number_text ip dot fp]).
    { apply search_leftmost.
      exists pre, (reading_text ip dot fp ws ++ post).
      split; [reflexivity|]. split; [apply match_here_reading; exact W|].
      intros p1 p2 E N.
      destruct (match_here ips_re (p2 ++ reading_text ip dot fp ws ++ post))
        as [caps|] eqn:M; [|reflexivity].
      exfalso. apply (L p1 p2 E N). eapply match_here_ips; exact M. }
    unfold parse_ips_line. rewrite S. cbn [group nth_error Py.bind].
    destruct W as (D & F & E & _).
    rewrite float_number by assumption. reflexivity.
  - intros line L. unfold parse_ips_line.
    assert (S : search ips_re line = None).
    { apply search_None. intros pre rest E.
      destruct (match_here ips_re rest) as [caps|] eqn:M; [|reflexivity].
      exfalso. apply (L pre rest E). eapply match_here_ips; exact M. }
    rewrite S. reflexivity.
  - intros line v H. pose proof (parse_ips_line_search line) as P.
    destruct (search ips_re line) as [caps|]; [|congruence].
    destruct P as (pre & ip & dot & fp & ws & post & E & W & _ & P).
    exists pre, ip, dot, fp, ws, post. split; [exact E|].
    split; [exact W | congruence].
  - apply parse_ips_line_returns.
  - intros lines m H. apply extract_metrics_Ok in H. subst m.
    unfold read_metrics. cbn [mips_values]. apply next_mips.
Qed.

Lemma no_paren_no_reading (pre rest : str) :
  forallb (fun c => negb (Ascii.eqb c "("%char)) pre = true ->
  forall p1 p2, pre = p1 ++ p2 -> p2 <> [] -> ~ reading_at_front (p2 ++ rest).
Proof.
  intros H p1 p2 -> N (ip & dot & fp & ws & post & E & _).
  rewrite forallb_app in H. apply andb_true_iff in H as (_ & H).
  destruct p2 as [|c p2]; [congruence|].
  unfold reading_text in E. simpl in E, H. injection E as -> _.
  discriminate.
Qed.

Lemma throughput_extractor_witness :
  well_formed_reading "2" true "07" " "
  /\ parse_ips_line Sample.ips_line = Ok (Some (decimal "2" "07"))
  /\ extract_metrics Reference.cpython Sample.capture
     = Ok (read_metrics Sample.capture)
  /\ mips_values (read_metrics Sample.capture)
     = flat_map samples_of Sample.capture.
Proof.
  assert (W : well_formed_reading "2" true "07" " ").
  { repeat split; try discriminate; repeat constructor. }
  assert (E : extract_metrics Reference.cpython Sample.capture
              = Ok (read_metrics Sample.capture))
    by (vm_compute; reflexivity).
  destruct (throughput_extractor Reference.cpython) as (H1 & _ & _ & _ & H5).
  split; [exact W|]. split; [|split; [exact E|]].
  - apply (H1 ("[IPS] 2074192 instructions/sec " : str) ("2" : str) true
              ("07" : str) (" " : str) (", total: 132120000" : str) W).
    apply no_paren_no_reading. reflexivity.
  - apply (H5 Sample.capture _ E).
Defined.

(** ** The profiler blocks of a capture *)

Lemma for_each_app_Ok {S X} (body : S -> X -> result S) (l1 l2 : list X)
  (st st' : S) :
  for_each body (l1 ++ l2) st = Ok st' ->
  exists st1, for_each body l1 st = Ok st1 /\ for_each body l2 st1 = Ok st'.
Proof.
  rewrite for_each_app. intros H. apply bind_Ok in H. exact H.
Qed.

(** Between the sentinels the lines are gathered and no block is added. *)
Lemma next_body (body : list str) (st : scan) :
  in_profiler_block st = true ->
  forallb (fun l => negb (has_start l) && negb (has_end l)) body = true ->
  sc_blocks (fold_left next body st) = sc_blocks st
  /\ current_block (fold_left next body st) = current_block st ++ body
  /\ in_profiler_block (fold_left next body st) = true.
Proof.
  revert st; induction body as [|l body IH]; simpl; intros st I H.
  - rewrite app_nil_r; auto.
  - apply andb_true_iff in H as (Hl & H). apply andb_true_iff in Hl as (Hs & He).
    apply negb_true_iff in Hs, He.
    assert (N : next st l
                = {| sc_mips := sc_mips st ++ samples_of l;
                     sc_blocks := sc_blocks st;
                     current_block := current_block st ++ [l];
                     in_profiler_block := in_profiler_block st |})
      by (unfold next; rewrite Hs, He, I; reflexivity).
    destruct (IH (next st l)) as (B & C & J);
      [rewrite N; exact I | exact H |].
    rewrite B, C, J, N. simpl. rewrite <- app_assoc. auto.
Qed.

Lemma forallb_weaken {A} (p q : A -> bool) (l : list A) :
  (forall x, p x = true -> q x = true) ->
  forallb p l = true -> forallb q l = true.
Proof.
  intros Hpq. rewrite !forallb_forall. auto.
Qed.

(** Without a line that closes a block no block is added. *)
Lemma next_open (body : list str) (st : scan) :
  forallb (fun l => has_start l || negb (has_end l)) body = true ->
  sc_blocks (fold_left next body st) = sc_blocks st.
Proof.
  revert st; induction body as [|l body IH]; simpl; intros st H;
    [reflexivity|].
  apply andb_true_iff in H as (Hl & H). rewrite (IH _ H).
  unfold next. destruct (has_start l); [reflexivity|].
  simpl in Hl. apply negb_true_iff in Hl. rewrite Hl. simpl.
  destruct (in_profiler_block st); reflexivity.
Qed.

Lemma next_start (st : scan) (s : str) :
  has_start s = true ->
  sc_blocks (next st s) = sc_blocks st /\ current_block (next st s) = []
  /\ in_profiler_block (next st s) = true.
Proof. intros H. unfold next. rewrite H. auto. Qed.

(** The line that closes a block has the block parsed. *)
Lemma extract_line_closing (rt : runtime) (st st' : scan) (e : str) :
  has_start e = false -> has_end e = true -> in_profiler_block st = true ->
  extract_line rt st e = Ok st' ->
  exists b,
    parse_profiler_block rt (current_block st) = Ok b
    /\ sc_blocks st' = if Block.truthy b then sc_blocks st ++ [b]
                       else sc_blocks st.
Proof.
  unfold has_start, has_end. intros Hs He I H. unfold extract_line in H.
  apply bind_Ok in H as (o & _ & H). rewrite Hs, He, I in H. simpl in H.
  apply bind_Ok in H as (b & Hb & H). exists b. split; [exact Hb|].
  injection H as <-. reflexivity.
Qed.

(** C6. Let a capture continue with a line holding the start sentinel,
    lines holding neither sentinel, and a line holding the end sentinel.
    When the extraction returns, the block parsed from the lines between
    the sentinels is added to the profiler blocks exactly when one of the
    three sub-patterns is recognized in one of these lines, and otherwise
    nothing is added; when the capture ends before the end sentinel,
    nothing is added either; the extraction returns when the lines fit the
    cap of the runtime on digit strings; and the profiler count of a
    summary that [calculate_summary] returns is the number of blocks that
    were added, absent when there is none. *)
Theorem profiler_block_emitted (rt : runtime) (pre body : list str)
  (s e : str) :
  has_start s = true ->
  forallb (fun l => negb (has_start l) && negb (has_end l)) body = true ->
  has_start e = false -> has_end e = true ->
  (forall m,
      extract_metrics rt (pre ++ s :: body ++ [e]) = Ok m ->
      exists m0 b,
        extract_metrics rt pre = Ok m0
        /\ parse_profiler_block rt body = Ok b
        /\ Block.truthy b = existsb recognized body
        /\ profiler_blocks m
           = profiler_blocks m0
             ++ (if existsb recognized body then [b] else []))
  /\ (forall m,
         extract_metrics rt (pre ++ s :: body) = Ok m ->
         exists m0,
           extract_metrics rt pre = Ok m0
           /\ profiler_blocks m = profiler_blocks m0)
  /\ (forallb (fits rt) (pre ++ s :: body ++ [e]) = true ->
      exists m, extract_metrics rt (pre ++ s :: body ++ [e]) = Ok m)
  /\ (forall m sm,
         calculate_summary rt m = Ok sm ->
         Summary.profiler_count sm
         = if nonempty (profiler_blocks m)
           then Some (length (profiler_blocks m)) else None).
Proof.
  intros Hs Hb Hes Hee. split; [|split; [|split]].
  - intros m H. pose proof (extract_metrics_prefix rt _ _ _ H) as H0.
    exists (read_metrics pre).
    unfold extract_metrics in H. apply bind_Ok in H as (stf & Hf & H).
    injection H as <-. cbn [profiler_blocks].
    apply for_each_app_Ok in Hf as (st1 & H1 & Hf).
    change (s :: body ++ [e]) with ([s] ++ body ++ [e]) in Hf.
    apply for_each_app_Ok in Hf as (st2 & H2 & Hf).
    apply for_each_app_Ok in Hf as (st3 & H3 & Hf).
    apply scan_Ok in H1, H2, H3. simpl in H2.
    destruct (next_start st1 s Hs) as (B2 & C2 & I2). rewrite <- H2 in *.
    destruct (next_body body st2 I2 Hb) as (B3 & C3 & I3). rewrite <- H3 in *.
    simpl in Hf. apply bind_Ok in Hf as (st4 & Hf & E4). injection E4 as <-.
    apply (extract_line_closing rt st3 st4 e Hes Hee I3) in Hf
      as (b & Pb & B4).
    rewrite C3, C2 in Pb. simpl in Pb. exists b.
    split; [exact H0|]. split; [exact Pb|].
    pose proof (parse_profiler_block_Ok rt body b Pb) as Eb.
    assert (T : Block.truthy b = existsb recognized body)
      by (rewrite Eb; apply truthy_read_block).
    split; [exact T|].
    rewrite B4, B3, B2, T. unfold read_metrics. cbn [profiler_blocks].
    rewrite <- H1. destruct (existsb recognized body);
      [reflexivity | symmetry; apply app_nil_r].
  - intros m H. pose proof (extract_metrics_prefix rt _ _ _ H) as H0.
    exists (read_metrics pre). split; [exact H0|].
    apply extract_metrics_Ok in H. subst m.
    unfold read_metrics. cbn [profiler_blocks].
    rewrite fold_left_app. simpl.
    rewrite next_open.
    + apply (next_start _ s Hs).
    + eapply forallb_weaken; [|exact Hb]. cbv beta.
      intros l Hl. apply andb_true_iff in Hl as (_ & Hl). rewrite Hl.
      apply orb_true_r.
  - intros F. eexists. apply extract_metrics_fits. exact F.
  - intros m sm H. apply calculate_summary_Ok in H as (_ & _ & P).
    unfold profiler_fields in P.
    destruct (profiler_blocks m); cbn [nonempty]; tauto.
Qed.

Lemma profiler_block_emitted_witness :
  has_start profiler_start = true
  /\ forallb (fun l => negb (has_start l) && negb (has_end l))
             Sample.block_lines = true
  /\ has_start profiler_end = false /\ has_end profiler_end = true
  /\ extract_metrics Reference.cpython
       ([Sample.ips_line] ++ profiler_start :: Sample.block_lines
        ++ [profiler_end])
     = Ok (read_metrics ([Sample.ips_line] ++ profiler_start
                         :: Sample.block_lines ++ [profiler_end]))
  /\ exists m0 b,
       extract_metrics Reference.cpython [Sample.ips_line] = Ok m0
       /\ parse_profiler_block Reference.cpython Sample.block_lines = Ok b
       /\ Block.truthy b = existsb recognized Sample.block_lines
       /\ profiler_blocks
            (read_metrics ([Sample.ips_line] ++ profiler_start
                           :: Sample.block_lines ++ [profiler_end]))
          = profiler_blocks m0
            ++ (if existsb recognized Sample.block_lines then [b] else []).
Proof.
  assert (E : extract_metrics Reference.cpython
                ([Sample.ips_line] ++ profiler_start :: Sample.block_lines
                 ++ [profiler_end])
              = Ok (read_metrics ([Sample.ips_line] ++ profiler_start
                                  :: Sample.block_lines ++ [profiler_end])))
    by (vm_compute; reflexivity).
  do 4 (split; [reflexivity|]). split; [exact E|].
  destruct (profiler_block_emitted Reference.cpython [Sample.ips_line]
              Sample.block_lines profiler_start profiler_end
              eq_refl eq_refl eq_refl eq_refl) as (H & _).
  exact (H _ E).
Defined.

(** A block in which no sub-pattern is recognized is not added, and the
    summary then has no profiler count. *)
Example silent_block_dropped :
  existsb recognized Sample.silent_lines = false
  /\ extract_metrics Reference.cpython
       (profiler_start :: Sample.silent_lines ++ [profiler_end])
     = Ok {| mips_values := []; profiler_blocks := [];
             wifi_connected := false; wifi_error := false |}.
Proof. split; vm_compute; reflexivity. Qed.

Example sample_line_parsed :
  parse_ips_line Sample.ips_line = Ok (Some (decimal "2" "07")).
Proof. reflexivity. Qed.

(** ** Several matches in one block *)

Lemma read_block_fields (lines : list str) :
  Block.fetch_cycles (read_block lines) = last_group cycles_re 1 lines
  /\ Block.fetch_pct (read_block lines) = last_group cycles_re 2 lines
  /\ Block.exec_cycles (read_block lines) = last_group cycles_re 3 lines
  /\ Block.exec_pct (read_block lines) = last_group cycles_re 4 lines
  /\ Block.total_cycles (read_block lines) = last_group cycles_re 5 lines
  /\ Block.psram_read_kbps (read_block lines) = last_group bw_re 1 lines
  /\ Block.psram_write_kbps (read_block lines) = last_group bw_re 2 lines
  /\ Block.psram_total_kbps (read_block lines) = last_group bw_re 3 lines
  /\ Block.bottleneck (read_block lines) = last_some tag_of lines.
Proof.
  unfold read_block, last_group.
  repeat split;
    match goal with
    | |- ?proj (fold_left read_line lines Block.empty)
         = match last_some ?f lines with
           | Some m => @?g m
           | None => None
           end =>
        apply (fold_left_last read_line f g proj); intros b x;
        first [apply (read_line_cycles b x) | apply (read_line_bw b x)]
    | |- _ => idtac
    end.
  rewrite (fold_left_last read_line tag_of Some Block.bottleneck)
    by (intros b x; apply read_line_tag).
  destruct (last_some tag_of lines); reflexivity.
Qed.

(** C10. When [parse_profiler_block] returns a block, each field of the
    cycle breakdown holds the integer written in its group of the last
    line of the block that matches the breakdown pattern, each field of
    the bandwidth the integer of its group of the last line that matches
    the bandwidth pattern, and the tag is the tag of the last line that
    has one; a field is absent when no line matches; such a last line is
    a line of the block after which no line matches; the function returns
    when the lines fit the cap of the runtime on digit strings. *)
Theorem last_match_wins (rt : runtime) (lines : list str) :
  (forall b,
      parse_profiler_block rt lines = Ok b ->
      Block.fetch_cycles b = last_group cycles_re 1 lines
      /\ Block.fetch_pct b = last_group cycles_re 2 lines
      /\ Block.exec_cycles b = last_group cycles_re 3 lines
      /\ Block.exec_pct b = last_group cycles_re 4 lines
      /\ Block.total_cycles b = last_group cycles_re 5 lines
      /\ Block.psram_read_kbps b = last_group bw_re 1 lines
      /\ Block.psram_write_kbps b = last_group bw_re 2 lines
      /\ Block.psram_total_kbps b = last_group bw_re 3 lines
      /\ Block.bottleneck b = last_some tag_of lines)
  /\ (forall r i v,
         last_group r i lines = Some v ->
         exists l1 line l2 m g,
           lines = l1 ++ line :: l2 /\ search r line = Some m
           /\ Forall (fun l => search r l = None) l2
           /\ nth_error m (i - 1) = Some g /\ v = digits_value g)
  /\ (forall t,
         last_some tag_of lines = Some t ->
         exists l1 line l2,
           lines = l1 ++ line :: l2 /\ tag_of line = Some t
           /\ Forall (fun l => tag_of l = None) l2)
  /\ (forallb (fits rt) lines = true ->
      exists b, parse_profiler_block rt lines = Ok b).
Proof.
  split; [|split; [|split]].
  - intros b H. apply parse_profiler_block_Ok in H. subst b.
    apply read_block_fields.
  - intros r i v H. unfold last_group in H.
    destruct (last_some (search r) lines) as [m|] eqn:L; [|discriminate].
    apply last_some_Some in L as (l1 & line & l2 & E & S & N).
    destruct (nth_error m (i - 1)) as [g|] eqn:G; [|discriminate].
    injection H as <-. exists l1, line, l2, m, g. auto.
  - intros t H. apply last_some_Some in H. exact H.
  - intros F. eexists. apply parse_profiler_block_fits. exact F.
Qed.

Lemma last_match_wins_witness :
  parse_profiler_block Reference.cpython Sample.block_lines
  = Ok (read_block Sample.block_lines)
  /\ Block.total_cycles (read_block Sample.block_lines) = Some 125%Z
  /\ Block.fetch_cycles (read_block Sample.block_lines) = Some 15%Z
  /\ Block.bottleneck (read_block Sample.block_lines) = Some ("CPU" : str).
Proof.
  assert (E : parse_profiler_block Reference.cpython Sample.block_lines
              = Ok (read_block Sample.block_lines))
    by (vm_compute; reflexivity).
  destruct (last_match_wins Reference.cpython Sample.block_lines) as (H & _).
  destruct (H _ E) as (F1 & _ & _ & _ & F5 & _ & _ & _ & F9).
  split; [exact E|]. split; [|split].
  - rewrite F5. vm_compute. reflexivity.
  - rewrite F1. vm_compute. reflexivity.
  - rewrite F9. vm_compute. reflexivity.
Defined.

(** ** Printing and writing *)

Lemma io_bind_Ok {A B} (c : io A) (k : A -> io B) (st st' : IO.state) (a : A) :
  c st = (st', Ok a) -> IO.bind c k st = k a st'.
Proof. intros H. unfold IO.bind. rewrite H. reflexivity. Qed.

Lemma io_bind_Raise {A B} (c : io A) (k : A -> io B) (st st' : IO.state)
  (e : exn) :
  c st = (st', Raise e) -> IO.bind c k st = (st', Raise e).
Proof. intros H. unfold IO.bind. rewrite H. reflexivity. Qed.

Lemma io_bind_assoc {A B C} (c : io A) (k : A -> io B) (h : B -> io C)
  (st : IO.state) :
  IO.bind (IO.bind c k) h st = IO.bind c (fun a => IO.bind (k a) h) st.
Proof.
  unfold IO.bind. destruct (c st) as (st1 & [a|e]); [|reflexivity].
  reflexivity.
Qed.

Lemma printed_nil (st : IO.state) : printed [] st = st.
Proof. destruct st. unfold printed. cbn. rewrite app_nil_r. reflexivity. Qed.

Lemma printed_app (o1 o2 : list str) (st : IO.state) :
  printed o2 (printed o1 st) = printed (o1 ++ o2) st.
Proof. unfold printed. cbn. rewrite app_assoc. reflexivity. Qed.

Lemma prints_ret {A} (a : A) : prints (ret a) [] (Ok a).
Proof. intros st. rewrite printed_nil. reflexivity. Qed.

Lemma prints_lift {A} (r : result A) : prints (lift r) [] r.
Proof. intros st. rewrite printed_nil. reflexivity. Qed.

Lemma prints_print (s : str) : prints (print s) [s] (Ok tt).
Proof. intros st. reflexivity. Qed.

Lemma prints_bind_Ok {A B} (c : io A) (k : A -> io B) (o1 o2 : list str)
  (a : A) (r : result B) :
  prints c o1 (Ok a) -> prints (k a) o2 r -> prints (IO.bind c k) (o1 ++ o2) r.
Proof.
  intros H1 H2 st. rewrite (io_bind_Ok _ _ _ _ _ (H1 st)), H2.
  rewrite printed_app. reflexivity.
Qed.

Lemma prints_bind_Raise {A B} (c : io A) (k : A -> io B) (o : list str)
  (e : exn) :
  prints c o (Raise e) -> prints (IO.bind c k) o (Raise e).
Proof. intros H st. apply io_bind_Raise. apply H. Qed.

Lemma prints_print_f (text : result str) :
  prints (print_f text)
         (match text with Ok s => [s] | Raise _ => [] end)
         (match text with Ok _ => Ok tt | Raise e => Raise e end).
Proof.
  unfold print_f. destruct text as [s|e].
  - apply (prints_bind_Ok _ _ [] [s] s); [apply prints_lift|].
    apply prints_print.
  - apply prints_bind_Raise. apply prints_lift.
Qed.

Lemma printer_bind {A B} (c : io A) (k : A -> io B) :
  printer c -> (forall a, printer (k a)) -> printer (IO.bind c k).
Proof.
  intros (o1 & [a|e] & H1) Hk.
  - destruct (Hk a) as (o2 & r & H2). exists (o1 ++ o2), r.
    eapply prints_bind_Ok; eassumption.
  - exists o1, (Raise e). apply prints_bind_Raise. exact H1.
Qed.

Lemma printer_print (s : str) : printer (print s).
Proof. eexists _, _. apply prints_print. Qed.

Lemma printer_print_f (text : result str) : printer (print_f text).
Proof. eexists _, _. apply prints_print_f. Qed.

Lemma printer_ret {A} (a : A) : printer (ret a).
Proof. eexists _, _. apply prints_ret. Qed.

Ltac printer_steps :=
  repeat first
    [ apply printer_print | apply printer_print_f | apply printer_ret
    | apply printer_bind; [|intros _]
    | match goal with |- printer (if ?b then _ else _) => destruct b end ].

Lemma print_summary_printer (s : Summary.t) : printer (print_summary s).
Proof. unfold print_summary. printer_steps. Qed.

(** [print_summary] adds its report to the console and leaves the files. *)
Lemma print_summary_run (s : Summary.t) (st : IO.state) :
  print_summary s st = (printed (fst (report s)) st, snd (report s)).
Proof.
  destruct (print_summary_printer s) as (out & r & H).
  unfold report. rewrite (H {| IO.console := []; IO.files := [] |}).
  cbn [fst snd printed IO.console app]. apply H.
Qed.

(** The report starts with the ruled title. *)
Lemma report_head (s : Summary.t) :
  exists rest,
    fst (report s)
    = (nl ++ repeat "="%char 60) :: ("PERFORMANCE CAPTURE SUMMARY" : str)
      :: repeat "="%char 60
      :: (nl ++ "WiFi Status: "
          ++ get (Summary.wifi_status s) ("Unknown" : str)) :: rest.
Proof.
  assert (P : exists out r,
             prints (print_summary s)
               ((nl ++ repeat "="%char 60)
                :: ("PERFORMANCE CAPTURE SUMMARY" : str)
                :: repeat "="%char 60
                :: (nl ++ "WiFi Status: "
                    ++ get (Summary.wifi_status s) ("Unknown" : str)) :: out)
               r).
  { unfold print_summary.
    match goal with
    | |- exists out r,
          prints (IO.bind (print ?a) (fun _ =>
                  IO.bind (print ?b) (fun _ =>
                  IO.bind (print ?c) (fun _ =>
                  IO.bind (print ?d) (fun _ => ?rest))))) _ _ =>
        assert (R : printer rest) by printer_steps;
        destruct R as (out & r & R); exists out, r;
        apply (prints_bind_Ok _ _ [a] (b :: c :: d :: out) tt);
          [apply prints_print|];
        apply (prints_bind_Ok _ _ [b] (c :: d :: out) tt);
          [apply prints_print|];
        apply (prints_bind_Ok _ _ [c] (d :: out) tt); [apply prints_print|];
        apply (prints_bind_Ok _ _ [d] out tt); [apply prints_print|];
        exact R
    end. }
  destruct P as (out & r & P). exists out.
  unfold report. rewrite (P {| IO.console := []; IO.files := [] |}).
  reflexivity.
Qed.

(** ** The files *)

Lemma str_eqb_refl (s : str) : str_eqb s s = true.
Proof.
  unfold str_eqb. destruct (list_eq_dec ascii_dec s s); [reflexivity|].
  congruence.
Qed.

Lemma str_eqb_eq (a b : str) : str_eqb a b = true <-> a = b.
Proof.
  unfold str_eqb. destruct (list_eq_dec ascii_dec a b); split; congruence.
Qed.

Lemma read_write (path data : str) (fs : list (str * str)) :
  IO.read path (IO.write path data fs) = Some data.
Proof.
  unfold IO.read, IO.write. cbn [find fst snd]. rewrite str_eqb_refl.
  reflexivity.
Qed.

Lemma find_filter_other (path q : str) (fs : list (str * str)) :
  q <> path ->
  find (fun e => str_eqb (fst e) q)
       (filter (fun e => negb (str_eqb (fst e) path)) fs)
  = find (fun e => str_eqb (fst e) q) fs.
Proof.
  intros N. induction fs as [|(k, v) fs IH]; [reflexivity|].
  cbn [filter find fst]. destruct (str_eqb k path) eqn:E; cbn [negb].
  - apply str_eqb_eq in E. subst k.
    destruct (str_eqb path q) eqn:E'; [apply str_eqb_eq in E'; congruence|].
    exact IH.
  - cbn [find fst]. rewrite IH. reflexivity.
Qed.

Lemma read_write_other (path q data : str) (fs : list (str * str)) :
  q <> path -> IO.read q (IO.write path data fs) = IO.read q fs.
Proof.
  intros N. unfold IO.read, IO.write. cbn [find fst].
  destruct (str_eqb path q) eqn:E; [apply str_eqb_eq in E; congruence|].
  rewrite find_filter_other by exact N. reflexivity.
Qed.

(** ** The savers *)

(** What [save_raw_capture] does: nothing but raise when the directory
    cannot be made or the file cannot be opened; else it writes the lines,
    a line feed between two of them, prints the path and returns it. *)
Lemma save_raw_capture_run (fs : filesystem) (project_root : str)
  (lines : list str) (label timestamp : str) (st : IO.state) :
  save_raw_capture fs project_root lines label timestamp st
  = match makedirs_error fs
            (path_join project_root
               ["docs" : str; "performance_captures" : str]) with
    | Some e => (st, Raise e)
    | None =>
        match open_error fs (capture_path project_root label timestamp) with
        | Some e => (st, Raise e)
        | None =>
            ({| IO.console :=
                  IO.console st
                  ++ ["Raw capture saved to: "
                      ++ capture_path project_root label timestamp];
                IO.files :=
                  IO.write (capture_path project_root label timestamp)
                           (join nl lines) (IO.files st) |},
             Ok (capture_path project_root label timestamp))
        end
    end.
Proof.
  unfold save_raw_capture, capture_path, makedirs, open_w, IO.bind.
  destruct (makedirs_error fs _); [reflexivity|]. cbn [ret].
  destruct (open_error fs _); reflexivity.
Qed.

(** What [append_to_tracking_doc] does. *)
Lemma append_to_tracking_doc_run (fs : filesystem)
  (project_root date_str : str) (s : Summary.t) (label : str)
  (st : IO.state) :
  append_to_tracking_doc fs project_root date_str s label st
  = match IO.read (doc_path project_root) (IO.files st) with
    | Some content =>
        match cells s with
        | Raise e => (st, Raise e)
        | Ok c =>
            match open_error fs (doc_path project_root) with
            | Some e => (st, Raise e)
            | None =>
                ({| IO.console :=
                      IO.console st
                      ++ ["Results appended to: " ++ doc_path project_root];
                    IO.files :=
                      IO.write (doc_path project_root)
                               (content ++ row date_str label c)
                               (IO.files st) |}, Ok tt)
            end
        end
    | None =>
        match open_error fs (doc_path project_root) with
        | Some e => (st, Raise e)
        | None =>
            match cells s with
            | Raise e =>
                ({| IO.console := IO.console st;
                    IO.files := IO.write (doc_path project_root) header
                                         (IO.files st) |}, Raise e)
            | Ok c =>
                ({| IO.console :=
                      IO.console st
                      ++ ["Results appended to: " ++ doc_path project_root];
                    IO.files :=
                      IO.write (doc_path project_root)
                               (header ++ row date_str label c)
                               (IO.write (doc_path project_root) header
                                         (IO.files st)) |}, Ok tt)
            end
        end
    end.
Proof.
  unfold append_to_tracking_doc, doc_path, path_exists, open_w, open_a,
    IO.bind, lift.
  destruct (IO.read _ (IO.files st)) as [content|] eqn:R; cbn [negb ret].
  - destruct st as [con fl]. cbn [IO.files IO.console] in *.
    destruct (cells s) as [c|e]; [|reflexivity].
    destruct (open_error fs _); [reflexivity|].
    cbn [IO.files IO.console]. rewrite R. reflexivity.
  - destruct (open_error fs _); [reflexivity|].
    destruct (cells s) as [c|e]; [|reflexivity].
    cbn [IO.files IO.console]. rewrite read_write. reflexivity.
Qed.

(** ** [main] *)

Lemma main_parsed (rt : runtime) (a : Main.args) (w : Main.world) :
  Main.main rt (Main.Parsed a) w (start w)
  = match Main.usable (find_serial_port (Main.opens w) (Main.port a)) with
    | None =>
        (printed ["Error: Could not find serial port. Tried: " ++ Main.port a;
                  ("Make sure the device is connected and the port is correct."
                   : str)] (start w),
         Raise (SystemExit 1))
    | Some p =>
        match Main.capture_serial w p (Main.duration a) with
        | Raise e => (printed (note a p) (start w), Raise e)
        | Ok lines =>
            if negb (nonempty lines) then
              (printed (note a p ++ [("No data captured!" : str)]) (start w),
               Raise (SystemExit 1))
            else
              match extract_metrics rt lines with
              | Raise e => (printed (note a p) (start w), Raise e)
              | Ok m =>
                  match calculate_summary rt m with
                  | Raise e => (printed (note a p) (start w), Raise e)
                  | Ok s =>
                      match reporting a w lines s
                              (printed (note a p) (start w)) with
                      | (st, Raise e) => (st, Raise e)
                      | (st, Ok _) =>
                          if wifi_error m
                          then (printed [Main.warning] st,
                                Raise (SystemExit 2))
                          else (st, Raise (SystemExit 0))
                      end
                  end
              end
        end
    end.
Proof.
  unfold Main.main.
  destruct (Main.usable _) as [p|]; [|reflexivity].
  assert (N : (if negb (str_eqb p (Main.port a))
               then print ("Note: Using " ++ p ++ " instead of " ++ Main.port a)
               else ret tt) (start w)
              = (printed (note a p) (start w), Ok tt)).
  { unfold note. destruct (str_eqb p (Main.port a)); cbn [negb];
      [rewrite printed_nil|]; reflexivity. }
  rewrite (io_bind_Ok _ _ _ _ _ N).
  unfold IO.bind at 1, lift at 1.
  destruct (Main.capture_serial w p (Main.duration a)) as [lines|e];
    [|reflexivity].
  destruct (negb (nonempty lines)).
  { unfold IO.bind, print, Main.sys_exit, raise, printed. cbn.
    reflexivity. }
  unfold IO.bind at 1, lift at 1.
  destruct (extract_metrics rt lines) as [m|e]; [|reflexivity].
  unfold IO.bind at 1, lift at 1.
  destruct (calculate_summary rt m) as [s|e]; [|reflexivity].
  rewrite <- io_bind_assoc. fold (reporting a w lines s).
  unfold IO.bind at 1.
  destruct (reporting a w lines s (printed (note a p) (start w)))
    as (st & [[]|e]); [|reflexivity].
  destruct (wifi_error m); reflexivity.
Qed.

(** What the reporters do to the console: the report comes first. *)
Lemma reporting_run (a : Main.args) (w : Main.world) (lines : list str)
  (s : Summary.t) (st : IO.state) :
  reporting a w lines s st
  = match snd (report s) with
    | Raise e => (printed (fst (report s)) st, Raise e)
    | Ok _ =>
        if Main.no_save a then (printed (fst (report s)) st, Ok tt)
        else
          match save_raw_capture (Main.filesystem w) (Main.project_root w)
                  lines (Main.label a) (Main.timestamp w)
                  (printed (fst (report s)) st) with
          | (st1, Raise e) => (st1, Raise e)
          | (st1, Ok _) =>
              append_to_tracking_doc (Main.filesystem w) (Main.project_root w)
                (Main.date_str w) s (Main.label a) st1
          end
    end.
Proof.
  unfold reporting, IO.bind at 1. rewrite print_summary_run.
  destruct (snd (report s)) as [[]|e]; [|reflexivity].
  destruct (Main.no_save a); cbn [negb]; [reflexivity|].
  unfold IO.bind. destruct (save_raw_capture _ _ _ _ _ _) as (st1 & [x|e]);
    reflexivity.
Qed.

Lemma reporting_console (a : Main.args) (w : Main.world) (lines : list str)
  (s : Summary.t) (st st' : IO.state) (r : result unit) :
  reporting a w lines s st = (st', r) ->
  exists tail, IO.console st' = IO.console st ++ fst (report s) ++ tail.
Proof.
  rewrite reporting_run.
  destruct (snd (report s)) as [[]|e].
  2:{ intros H. injection H as <- _. exists []. cbn. rewrite app_nil_r.
      reflexivity. }
  destruct (Main.no_save a).
  { intros H. injection H as <- _. exists []. cbn. rewrite app_nil_r.
    reflexivity. }
  rewrite save_raw_capture_run.
  destruct (makedirs_error _ _).
  { intros H. injection H as <- _. exists []. cbn. rewrite app_nil_r.
    reflexivity. }
  destruct (open_error _ (capture_path _ _ _)).
  { intros H. injection H as <- _. exists []. cbn. rewrite app_nil_r.
    reflexivity. }
  rewrite append_to_tracking_doc_run. cbn [IO.files IO.console].
  destruct (IO.read _ _);
    [destruct (cells s); [destruct (open_error _ _)|]
    |destruct (open_error _ _); [|destruct (cells s)]];
    intros H; injection H as <- _; cbn [IO.console printed];
    rewrite <- ?app_assoc; eexists; reflexivity.
Qed.


Lemma process_parsed (rt : runtime) (a : Main.args) (w : Main.world)
  (st : IO.state) (r : result unit) :
  Main.main rt (Main.Parsed a) w (start w) = (st, r) ->
  Main.process rt (Main.Parsed a) w
  = {| Main.console := IO.console st; Main.files_after := IO.files st;
       Main.ended := Main.ending_of r |}.
Proof.
  intros H. unfold Main.process. fold (start w). rewrite H. reflexivity.
Qed.




(** ** The tracking document *)

Lemma uint_digits (d : Decimal.uint) :
  Forall (fun c => isdigit c = true)
         (list_ascii_of_string (NilEmpty.string_of_uint d)).
Proof.
  induction d; cbn [NilEmpty.string_of_uint list_ascii_of_string];
    constructor; solve [reflexivity | assumption].
Qed.

Lemma str_of_Z_digits (z : Z) : Forall (fun c => isdigit c = true) (str_of_Z z).
Proof.
  unfold str_of_Z, NilZero.string_of_uint.
  destruct (N.to_uint (Z.to_N z)) eqn:E;
    try (rewrite <- E; apply uint_digits).
  repeat constructor.
Qed.

Lemma str_of_nat_digits (n : nat) :
  Forall (fun c => isdigit c = true) (str_of_nat n).
Proof.
  unfold str_of_nat, NilZero.string_of_uint.
  destruct (Nat.to_uint n) eqn:E; try (rewrite <- E; apply uint_digits).
  repeat constructor.
Qed.

Lemma digits_one_line (s : str) :
  Forall (fun c => isdigit c = true) s -> one_line s.
Proof.
  unfold one_line. intros F I. rewrite Forall_forall in F.
  apply F in I. discriminate I.
Qed.

Lemma one_line_app (a b : str) : one_line a -> one_line b -> one_line (a ++ b).
Proof.
  unfold one_line. intros A B I. apply in_app_or in I. tauto.
Qed.

Lemma fixed_one_line (p : nat) (z : Z) : one_line (fixed p z).
Proof.
  unfold fixed. destruct p as [|p].
  - apply digits_one_line, str_of_Z_digits.
  - apply one_line_app; [apply digits_one_line, str_of_Z_digits|].
    apply one_line_app; [intros [E|[]]; discriminate E|].
    unfold pad. apply one_line_app; [|apply digits_one_line, str_of_Z_digits].
    intros I. apply repeat_spec in I. discriminate I.
Qed.

Lemma format_float_one_line (p : nat) (x : F64.t) :
  one_line (format_float p x).
Proof.
  destruct x; cbn [format_float]; [apply fixed_one_line| |];
    intros I; cbn in I; repeat (destruct I as [I|I]; [discriminate I|]);
    exact I.
Qed.

Lemma format_f_one_line (p : nat) (x : num) (s : str) :
  format_f p x = Ok s -> one_line s.
Proof.
  unfold format_f. destruct x as [z|f].
  - destruct (F64.of_fraction z 1) as [u| |] eqn:E; intros H;
      [|discriminate H|]; injection H as <-;
      [apply (format_float_one_line p (F64.Finite u))
      |apply (format_float_one_line p F64.NaN)].
  - intros H. injection H as <-. apply format_float_one_line.
Qed.

Lemma na_one_line : one_line na.
Proof. intros I. cbn in I. repeat (destruct I as [I|I]; [discriminate I|]). exact I. Qed.

Lemma literal_one_line (s : str) :
  forallb (fun c => negb (Ascii.eqb c "010"%char)) s = true -> one_line s.
Proof.
  intros H I. rewrite forallb_forall in H. apply H in I.
  rewrite Ascii.eqb_refl in I. discriminate I.
Qed.

(** The cells of a row: "N/A" for what the summary lacks, the number
    formatted for what it has; none holds a line feed. *)
Lemma cells_Ok (s : Summary.t) (c : Row.t) :
  cells s = Ok c ->
  (Row.mips_avg c
   = match Summary.mips_avg s with
     | Some v => format_float 2 v
     | None => na
     end)
  /\ (Summary.mips_min s = None -> Row.mips_range c = na)
  /\ (forall lo,
         Summary.mips_min s = Some lo ->
         exists hi,
           format_f 2 (get_float (Summary.mips_max s)) = Ok hi
           /\ Row.mips_range c = format_float 2 lo ++ "-" ++ hi)
  /\ (forall field cell unit,
         (field = Summary.cycles_avg /\ cell = Row.cycles /\ unit = []
          \/ field = Summary.exec_pct_avg /\ cell = Row.exec_pct
             /\ unit = ("%" : str)
          \/ field = Summary.psram_bw_avg /\ cell = Row.psram_bw
             /\ unit = (" KB/s" : str)) ->
         match field s with
         | Some v => exists t, format_f 0 v = Ok t /\ cell c = t ++ unit
         | None => cell c = na
         end)
  /\ Row.bottleneck c = get (Summary.bottleneck s) na
  /\ Row.wifi c = get (Summary.wifi_status s) ("Unknown" : str)
  /\ one_line (Row.mips_avg c) /\ one_line (Row.mips_range c)
  /\ one_line (Row.cycles c) /\ one_line (Row.exec_pct c)
  /\ one_line (Row.psram_bw c).
Proof.
  unfold cells. intros H.
  apply bind_Ok in H as (c1 & H1 & H). apply bind_Ok in H as (c2 & H2 & H).
  apply bind_Ok in H as (c3 & H3 & H). apply bind_Ok in H as (c4 & H4 & H).
  apply bind_Ok in H as (c5 & H5 & H). injection H as <-.
  cbn [Row.mips_avg Row.mips_range Row.cycles Row.exec_pct Row.psram_bw
       Row.bottleneck Row.wifi].
  assert (P3 : match Summary.cycles_avg s with
               | Some v => exists t, format_f 0 v = Ok t /\ c3 = t ++ []
               | None => c3 = na
               end).
  { destruct (Summary.cycles_avg s) as [v|]; cbn [Block.isSome get] in H3.
    - exists c3. rewrite app_nil_r. auto.
    - congruence. }
  assert (P4 : match Summary.exec_pct_avg s with
               | Some v => exists t, format_f 0 v = Ok t /\ c4 = t ++ "%"
               | None => c4 = na
               end).
  { destruct (Summary.exec_pct_avg s) as [v|]; cbn [Block.isSome get] in H4.
    - apply bind_Ok in H4 as (t & Ht & E). injection E as <-. eauto.
    - congruence. }
  assert (P5 : match Summary.psram_bw_avg s with
               | Some v => exists t, format_f 0 v = Ok t /\ c5 = t ++ " KB/s"
               | None => c5 = na
               end).
  { destruct (Summary.psram_bw_avg s) as [v|]; cbn [Block.isSome get] in H5.
    - apply bind_Ok in H5 as (t & Ht & E). injection E as <-. eauto.
    - congruence. }
  assert (P1 : c1 = match Summary.mips_avg s with
                    | Some v => format_float 2 v
                    | None => na
                    end).
  { destruct (Summary.mips_avg s); cbn [Block.isSome get_float format_f] in H1;
      congruence. }
  split; [exact P1|]. split; [|split; [|split; [|split; [|split; [|split; [|split; [|split; [|split]]]]]]]].
  - intros E. rewrite E in H2. cbn [Block.isSome] in H2. congruence.
  - intros lo E. rewrite E in H2. cbn [Block.isSome get_float format_f] in H2.
    cbn [Py.bind] in H2. apply bind_Ok in H2 as (hi & Hhi & E2).
    injection E2 as <-. eauto.
  - intros field cell unit [(-> & -> & ->)|[(-> & -> & ->)|(-> & -> & ->)]];
      cbn [Row.cycles Row.exec_pct Row.psram_bw]; assumption.
  - reflexivity.
  - reflexivity.
  - rewrite P1. destruct (Summary.mips_avg s);
      [apply format_float_one_line | apply na_one_line].
  - destruct (Summary.mips_min s); cbn [Block.isSome] in H2.
    + apply bind_Ok in H2 as (lo & Hlo & H2).
      apply bind_Ok in H2 as (hi & Hhi & H2).
      apply format_f_one_line in Hlo, Hhi.
      assert (L : one_line (lo ++ "-" ++ hi)).
      { apply one_line_app; [exact Hlo|].
        apply one_line_app; [apply literal_one_line; reflexivity | exact Hhi]. }
      injection H2 as <-. exact L.
    + injection H2 as <-. apply na_one_line.
  - destruct (Summary.cycles_avg s).
    + destruct P3 as (t & Ht & ->). rewrite app_nil_r.
      eapply format_f_one_line; exact Ht.
    + subst c3. apply na_one_line.
  - destruct (Summary.exec_pct_avg s).
    + destruct P4 as (t & Ht & E4). rewrite E4.
      apply one_line_app; [eapply format_f_one_line; exact Ht|].
      apply literal_one_line; reflexivity.
    + subst c4. apply na_one_line.
  - destruct (Summary.psram_bw_avg s).
    + destruct P5 as (t & Ht & E5). rewrite E5.
      apply one_line_app; [eapply format_f_one_line; exact Ht|].
      apply literal_one_line; reflexivity.
    + subst c5. apply na_one_line.
Qed.

Lemma line_feeds_app (a b : str) :
  line_feeds (a ++ b) = line_feeds a + line_feeds b.
Proof. apply count_occ_app. Qed.

Lemma line_feeds_one_line (s : str) : one_line s -> line_feeds s = 0.
Proof. intros H. apply count_occ_not_In. exact H. Qed.

(** A row is one line of text when what goes into it has no line feed. *)
Lemma row_one_line (date_str label : str) (s : Summary.t) (c : Row.t) :
  cells s = Ok c ->
  one_line date_str -> one_line label ->
  one_line (get (Summary.bottleneck s) na) ->
  one_line (get (Summary.wifi_status s) ("Unknown" : str)) ->
  line_feeds (row date_str label c) = 1
  /\ exists text, row date_str label c = text ++ nl /\ one_line text.
Proof.
  intros H Hd Hl Hb Hw.
  destruct (cells_Ok s c H) as (_ & _ & _ & _ & Eb & Ew & L1 & L2 & L3 & L4 & L5).
  rewrite <- Eb in Hb. rewrite <- Ew in Hw.
  assert (Sep : forall t : str,
             forallb (fun c => negb (Ascii.eqb c "010"%char)) t = true ->
             line_feeds t = 0)
    by (intros t Ht; apply line_feeds_one_line, literal_one_line, Ht).
  set (text := "| " ++ date_str ++ " | " ++ label ++ " | " ++ Row.mips_avg c
               ++ " | " ++ Row.mips_range c ++ " | " ++ Row.cycles c ++ " | "
               ++ Row.exec_pct c ++ " | " ++ Row.psram_bw c ++ " | "
               ++ Row.bottleneck c ++ " | " ++ Row.wifi c ++ " |").
  assert (E : row date_str label c = text ++ nl).
  { unfold row, text. rewrite <- !app_assoc. reflexivity. }
  assert (T : one_line text).
  { unfold text.
    repeat (apply one_line_app;
            [first [assumption | apply literal_one_line; reflexivity]|]).
    apply literal_one_line; reflexivity. }
  split; [|exists text; split; [exact E | exact T]].
  rewrite E, line_feeds_app, (line_feeds_one_line text T). reflexivity.
Qed.




(** ** A number too long for [int] *)

(** C9 (the code departs from it). With the default cap of the runtime on
    digit strings, a cycle breakdown whose first number has 4301 digits
    makes [int] raise ValueError: the exception leaves
    [parse_profiler_block] and [extract_metrics], and the process ends
    with status 1 without any report. *)
Theorem extraction_raises_on_overlong_number :
  search cycles_re Sample.overlong_line <> None
  /\ parse_profiler_block Reference.cpython [Sample.overlong_line]
     = Raise ValueError
  /\ extract_metrics Reference.cpython Sample.overlong_capture
     = Raise ValueError
  /\ Main.ended (Main.process Reference.cpython (Main.Parsed Sample.args)
                   (Sample.world Sample.overlong_capture))
     = Main.Uncaught ValueError
  /\ Main.console (Main.process Reference.cpython (Main.Parsed Sample.args)
                     (Sample.world Sample.overlong_capture))
     = note Sample.args "/dev/ttyUSB0".
Proof.
  split; [vm_compute; discriminate|].
  split; [vm_compute; reflexivity|].
  split; [vm_compute; reflexivity|].
  split; vm_compute; reflexivity.
Qed.

(** * Further properties of the script *)

(** ** The numbers the parsers return *)

(** A throughput sample is a number (finite or [inf], never [nan]) and is
    never negative. *)
Theorem sample_nonnegative (line : str) (v : F64.t) :
  parse_ips_line line = Ok (Some v) ->
  F64.number v = true /\ le F64.zero v.
Proof.
  intros H. apply sample_is_number in H. split; [exact H|].
  unfold le. destruct v as [u| |]; [|reflexivity | discriminate H].
  apply F64Facts.number_multiple in H as ((L & _) & _).
  cbn [F64.leb F64.zero]. apply Z.leb_le. exact L.
Qed.

Lemma sample_nonnegative_witness :
  parse_ips_line Sample.ips_line = Ok (Some (decimal "2" "07"))
  /\ F64.number (decimal "2" "07") = true
  /\ le F64.zero (decimal "2" "07").
Proof.
  assert (E : parse_ips_line Sample.ips_line = Ok (Some (decimal "2" "07")))
    by reflexivity.
  split; [exact E|]. exact (sample_nonnegative _ _ E).
Defined.

(** The groups of the last line that matches a pattern of the block. *)
Lemma last_some_search (r : regex) (lines : list str) (m : list str) :
  last_some (search r) lines = Some m ->
  exists line, In line lines /\ search r line = Some m.
Proof.
  intros H. apply last_some_Some in H as (l1 & line & l2 & -> & S & _).
  exists line. split; [apply in_or_app; right; left; reflexivity | exact S].
Qed.

Lemma last_cycles_groups (lines : list str) :
  match last_some (search cycles_re) lines with
  | Some m => exists g1 g2 g3 g4 g5,
                m = [g1; g2; g3; g4; g5] /\ Forall digit_run m
  | None => True
  end.
Proof.
  destruct (last_some (search cycles_re) lines) as [m|] eqn:L; [|exact I].
  apply last_some_search in L as (line & _ & S).
  apply search_cycles_groups in S as (g1 & g2 & g3 & g4 & g5 & -> & F).
  exists g1, g2, g3, g4, g5. split; [reflexivity|].
  eapply Forall_impl; [|exact F]. intros g (D & _); exact D.
Qed.

Lemma last_bw_groups (lines : list str) :
  match last_some (search bw_re) lines with
  | Some m => exists g1 g2 g3, m = [g1; g2; g3] /\ Forall digit_run m
  | None => True
  end.
Proof.
  destruct (last_some (search bw_re) lines) as [m|] eqn:L; [|exact I].
  apply last_some_search in L as (line & _ & S).
  apply search_bw_groups in S as (g1 & g2 & g3 & -> & F).
  exists g1, g2, g3. split; [reflexivity|].
  eapply Forall_impl; [|exact F]. intros g (D & _); exact D.
Qed.

(** The five fields of the cycle breakdown are in the block together or
    not at all, and so are the three fields of the bandwidth: a block never
    holds a part of a record. *)
Theorem no_partial_record (rt : runtime) (lines : list str) (b : Block.t) :
  parse_profiler_block rt lines = Ok b ->
  (Block.isSome (Block.fetch_pct b) = Block.isSome (Block.fetch_cycles b)
   /\ Block.isSome (Block.exec_cycles b) = Block.isSome (Block.fetch_cycles b)
   /\ Block.isSome (Block.exec_pct b) = Block.isSome (Block.fetch_cycles b)
   /\ Block.isSome (Block.total_cycles b)
      = Block.isSome (Block.fetch_cycles b))
  /\ (Block.isSome (Block.psram_write_kbps b)
      = Block.isSome (Block.psram_read_kbps b)
      /\ Block.isSome (Block.psram_total_kbps b)
         = Block.isSome (Block.psram_read_kbps b)).
Proof.
  intros H. apply parse_profiler_block_Ok in H. subst b.
  destruct (read_block_fields lines)
    as (-> & -> & -> & -> & -> & -> & -> & -> & _).
  unfold last_group.
  pose proof (last_cycles_groups lines) as C.
  pose proof (last_bw_groups lines) as B.
  destruct (last_some (search cycles_re) lines) as [m|];
    [destruct C as (g1 & g2 & g3 & g4 & g5 & -> & _)|];
    (destruct (last_some (search bw_re) lines) as [m'|];
     [destruct B as (h1 & h2 & h3 & -> & _)|]);
    repeat split.
Qed.

Lemma no_partial_record_witness :
  parse_profiler_block Reference.cpython Sample.silent_lines
  = Ok (read_block Sample.silent_lines)
  /\ Block.isSome (Block.total_cycles (read_block Sample.silent_lines))
     = Block.isSome (Block.fetch_cycles (read_block Sample.silent_lines)).
Proof.
  assert (E : parse_profiler_block Reference.cpython Sample.silent_lines
              = Ok (read_block Sample.silent_lines))
    by (vm_compute; reflexivity).
  split; [exact E|].
  destruct (no_partial_record Reference.cpython Sample.silent_lines _ E)
    as ((_ & _ & _ & H) & _).
  exact H.
Defined.

(** The integers of a block are never negative. *)
Theorem block_fields_nonnegative (rt : runtime) (lines : list str)
  (b : Block.t) :
  parse_profiler_block rt lines = Ok b ->
  Forall (fun field => forall v, field = Some v -> (0 <= v)%Z)
         [Block.fetch_cycles b; Block.fetch_pct b; Block.exec_cycles b;
          Block.exec_pct b; Block.total_cycles b; Block.psram_read_kbps b;
          Block.psram_write_kbps b; Block.psram_total_kbps b].
Proof.
  intros H. apply parse_profiler_block_Ok in H. subst b.
  destruct (read_block_fields lines)
    as (-> & -> & -> & -> & -> & -> & -> & -> & _).
  unfold last_group.
  pose proof (last_cycles_groups lines) as C.
  pose proof (last_bw_groups lines) as B.
  assert (N : forall g v, digit_run g -> Some (digits_value g) = Some v ->
                          (0 <= v)%Z).
  { intros g v (_ & D) E. injection E as <-. apply digits_value_nonneg, D. }
  destruct (last_some (search cycles_re) lines) as [m|];
    [destruct C as (g1 & g2 & g3 & g4 & g5 & -> & C);
     inversion C as [|? ? D1 C1]; inversion C1 as [|? ? D2 C2];
     inversion C2 as [|? ? D3 C3]; inversion C3 as [|? ? D4 C4];
     inversion C4 as [|? ? D5 _]; subst|];
    (destruct (last_some (search bw_re) lines) as [m'|];
     [destruct B as (h1 & h2 & h3 & -> & B);
      inversion B as [|? ? E1 B1]; inversion B1 as [|? ? E2 B2];
      inversion B2 as [|? ? E3 _]; subst|]);
    repeat (apply Forall_cons; [simpl; intros v Hv; first [discriminate | eauto]|]);
    constructor.
Qed.

Lemma block_fields_nonnegative_witness :
  parse_profiler_block Reference.cpython Sample.block_lines
  = Ok (read_block Sample.block_lines)
  /\ (forall v, Block.total_cycles (read_block Sample.block_lines) = Some v ->
                (0 <= v)%Z).
Proof.
  assert (E : parse_profiler_block Reference.cpython Sample.block_lines
              = Ok (read_block Sample.block_lines))
    by (vm_compute; reflexivity).
  split; [exact E|].
  pose proof (block_fields_nonnegative Reference.cpython Sample.block_lines
                _ E) as F.
  rewrite Forall_forall in F. apply F.
  do 4 right. left. reflexivity.
Defined.

(** ** The tag of a block *)

Lemma tag_of_values (line : str) (t : str) :
  tag_of line = Some t -> t = "CPU" \/ t = "PSRAM".
Proof.
  unfold tag_of. destruct (contains "BOTTLENECK: CPU" line);
    [intros H; injection H as <-; left; reflexivity|].
  destruct (contains "BOTTLENECK: PSRAM" line); [|discriminate].
  intros H; injection H as <-; right; reflexivity.
Qed.

(** The tag of a block is "CPU" or "PSRAM" and nothing else; it is "CPU"
    when the last line that holds a tag holds the CPU tag, also when that
    line holds the PSRAM tag as well. *)
Theorem block_tag (rt : runtime) (lines : list str) (b : Block.t) :
  parse_profiler_block rt lines = Ok b ->
  (forall t, Block.bottleneck b = Some t -> t = "CPU" \/ t = "PSRAM")
  /\ (forall l1 line l2,
         lines = l1 ++ line :: l2 ->
         contains "BOTTLENECK: CPU" line = true ->
         Forall (fun l => tag_of l = None) l2 ->
         Block.bottleneck b = Some ("CPU" : str)).
Proof.
  intros H. apply parse_profiler_block_Ok in H. subst b.
  destruct (read_block_fields lines) as (_ & _ & _ & _ & _ & _ & _ & _ & ->).
  split.
  - intros t H. apply last_some_Some in H as (_ & line & _ & _ & T & _).
    apply tag_of_values in T. exact T.
  - intros l1 line l2 E C N. apply last_some_Some.
    exists l1, line, l2. split; [exact E|]. split; [|exact N].
    unfold tag_of. rewrite C. reflexivity.
Qed.

Lemma block_tag_witness :
  parse_profiler_block Reference.cpython
    ["BOTTLENECK: PSRAM" : str; "BOTTLENECK: PSRAM, not BOTTLENECK: CPU" : str]
  = Ok (read_block ["BOTTLENECK: PSRAM" : str;
                    "BOTTLENECK: PSRAM, not BOTTLENECK: CPU" : str])
  /\ Block.bottleneck
       (read_block ["BOTTLENECK: PSRAM" : str;
                    "BOTTLENECK: PSRAM, not BOTTLENECK: CPU" : str])
     = Some ("CPU" : str).
Proof.
  assert (E : parse_profiler_block Reference.cpython
                ["BOTTLENECK: PSRAM" : str;
                 "BOTTLENECK: PSRAM, not BOTTLENECK: CPU" : str]
              = Ok (read_block ["BOTTLENECK: PSRAM" : str;
                                "BOTTLENECK: PSRAM, not BOTTLENECK: CPU" : str]))
    by (vm_compute; reflexivity).
  split; [exact E|].
  destruct (block_tag Reference.cpython _ _ E) as (_ & H).
  apply (H ["BOTTLENECK: PSRAM" : str]
           ("BOTTLENECK: PSRAM, not BOTTLENECK: CPU" : str) []);
    [reflexivity | reflexivity | constructor].
Defined.

(** ** Lines without a sub-pattern, and blocks put end to end *)

Lemma parse_profiler_line_unrecognized (rt : runtime) (b : Block.t)
  (line : str) :
  recognized line = false -> parse_profiler_line rt b line = Ok b.
Proof.
  unfold recognized, tag_of, parse_profiler_line, parse_cycles, parse_bw,
    parse_tag.
  intros H. apply orb_false_iff in H as (H & T).
  apply orb_false_iff in H as (C & B).
  destruct (contains "BOTTLENECK: CPU" line); [discriminate|].
  destruct (contains "BOTTLENECK: PSRAM" line); [discriminate|].
  destruct (search cycles_re line); [discriminate|].
  destruct (search bw_re line); [discriminate|].
  reflexivity.
Qed.

Lemma for_each_unrecognized (rt : runtime) (extra : list str) (b : Block.t) :
  existsb recognized extra = false ->
  for_each (parse_profiler_line rt) extra b = Ok b.
Proof.
  induction extra as [|x extra IH]; cbn [existsb for_each]; intros H;
    [reflexivity|].
  apply orb_false_iff in H as (Hx & H).
  rewrite (parse_profiler_line_unrecognized rt b x Hx). simpl. auto.
Qed.

(** Lines in which none of the three sub-patterns is recognized, put
    anywhere in a block, change neither the block nor whether the parser
    returns. *)
Theorem unrecognized_lines_neutral (rt : runtime) (l1 extra l2 : list str) :
  existsb recognized extra = false ->
  parse_profiler_block rt (l1 ++ extra ++ l2)
  = parse_profiler_block rt (l1 ++ l2).
Proof.
  intros H. unfold parse_profiler_block. rewrite !for_each_app.
  destruct (for_each (parse_profiler_line rt) l1 Block.empty) as [b|e];
    [|reflexivity].
  cbn [Py.bind]. rewrite for_each_app.
  rewrite (for_each_unrecognized rt extra b H). reflexivity.
Qed.

Lemma unrecognized_lines_neutral_witness :
  existsb recognized Sample.silent_lines = false
  /\ parse_profiler_block Reference.cpython
       (Sample.block_lines ++ Sample.silent_lines ++ [])
     = parse_profiler_block Reference.cpython (Sample.block_lines ++ []).
Proof.
  split; [vm_compute; reflexivity|].
  apply unrecognized_lines_neutral. vm_compute. reflexivity.
Defined.

(** Whether a line makes the parser raise does not depend on the block
    gathered so far. *)
Lemma parse_profiler_line_indep (rt : runtime) (b b1 b' : Block.t)
  (line : str) :
  parse_profiler_line rt b line = Ok b1 ->
  parse_profiler_line rt b' line = Ok (read_line b' line).
Proof.
  unfold parse_profiler_line, read_line, parse_cycles, parse_bw.
  destruct (search cycles_re line) as [m|] eqn:S1;
    [apply search_cycles_groups in S1 as (g1 & g2 & g3 & g4 & g5 & -> & F);
     inversion F as [|? ? [D1 _] F1]; inversion F1 as [|? ? [D2 _] F2];
     inversion F2 as [|? ? [D3 _] F3]; inversion F3 as [|? ? [D4 _] F4];
     inversion F4 as [|? ? [D5 _] _]; subst; cbn [group nth_error Py.bind];
     destruct (int rt g1) as [v1|] eqn:E1; [|discriminate];
     destruct (int rt g2) as [v2|] eqn:E2; [|discriminate];
     destruct (int rt g3) as [v3|] eqn:E3; [|discriminate];
     destruct (int rt g4) as [v4|] eqn:E4; [|discriminate];
     destruct (int rt g5) as [v5|] eqn:E5; [|discriminate];
     apply int_Ok in E1, E2, E3, E4, E5; try assumption; subst|];
    cbn [Py.bind];
    (destruct (search bw_re line) as [m'|] eqn:S2;
     [apply search_bw_groups in S2 as (h1 & h2 & h3 & -> & G);
      inversion G as [|? ? [K1 _] G1]; inversion G1 as [|? ? [K2 _] G2];
      inversion G2 as [|? ? [K3 _] _]; subst; cbn [group nth_error Py.bind];
      destruct (int rt h1) as [w1|] eqn:E6; [|discriminate];
      destruct (int rt h2) as [w2|] eqn:E7; [|discriminate];
      destruct (int rt h3) as [w3|] eqn:E8; [|discriminate];
      apply int_Ok in E6, E7, E8; try assumption; subst|]);
    cbn [Py.bind]; intros _; reflexivity.
Qed.

Lemma for_each_indep (rt : runtime) (lines : list str) (b b1 b' : Block.t) :
  for_each (parse_profiler_line rt) lines b = Ok b1 ->
  for_each (parse_profiler_line rt) lines b'
  = Ok (fold_left read_line lines b').
Proof.
  revert b b'; induction lines as [|x lines IH]; simpl; intros b b' H.
  - reflexivity.
  - apply bind_Ok in H as (b2 & H2 & H).
    rewrite (parse_profiler_line_indep rt b b2 b' x H2). simpl.
    eapply IH; exact H.
Qed.

Lemma read_from_fields (b0 : Block.t) (lines : list str) :
  let from (proj : Block.t -> option Z) r i :=
    proj (fold_left read_line lines b0)
    = match last_some (search r) lines with
      | Some m => option_map digits_value (nth_error m i)
      | None => proj b0
      end in
  from Block.fetch_cycles cycles_re 0 /\ from Block.fetch_pct cycles_re 1
  /\ from Block.exec_cycles cycles_re 2 /\ from Block.exec_pct cycles_re 3
  /\ from Block.total_cycles cycles_re 4
  /\ from Block.psram_read_kbps bw_re 0 /\ from Block.psram_write_kbps bw_re 1
  /\ from Block.psram_total_kbps bw_re 2
  /\ Block.bottleneck (fold_left read_line lines b0)
     = or_else (last_some tag_of lines) (Block.bottleneck b0).
Proof.
  cbv zeta.
  repeat split;
    match goal with
    | |- ?proj (fold_left read_line lines b0)
         = match last_some ?f lines with
           | Some m => @?g m
           | None => _
           end =>
        apply (fold_left_last read_line f g proj); intros b x;
        first [apply (read_line_cycles b x) | apply (read_line_bw b x)]
    | |- _ => idtac
    end.
  rewrite (fold_left_last read_line tag_of Some Block.bottleneck)
    by (intros b x; apply read_line_tag).
  reflexivity.
Qed.

(** The block of two runs of lines put end to end holds, field by field,
    what the second run gives and, where the second run gives nothing,
    what the first run gives; it is returned when both runs are parsed. *)
Theorem block_of_concatenation (rt : runtime) (l1 l2 : list str)
  (b1 b2 : Block.t) :
  parse_profiler_block rt l1 = Ok b1 ->
  parse_profiler_block rt l2 = Ok b2 ->
  exists b,
    parse_profiler_block rt (l1 ++ l2) = Ok b
    /\ Block.fetch_cycles b
       = or_else (Block.fetch_cycles b2) (Block.fetch_cycles b1)
    /\ Block.fetch_pct b = or_else (Block.fetch_pct b2) (Block.fetch_pct b1)
    /\ Block.exec_cycles b
       = or_else (Block.exec_cycles b2) (Block.exec_cycles b1)
    /\ Block.exec_pct b = or_else (Block.exec_pct b2) (Block.exec_pct b1)
    /\ Block.total_cycles b
       = or_else (Block.total_cycles b2) (Block.total_cycles b1)
    /\ Block.psram_read_kbps b
       = or_else (Block.psram_read_kbps b2) (Block.psram_read_kbps b1)
    /\ Block.psram_write_kbps b
       = or_else (Block.psram_write_kbps b2) (Block.psram_write_kbps b1)
    /\ Block.psram_total_kbps b
       = or_else (Block.psram_total_kbps b2) (Block.psram_total_kbps b1)
    /\ Block.bottleneck b
       = or_else (Block.bottleneck b2) (Block.bottleneck b1).
Proof.
  intros H1 H2. exists (fold_left read_line l2 b1). split.
  - unfold parse_profiler_block in *. rewrite for_each_app, H1. simpl.
    eapply for_each_indep; exact H2.
  - apply parse_profiler_block_Ok in H2. subst b2. unfold read_block.
    destruct (read_from_fields b1 l2)
      as (-> & -> & -> & -> & -> & -> & -> & -> & ->).
    destruct (read_from_fields Block.empty l2)
      as (-> & -> & -> & -> & -> & -> & -> & -> & ->).
    pose proof (last_cycles_groups l2) as C.
    pose proof (last_bw_groups l2) as B.
    destruct (last_some (search cycles_re) l2) as [m|];
      [destruct C as (g1 & g2 & g3 & g4 & g5 & -> & _)|];
      (destruct (last_some (search bw_re) l2) as [m'|];
       [destruct B as (h1 & h2 & h3 & -> & _)|]);
      destruct (last_some tag_of l2); repeat split.
Qed.

Lemma block_of_concatenation_witness :
  parse_profiler_block Reference.cpython Sample.block_lines
  = Ok (read_block Sample.block_lines)
  /\ parse_profiler_block Reference.cpython
       ["BOTTLENECK: PSRAM" : str] = Ok Sample.block_b
  /\ exists b,
       parse_profiler_block Reference.cpython
         (Sample.block_lines ++ ["BOTTLENECK: PSRAM" : str]) = Ok b
       /\ Block.total_cycles b = Some 125%Z
       /\ Block.bottleneck b = Some ("PSRAM" : str).
Proof.
  assert (E1 : parse_profiler_block Reference.cpython Sample.block_lines
               = Ok (read_block Sample.block_lines))
    by (vm_compute; reflexivity).
  assert (E2 : parse_profiler_block Reference.cpython
                 ["BOTTLENECK: PSRAM" : str] = Ok Sample.block_b)
    by (vm_compute; reflexivity).
  split; [exact E1|]. split; [exact E2|].
  destruct (block_of_concatenation Reference.cpython _ _ _ _ E1 E2)
    as (b & H & _ & _ & _ & _ & T & _ & _ & _ & G).
  exists b. split; [exact H|]. split.
  - rewrite T. vm_compute. reflexivity.
  - rewrite G. vm_compute. reflexivity.
Defined.

(** ** The blocks of any capture *)

Lemma next_blocks (st : scan) (line : str) :
  sc_blocks (next st line) = sc_blocks st
  \/ (closing line = true /\ in_profiler_block st = true
      /\ in_profiler_block (next st line) = false
      /\ Block.truthy (read_block (current_block st)) = true
      /\ sc_blocks (next st line)
         = sc_blocks st ++ [read_block (current_block st)]).
Proof.
  unfold next, closing. destruct (has_start line); [left; reflexivity|].
  destruct (has_end line); simpl; [|destruct (in_profiler_block st); auto].
  destruct (in_profiler_block st); simpl; [|auto].
  destruct (Block.truthy (read_block (current_block st))) eqn:T; auto.
  right. repeat split; reflexivity.
Qed.

Lemma fold_next_truthy (lines : list str) (st : scan) :
  Forall (fun b => Block.truthy b = true) (sc_blocks st) ->
  Forall (fun b => Block.truthy b = true) (sc_blocks (fold_left next lines st)).
Proof.
  revert st; induction lines as [|l lines IH]; simpl; intros st H;
    [assumption|].
  apply IH. destruct (next_blocks st l) as [-> | (_ & _ & _ & T & ->)];
    [assumption|].
  apply Forall_app. split; [assumption | constructor; auto].
Qed.

(** Whatever the capture, no block among the profiler blocks is empty. *)
Theorem emitted_blocks_nonempty (rt : runtime) (lines : list str)
  (m : metrics) :
  extract_metrics rt lines = Ok m ->
  Forall (fun b => Block.truthy b = true) (profiler_blocks m).
Proof.
  intros H. apply extract_metrics_Ok in H. subst m.
  unfold read_metrics. cbn [profiler_blocks].
  apply fold_next_truthy. constructor.
Qed.

Lemma emitted_blocks_nonempty_witness :
  extract_metrics Reference.cpython Sample.capture
  = Ok (read_metrics Sample.capture)
  /\ Forall (fun b => Block.truthy b = true)
            (profiler_blocks (read_metrics Sample.capture)).
Proof.
  assert (E : extract_metrics Reference.cpython Sample.capture
              = Ok (read_metrics Sample.capture))
    by (vm_compute; reflexivity).
  split; [exact E | exact (emitted_blocks_nonempty _ _ _ E)].
Defined.

Lemma next_in_block (st : scan) (line : str) :
  in_profiler_block (next st line)
  = if opening line then true
    else if closing line then false else in_profiler_block st.
Proof.
  unfold next, opening, closing. destruct (has_start line); [reflexivity|].
  destruct (has_end line); simpl; destruct (in_profiler_block st); reflexivity.
Qed.

Lemma fold_next_count (lines : list str) (st : scan) :
  length (sc_blocks (fold_left next lines st))
  <= length (sc_blocks st) + length (filter closing lines)
  /\ length (sc_blocks (fold_left next lines st))
     + (if in_profiler_block (fold_left next lines st) then 1 else 0)
     <= length (sc_blocks st) + (if in_profiler_block st then 1 else 0)
        + length (filter opening lines).
Proof.
  revert st; induction lines as [|l lines IH]; intros st; cbn [fold_left filter].
  - lia.
  - destruct (IH (next st l)) as (A & B).
    pose proof (next_in_block st l) as I.
    assert (OC : opening l = true -> closing l = false)
      by (unfold opening, closing; intros ->; reflexivity).
    destruct (next_blocks st l) as [E | (C & J & J' & _ & E)].
    + rewrite E in A, B. rewrite I in B.
      destruct (opening l) eqn:O; [rewrite (OC eq_refl) in *|];
        destruct (closing l); destruct (in_profiler_block st);
        cbn [length] in *; lia.
    + rewrite E, length_app in A, B. rewrite J' in B. rewrite C, J.
      destruct (opening l) eqn:O; [rewrite (OC eq_refl) in C; discriminate|].
      cbn [length] in *. lia.
Qed.

(** A capture yields at most as many profiler blocks as it has lines that
    hold the start sentinel, and at most as many as it has lines that hold
    the end sentinel and not the start sentinel; without a start sentinel
    it yields none. *)
Theorem block_count_bounded (rt : runtime) (lines : list str) (m : metrics) :
  extract_metrics rt lines = Ok m ->
  length (profiler_blocks m) <= length (filter opening lines)
  /\ length (profiler_blocks m) <= length (filter closing lines)
  /\ (existsb opening lines = false -> profiler_blocks m = []).
Proof.
  intros H. apply extract_metrics_Ok in H. subst m.
  unfold read_metrics. cbn [profiler_blocks].
  destruct (fold_next_count lines scan0) as (A & B). cbn in A, B.
  split; [lia|]. split; [lia|].
  intros N. assert (F : filter opening lines = []).
  { clear A B. induction lines as [|l lines IH]; [reflexivity|].
    cbn [existsb filter] in *. apply orb_false_iff in N as (-> & N). auto. }
  rewrite F in B. cbn [length] in B.
  destruct (sc_blocks (fold_left next lines scan0)); [reflexivity|].
  cbn [length] in B. lia.
Qed.

Lemma block_count_bounded_witness :
  extract_metrics Reference.cpython Sample.capture
  = Ok (read_metrics Sample.capture)
  /\ length (profiler_blocks (read_metrics Sample.capture))
     <= length (filter opening Sample.capture).
Proof.
  assert (E : extract_metrics Reference.cpython Sample.capture
              = Ok (read_metrics Sample.capture))
    by (vm_compute; reflexivity).
  split; [exact E|].
  destruct (block_count_bounded _ _ _ E) as (H & _). exact H.
Defined.

(** ** A capture that goes on *)

Lemma fold_next_blocks_prefix (lines : list str) (st : scan) :
  exists more, sc_blocks (fold_left next lines st) = sc_blocks st ++ more.
Proof.
  revert st; induction lines as [|l lines IH]; simpl; intros st.
  - exists []. symmetry; apply app_nil_r.
  - destruct (IH (next st l)) as (more & ->).
    destruct (next_blocks st l) as [-> | (_ & _ & _ & _ & ->)]; eauto.
    rewrite <- app_assoc. eauto.
Qed.

(** When the extraction of a capture returns, so does the extraction of
    every capture it continues, and nothing of that one is lost: its
    samples and its blocks come first, in their order, and a flag it set
    stays set. *)
Theorem extraction_grows (rt : runtime) (l1 l2 : list str) (m : metrics) :
  extract_metrics rt (l1 ++ l2) = Ok m ->
  exists m1 more,
    extract_metrics rt l1 = Ok m1
    /\ mips_values m = mips_values m1 ++ flat_map samples_of l2
    /\ profiler_blocks m = profiler_blocks m1 ++ more
    /\ wifi_error m = wifi_error m1 || existsb failure_marker l2
    /\ wifi_connected m = wifi_connected m1 || existsb connected_marker l2.
Proof.
  intros H. pose proof (extract_metrics_prefix rt l1 l2 m H) as H1.
  apply extract_metrics_Ok in H. subst m.
  destruct (fold_next_blocks_prefix l2 (fold_left next l1 scan0))
    as (more & B).
  exists (read_metrics l1), more. split; [exact H1|].
  unfold read_metrics.
  cbn [mips_values profiler_blocks wifi_error wifi_connected].
  rewrite fold_left_app, !existsb_app, !next_mips, B.
  cbn [sc_mips scan0 app]. auto.
Qed.

Lemma extraction_grows_witness :
  extract_metrics Reference.cpython (Sample.capture ++ Sample.both_markers)
  = Ok (read_metrics (Sample.capture ++ Sample.both_markers))
  /\ exists m1,
       extract_metrics Reference.cpython Sample.capture = Ok m1
       /\ mips_values (read_metrics (Sample.capture ++ Sample.both_markers))
          = mips_values m1 ++ flat_map samples_of Sample.both_markers.
Proof.
  assert (E : extract_metrics Reference.cpython
                (Sample.capture ++ Sample.both_markers)
              = Ok (read_metrics (Sample.capture ++ Sample.both_markers)))
    by (vm_compute; reflexivity).
  split; [exact E|].
  destruct (extraction_grows _ _ _ _ E) as (m1 & more & H1 & H2 & _).
  exists m1. split; [exact H1 | exact H2].
Defined.

(** ** Lines that cannot matter to the blocks *)

Lemma extract_line_same (rt : runtime) (st st' : scan) (line : str) :
  same_blocks st st' ->
  same_outcome (extract_line rt st line) (extract_line rt st' line).
Proof.
  intros (B & C & I). unfold extract_line.
  destruct (parse_ips_line_returns line) as (o & ->). cbn [Py.bind].
  rewrite <- B, <- C, <- I.
  destruct (contains profiler_start line); [repeat split|].
  destruct (contains profiler_end line && in_profiler_block st).
  - destruct (parse_profiler_block rt (current_block st)) as [b|e];
      cbn [Py.bind same_outcome]; [repeat split | reflexivity].
  - destruct (in_profiler_block st); repeat split.
Qed.

Lemma for_each_same (rt : runtime) (lines : list str) (st st' : scan) :
  same_blocks st st' ->
  same_outcome (for_each (extract_line rt) lines st)
               (for_each (extract_line rt) lines st').
Proof.
  revert st st'; induction lines as [|l lines IH]; intros st st' H;
    cbn [for_each]; [exact H|].
  pose proof (extract_line_same rt st st' l H) as S.
  destruct (extract_line rt st l) as [a|e], (extract_line rt st' l) as [a'|e'];
    cbn [same_outcome Py.bind] in *; try contradiction; auto.
Qed.

(** A line that does not close a block is taken without any [int]. *)
Lemma extract_line_open (rt : runtime) (st : scan) (line : str) :
  opening line || negb (has_end line) = true ->
  extract_line rt st line = Ok (next st line).
Proof.
  intros H. unfold extract_line, next, opening, has_start, has_end in *.
  destruct (samples_of_cases line) as (o & -> & ->). cbn [Py.bind].
  assert (E : match o with Some v => sc_mips st ++ [v] | None => sc_mips st end
              = sc_mips st ++ match o with Some v => [v] | None => [] end)
    by (destruct o; [reflexivity | symmetry; apply app_nil_r]).
  rewrite E.
  destruct (contains profiler_start line); [reflexivity|].
  cbn [orb] in H. apply negb_true_iff in H. rewrite H. cbn [andb].
  destruct (in_profiler_block st); reflexivity.
Qed.

Lemma for_each_open (rt : runtime) (lines : list str) (st : scan) :
  forallb (fun l => opening l || negb (has_end l)) lines = true ->
  for_each (extract_line rt) lines st = Ok (fold_left next lines st).
Proof.
  revert st; induction lines as [|l lines IH]; cbn [for_each forallb fold_left];
    intros st H; [reflexivity|].
  apply andb_true_iff in H as (Hl & H).
  rewrite (extract_line_open rt st l Hl). cbn [Py.bind]. auto.
Qed.

Lemma blocks_of_scan (rt : runtime) (lines : list str) (m : metrics) :
  extract_metrics rt lines = Ok m ->
  exists st, for_each (extract_line rt) lines scan0 = Ok st
             /\ profiler_blocks m = sc_blocks st.
Proof.
  unfold extract_metrics. intros H. apply bind_Ok in H as (st & Hst & H).
  injection H as <-. eauto.
Qed.

Lemma scan_gives_metrics (rt : runtime) (lines : list str) (st : scan) :
  for_each (extract_line rt) lines scan0 = Ok st ->
  exists m, extract_metrics rt lines = Ok m /\ profiler_blocks m = sc_blocks st.
Proof.
  unfold extract_metrics. intros ->. cbn [Py.bind]. eauto.
Qed.

(** The scans of a capture with and without a stretch of lines that close
    no block, when a start sentinel follows the stretch. *)
Lemma dropped_stretch (rt : runtime) (pre dropped rest : list str) (s : str) :
  has_start s = true ->
  forallb (fun l => opening l || negb (has_end l)) dropped = true ->
  same_outcome
    (for_each (extract_line rt) (pre ++ dropped ++ s :: rest) scan0)
    (for_each (extract_line rt) (pre ++ s :: rest) scan0).
Proof.
  intros Hs Hd. rewrite !for_each_app.
  destruct (for_each (extract_line rt) pre scan0) as [st0|e];
    cbn [Py.bind same_outcome]; [|reflexivity].
  rewrite for_each_app, (for_each_open rt dropped st0 Hd). cbn [Py.bind].
  cbn [for_each].
  assert (O : opening s || negb (has_end s) = true)
    by (unfold opening; rewrite Hs; reflexivity).
  rewrite !(extract_line_open rt _ s O). cbn [Py.bind].
  apply for_each_same.
  destruct (next_start (fold_left next dropped st0) s Hs) as (B & C & I).
  destruct (next_start st0 s Hs) as (B' & C' & I').
  unfold same_blocks. rewrite B, C, I, B', C', I'.
  rewrite (next_open dropped st0 Hd). auto.
Qed.

(** Lines that close no block and are followed by a line with the start
    sentinel have no effect on the profiler blocks, whatever they hold:
    taken out of the capture, they leave the same blocks, and the
    extraction returns with them exactly when it returns without them (a
    block opened again before its end is dropped, and its lines are never
    parsed). *)
Theorem reopened_block_dropped (rt : runtime) (pre dropped rest : list str)
  (s : str) :
  has_start s = true ->
  forallb (fun l => opening l || negb (has_end l)) dropped = true ->
  (forall m,
      extract_metrics rt (pre ++ dropped ++ s :: rest) = Ok m ->
      exists m',
        extract_metrics rt (pre ++ s :: rest) = Ok m'
        /\ profiler_blocks m' = profiler_blocks m)
  /\ (forall m',
         extract_metrics rt (pre ++ s :: rest) = Ok m' ->
         exists m,
           extract_metrics rt (pre ++ dropped ++ s :: rest) = Ok m
           /\ profiler_blocks m = profiler_blocks m').
Proof.
  intros Hs Hd. pose proof (dropped_stretch rt pre dropped rest s Hs Hd) as S.
  split.
  - intros m H. apply blocks_of_scan in H as (st & Hst & ->).
    rewrite Hst in S.
    destruct (for_each (extract_line rt) (pre ++ s :: rest) scan0)
      as [st'|e] eqn:E; cbn [same_outcome] in S; [|contradiction].
    destruct (scan_gives_metrics rt _ st' E) as (m' & Hm & B).
    exists m'. split; [exact Hm|]. rewrite B. symmetry. apply S.
  - intros m' H. apply blocks_of_scan in H as (st' & Hst & ->).
    rewrite Hst in S.
    destruct (for_each (extract_line rt) (pre ++ dropped ++ s :: rest) scan0)
      as [st|e] eqn:E; cbn [same_outcome] in S; [|contradiction].
    destruct (scan_gives_metrics rt _ st E) as (m & Hm & B).
    exists m. split; [exact Hm|]. rewrite B. apply S.
Qed.

Lemma reopened_block_dropped_witness :
  has_start profiler_start = true
  /\ forallb (fun l => opening l || negb (has_end l))
             [profiler_start; Sample.overlong_line] = true
  /\ exists m,
       extract_metrics Reference.cpython
         ([] ++ [profiler_start; Sample.overlong_line]
          ++ profiler_start :: Sample.block_lines ++ [profiler_end]) = Ok m
       /\ profiler_blocks m = [read_block Sample.block_lines].
Proof.
  split; [reflexivity|]. split; [vm_compute; reflexivity|].
  destruct (reopened_block_dropped Reference.cpython []
              [profiler_start; Sample.overlong_line]
              (Sample.block_lines ++ [profiler_end]) profiler_start)
    as (_ & H); [reflexivity | vm_compute; reflexivity |].
  destruct (H (read_metrics (profiler_start :: Sample.block_lines
                             ++ [profiler_end])))
    as (m & Hm & B); [vm_compute; reflexivity|].
  exists m. split; [exact Hm|]. rewrite B. vm_compute. reflexivity.
Defined.

(** ** Least, mean and greatest sample *)

Lemma extracted_samples_numbers (rt : runtime) (lines : list str)
  (m : metrics) :
  extract_metrics rt lines = Ok m ->
  Forall (fun v => F64.number v = true) (mips_values m).
Proof.
  intros H. apply extract_metrics_Ok in H. subst m.
  unfold read_metrics. cbn [mips_values]. rewrite next_mips. cbn [app scan0 sc_mips].
  apply Forall_forall. intros v Hv. apply in_flat_map in Hv as (line & _ & Hv).
  unfold samples_of in Hv.
  destruct (parse_ips_line line) as [[x|]|] eqn:P; try contradiction.
  destruct Hv as [<-|[]]. eapply sample_is_number. exact P.
Qed.

(** The samples of an extracted capture are numbers; and when there are
    samples and they are numbers, the minimum and the maximum of the
    summary are samples, every sample lies between them, and so does the
    average. *)
Theorem min_average_max (rt : runtime) :
  (forall lines m,
      extract_metrics rt lines = Ok m ->
      Forall (fun v => F64.number v = true) (mips_values m))
  /\ (forall m s,
         calculate_summary rt m = Ok s -> mips_values m <> [] ->
         Forall (fun v => F64.number v = true) (mips_values m) ->
         exists lo a hi,
           Summary.mips_min s = Some lo /\ Summary.mips_avg s = Some a
           /\ Summary.mips_max s = Some hi
           /\ In lo (mips_values m) /\ In hi (mips_values m)
           /\ Forall (fun v => le lo v /\ le v hi) (mips_values m)
           /\ (le lo a /\ le a hi)).
Proof.
  split; [apply extracted_samples_numbers|].
  intros m s H N Nm. apply calculate_summary_Ok in H as (_ & M & _).
  unfold mips_fields in M.
  destruct (mips_values m) as [|x t] eqn:E; [congruence|].
  destruct M as ((a & Ha & A) & Mn & Mx & _).
  pose proof (first_least_In x t) as I1.
  pose proof (first_greatest_In x t) as I2.
  assert (Nn : Forall (fun v => F64.is_nan v = false) (x :: t))
    by (eapply Forall_impl; [|exact Nm]; intros v Hv;
        apply F64Facts.number_not_nan; exact Hv).
  pose proof (first_least_le x t Nn) as F1.
  pose proof (first_greatest_le x t Nn) as F2.
  assert (F : Forall (fun v => le (first_least x t) v
                               /\ le v (first_greatest x t)) (x :: t)).
  { rewrite Forall_forall in *. intros v Hv. split; [apply F1 | apply F2];
      exact Hv. }
  exists (first_least x t), a, (first_greatest x t).
  split; [exact Mn|]. split; [exact A|]. split; [exact Mx|].
  split; [exact I1|]. split; [exact I2|]. split; [exact F|].
  rewrite Forall_forall in Nm.
  eapply mean_floats_between; [| | |exact F | exact Ha].
  - apply Forall_forall. exact Nm.
  - apply Nm. exact I1.
  - apply Nm. exact I2.
Qed.

Lemma min_average_max_witness :
  mips_values Sample.one_block <> []
  /\ Forall (fun v => F64.number v = true) (mips_values Sample.one_block)
  /\ exists s lo a hi,
       calculate_summary Reference.cpython Sample.one_block = Ok s
       /\ Summary.mips_min s = Some lo /\ Summary.mips_avg s = Some a
       /\ Summary.mips_max s = Some hi
       /\ (le lo a /\ le a hi).
Proof.
  assert (N : mips_values Sample.one_block <> []) by discriminate.
  assert (Nm : forallb F64.number (mips_values Sample.one_block) = true)
    by (vm_compute; reflexivity).
  assert (F : Forall (fun v => F64.number v = true)
                     (mips_values Sample.one_block))
    by (apply Forall_forall; apply forallb_forall; exact Nm).
  assert (R : returns (calculate_summary Reference.cpython Sample.one_block)
              = true) by (vm_compute; reflexivity).
  apply returns_Ok in R as (s & E).
  split; [exact N|]. split; [exact F|].
  destruct (min_average_max Reference.cpython) as (_ & H).
  destruct (H Sample.one_block s E N F)
    as (lo & a & hi & H1 & H2 & H3 & _ & _ & _ & B).
  exists s, lo, a, hi. auto.
Defined.

(** ** The averages of the blocks, and the summary of a capture without
    blocks *)

(** The mean of integers between two integers that binary64 holds lies
    between them, whether it is whole or rounded. *)
Lemma mean_ints_within (lo hi : Z) (l : list Z) (a : num) :
  (0 <= lo)%Z -> exact_int lo = true -> exact_int hi = true ->
  Forall (fun v => (lo <= v <= hi)%Z) l ->
  mean_ints l = Ok a -> within lo hi a.
Proof.
  intros L0 El Eh F. unfold mean_ints.
  destruct l as [|x0 l0]; [discriminate|]. set (l := x0 :: l0) in *.
  assert (Len : (0 < Z.of_nat (length l))%Z) by (subst l; cbn [length]; lia).
  pose proof (sum_bounds lo hi l F) as (Bl & Bh). clearbody l.
  destruct (Z.eqb_spec (sum l mod Z.of_nat (length l)) 0) as [D|D].
  - intros H. injection H as <-. cbn [within]. split.
    + apply Z.div_le_lower_bound; lia.
    + apply Z.div_le_upper_bound; lia.
  - intros H. apply bind_Ok in H as (x & Hx & H). injection H as <-.
    unfold true_divide, F64.of_fraction in Hx.
    assert (P : (0 < 2 ^ 1074)%Z) by (apply Z.pow_pos_nonneg; lia).
    pose proof (F64Facts.round_lower (lo * 2 ^ 1074) (sum l * 2 ^ 1074)
                  (Z.of_nat (length l)) El Len ltac:(nia)) as RL.
    pose proof (F64Facts.round_upper (hi * 2 ^ 1074) (sum l * 2 ^ 1074)
                  (Z.of_nat (length l)) Eh Len ltac:(nia) ltac:(nia)) as RU.
    destruct (F64.round (sum l * 2 ^ 1074) (Z.of_nat (length l)));
      [injection Hx as <- | discriminate | injection Hx as <-];
      cbn [within]; unfold le; auto.
Qed.

(** An average of the summary lies between any two bounds of the values
    of its field in the blocks that binary64 holds: an average of
    percentages between 0 and 100 is between 0 and 100. *)
Theorem block_averages_bounded (rt : runtime) (m : metrics) (s : Summary.t)
  (lo hi : Z) :
  calculate_summary rt m = Ok s ->
  (0 <= lo)%Z -> exact_int lo = true -> exact_int hi = true ->
  let bounded (field : Block.t -> option Z) (avg : option num) :=
    (forall b v, In b (profiler_blocks m) -> field b = Some v ->
                 (lo <= v <= hi)%Z) ->
    forall a, avg = Some a -> within lo hi a in
  bounded Block.total_cycles (Summary.cycles_avg s)
  /\ bounded Block.exec_pct (Summary.exec_pct_avg s)
  /\ bounded Block.psram_total_kbps (Summary.psram_bw_avg s).
Proof.
  intros H L0 El Eh. cbv zeta.
  apply calculate_summary_Ok in H as (_ & _ & P). unfold profiler_fields in P.
  assert (G : forall field avg,
             average_of field (profiler_blocks m) avg ->
             (forall b v, In b (profiler_blocks m) -> field b = Some v ->
                          (lo <= v <= hi)%Z) ->
             forall a, avg = Some a -> within lo hi a).
  { intros field avg A B a Ea. unfold average_of, every in A.
    destruct (forallb _ (profiler_blocks m)) eqn:E; [|congruence].
    destruct A as (a' & Ha & Ea'). assert (a' = a) by congruence. subst a'.
    eapply mean_ints_within; [exact L0 | exact El | exact Eh | | exact Ha].
    unfold field_values. apply Forall_map. apply Forall_forall. intros b Hb.
    rewrite forallb_forall in E. specialize (E b Hb).
    destruct (field b) as [v|] eqn:Fb; [|discriminate E]. cbn [get].
    exact (B b v Hb Fb). }
  destruct (profiler_blocks m) as [|b0 bs] eqn:E.
  - destruct P as (-> & -> & -> & _).
    split; [|split]; intros _ a Ha; discriminate.
  - destruct P as (A1 & A2 & A3 & _).
    split; [|split]; intros B a Ha;
      [exact (G _ _ A1 B a Ha) | exact (G _ _ A2 B a Ha)
      | exact (G _ _ A3 B a Ha)].
Qed.

Lemma block_averages_bounded_witness :
  exact_int 0 = true /\ exact_int 100 = true
  /\ (forall b v,
        In b (profiler_blocks Sample.one_block) -> Block.exec_pct b = Some v ->
        (0 <= v <= 100)%Z)
  /\ exists s,
       calculate_summary Reference.cpython Sample.one_block = Ok s
       /\ Summary.exec_pct_avg s = Some (Int 89)
       /\ within 0 100 (Int 89).
Proof.
  assert (E0 : exact_int 0 = true) by (vm_compute; reflexivity).
  assert (E1 : exact_int 100 = true) by (vm_compute; reflexivity).
  assert (B : forall b v,
             In b (profiler_blocks Sample.one_block) ->
             Block.exec_pct b = Some v -> (0 <= v <= 100)%Z).
  { intros b v [<-|[]] Hv. injection Hv as <-. lia. }
  pose (s := value Summary.empty
               (calculate_summary Reference.cpython Sample.one_block)).
  assert (E : calculate_summary Reference.cpython Sample.one_block = Ok s)
    by (vm_compute; reflexivity).
  assert (A : Summary.exec_pct_avg s = Some (Int 89))
    by (vm_compute; reflexivity).
  split; [exact E0|]. split; [exact E1|]. split; [exact B|].
  exists s. split; [exact E|]. split; [exact A|].
  destruct (block_averages_bounded Reference.cpython Sample.one_block s
              0%Z 100%Z E (Z.le_refl 0) E0 E1) as (_ & H & _).
  exact (H B _ A).
Defined.

(** The summary of a capture without profiler blocks has none of the
    profiler statistics, and the summary of a capture with neither blocks
    nor samples has the status and nothing else. *)
Theorem summary_without_blocks (rt : runtime) (m : metrics) (s : Summary.t) :
  calculate_summary rt m = Ok s -> profiler_blocks m = [] ->
  Summary.cycles_avg s = None /\ Summary.exec_pct_avg s = None
  /\ Summary.psram_bw_avg s = None /\ Summary.bottleneck s = None
  /\ Summary.profiler_count s = None
  /\ (mips_values m = [] ->
      s = Summary.set_wifi_status Summary.empty (wifi_status_of m)).
Proof.
  intros H E. apply calculate_summary_Ok in H as (W & M & P).
  rewrite E in P. cbn [profiler_fields] in P.
  destruct P as (P1 & P2 & P3 & P4 & P5).
  do 5 (split; [assumption|]).
  intros Ev. rewrite Ev in M. cbn [mips_fields] in M.
  destruct M as (M1 & M2 & M3 & M4 & M5).
  destruct s. cbn in *. subst. reflexivity.
Qed.

Lemma summary_without_blocks_witness :
  profiler_blocks Sample.one_sample = []
  /\ exists s,
       calculate_summary Reference.cpython Sample.one_sample = Ok s
       /\ Summary.bottleneck s = None /\ Summary.profiler_count s = None.
Proof.
  assert (R : returns (calculate_summary Reference.cpython Sample.one_sample)
              = true) by (vm_compute; reflexivity).
  apply returns_Ok in R as (s & E).
  split; [reflexivity|]. exists s. split; [exact E|].
  destruct (summary_without_blocks Reference.cpython Sample.one_sample s E
              eq_refl) as (_ & _ & _ & B & C & _).
  split; [exact B | exact C].
Defined.

(** ** From the capture to the bottleneck *)

Lemma fold_next_read (lines : list str) (st : scan) :
  Forall (fun b => exists ls, b = read_block ls) (sc_blocks st) ->
  Forall (fun b => exists ls, b = read_block ls)
         (sc_blocks (fold_left next lines st)).
Proof.
  revert st; induction lines as [|l lines IH]; simpl; intros st H;
    [assumption|].
  apply IH. destruct (next_blocks st l) as [-> | (_ & _ & _ & _ & ->)];
    [assumption|].
  apply Forall_app. split; [assumption | constructor; eauto].
Qed.

Lemma first_max_In {A} (key : A -> nat) (x : A) (t : list A) :
  In (first_max key x t) (x :: t).
Proof.
  destruct (first_max_spec key x t) as (before & after & E & _).
  rewrite E. apply in_or_app. right. left. reflexivity.
Qed.

(** The bottleneck in the summary of a capture is "CPU", "PSRAM" or
    "Unknown". *)
Theorem bottleneck_label (rt : runtime) (lines : list str) (m : metrics)
  (s : Summary.t) (t : str) :
  extract_metrics rt lines = Ok m -> calculate_summary rt m = Ok s ->
  Summary.bottleneck s = Some t ->
  t = "CPU" \/ t = "PSRAM" \/ t = "Unknown".
Proof.
  intros Hm Hs. apply extract_metrics_Ok in Hm.
  apply calculate_summary_Ok in Hs as (_ & _ & P).
  assert (R : Forall (fun b => exists ls, b = read_block ls)
                     (profiler_blocks m)).
  { subst m. unfold read_metrics. cbn [profiler_blocks].
    apply fold_next_read. constructor. }
  unfold profiler_fields in P.
  destruct (profiler_blocks m) as [|b blocks] eqn:E.
  - destruct P as (_ & _ & _ & -> & _). discriminate.
  - destruct P as (_ & _ & _ & -> & _).
    intros H. injection H as <-.
    assert (I : In (winner rt (b :: blocks)) (votes (b :: blocks))).
    { unfold winner.
      pose proof (set_iter_nonempty rt (votes (b :: blocks))) as N.
      destruct (set_iter rt (votes (b :: blocks))) as [|x u] eqn:S;
        [exfalso; apply N; [discriminate | reflexivity]|].
      apply (set_iter_In rt). rewrite S. apply first_max_In. }
    unfold votes in I. apply in_map_iff in I as (b' & <- & Hb).
    rewrite Forall_forall in R. destruct (R b' Hb) as (ls & ->).
    destruct (read_block_fields ls) as (_ & _ & _ & _ & _ & _ & _ & _ & ->).
    destruct (last_some tag_of ls) as [tag|] eqn:L; cbn [get].
    + apply last_some_Some in L as (_ & line & _ & _ & T & _).
      apply tag_of_values in T. tauto.
    + auto.
Qed.

Lemma bottleneck_label_witness :
  extract_metrics Reference.cpython Sample.capture
  = Ok (read_metrics Sample.capture)
  /\ exists s,
       calculate_summary Reference.cpython (read_metrics Sample.capture)
       = Ok s
       /\ Summary.bottleneck s = Some ("CPU" : str)
       /\ (("CPU" : str) = "CPU" \/ ("CPU" : str) = "PSRAM"
           \/ ("CPU" : str) = "Unknown").
Proof.
  assert (E : extract_metrics Reference.cpython Sample.capture
              = Ok (read_metrics Sample.capture))
    by (vm_compute; reflexivity).
  pose (s := value Summary.empty
               (calculate_summary Reference.cpython
                  (read_metrics Sample.capture))).
  assert (Hs : calculate_summary Reference.cpython
                 (read_metrics Sample.capture) = Ok s)
    by (vm_compute; reflexivity).
  assert (B : Summary.bottleneck s = Some ("CPU" : str))
    by (vm_compute; reflexivity).
  split; [exact E|]. exists s. split; [exact Hs|]. split; [exact B|].
  exact (bottleneck_label Reference.cpython Sample.capture _ s _ E Hs B).
Defined.

(** ** The raw capture *)

Lemma split_on_nonempty (sep : ascii) (s : str) : split_on sep s <> [].
Proof.
  destruct s as [|c s]; cbn [split_on]; [discriminate|].
  destruct (Ascii.eqb c sep); [discriminate|].
  destruct (split_on sep s); discriminate.
Qed.





(** The path of the raw capture ends with the name of the file. *)
Lemma capture_path_name (project_root label timestamp : str) :
  exists dir,
    capture_path project_root label timestamp
    = dir ++ timestamp ++ "_" ++ underscores label ++ ".txt".
Proof.
  unfold capture_path.
  set (d := path_join project_root _).
  set (f := timestamp ++ "_" ++ underscores label ++ ".txt").
  unfold path_join at 1. cbn [fold_left].
  destruct (startswith f "/"); [exists []; reflexivity|].
  destruct (negb (nonempty d) || ends_with_sep d);
    [exists d; reflexivity|].
  exists (d ++ "/"). rewrite <- app_assoc. reflexivity.
Qed.



(** ** The port *)

Lemma first_port_spec (opens : str -> bool) (ports : list str) :
  match first_port opens ports with
  | Some p =>
      opens p = true
      /\ exists before after,
           ports = before ++ p :: after
           /\ Forall (fun q => opens q = false) before
  | None => Forall (fun q => opens q = false) ports
  end.
Proof.
  induction ports as [|q ports IH]; cbn [first_port]; [constructor|].
  destruct (opens q) eqn:O.
  - split; [exact O|]. exists [], ports. split; [reflexivity | constructor].
  - destruct (first_port opens ports) as [p|].
    + destruct IH as (Hp & before & after & -> & F). split; [exact Hp|].
      exists (q :: before), after. split; [reflexivity|].
      constructor; assumption.
    + constructor; assumption.
Qed.

(** [find_serial_port] returns the first port that opens among the
    preferred port and the three backup ports, in that order: the
    preferred port whenever it opens, a backup port only when the preferred
    port and the backup ports before it do not open, and nothing exactly
    when none of the four opens. *)
Theorem find_serial_port_first (opens : str -> bool) (preferred_port : str) :
  match find_serial_port opens preferred_port with
  | Some p =>
      opens p = true
      /\ exists before after,
           preferred_port :: BACKUP_SERIAL_PORTS = before ++ p :: after
           /\ Forall (fun q => opens q = false) before
  | None =>
      Forall (fun q => opens q = false) (preferred_port :: BACKUP_SERIAL_PORTS)
  end
  /\ (opens preferred_port = true ->
      find_serial_port opens preferred_port = Some preferred_port)
  /\ (find_serial_port opens preferred_port = None <->
      Forall (fun q => opens q = false)
             (preferred_port :: BACKUP_SERIAL_PORTS)).
Proof.
  unfold find_serial_port. cbn [app].
  pose proof (first_port_spec opens (preferred_port :: BACKUP_SERIAL_PORTS))
    as S.
  split; [exact S|]. split.
  - intros O. cbn [first_port]. rewrite O. reflexivity.
  - destruct (first_port opens (preferred_port :: BACKUP_SERIAL_PORTS))
      as [p|]; split; auto; try discriminate.
    intros F. destruct S as (Hp & before & after & E & _).
    rewrite Forall_forall in F. rewrite F in Hp; [discriminate|].
    rewrite E. apply in_or_app. right. left. reflexivity.
Qed.

Lemma find_serial_port_first_witness :
  find_serial_port (fun p => str_eqb p "/dev/ttyUSB0") DEFAULT_SERIAL_PORT
  = Some ("/dev/ttyUSB0" : str)
  /\ (find_serial_port (fun p => false) DEFAULT_SERIAL_PORT = None <->
      Forall (fun q => false = false)
             (DEFAULT_SERIAL_PORT :: BACKUP_SERIAL_PORTS)).
Proof.
  split; [reflexivity|].
  apply (find_serial_port_first (fun p => false) DEFAULT_SERIAL_PORT).
Defined.

(** ** The note on the port *)

(** What a run that has parsed its command line prints starts with the
    note on the port, except when no port is found. *)
Lemma console_after_note (rt : runtime) (a : Main.args) (w : Main.world)
  (p : str) :
  Main.usable (find_serial_port (Main.opens w) (Main.port a)) = Some p ->
  exists rest,
    Main.console (Main.process rt (Main.Parsed a) w) = note a p ++ rest
    /\ (rest = []
        \/ (exists tail, rest = ("No data captured!" : str) :: tail)
        \/ exists tail, rest = (nl ++ repeat "="%char 60) :: tail).
Proof.
  intros U. pose proof (main_parsed rt a w) as M. rewrite U in M.
  destruct (Main.capture_serial w p (Main.duration a)) as [lines|e].
  2:{ rewrite (process_parsed _ _ _ _ _ M). exists []. cbn.
      rewrite app_nil_r. auto. }
  destruct (negb (nonempty lines)).
  { rewrite (process_parsed _ _ _ _ _ M). eexists. cbn. eauto. }
  destruct (extract_metrics rt lines) as [m|e].
  2:{ rewrite (process_parsed _ _ _ _ _ M). exists []. cbn.
      rewrite app_nil_r. auto. }
  destruct (calculate_summary rt m) as [s|e].
  2:{ rewrite (process_parsed _ _ _ _ _ M). exists []. cbn.
      rewrite app_nil_r. auto. }
  destruct (reporting a w lines s (printed (note a p) (start w)))
    as (st & r) eqn:R.
  destruct (reporting_console _ _ _ _ _ _ _ R) as (tail & T).
  destruct (report_head s) as (body & B). rewrite B in T.
  cbn [printed start IO.console app] in T.
  destruct r as [[]|e]; [destruct (wifi_error m)|];
    rewrite (process_parsed _ _ _ _ _ M);
    cbn [Main.console printed IO.console]; rewrite T;
    rewrite <- ?app_assoc; cbn [app]; eexists; split;
    try reflexivity; right; right; eexists; reflexivity.
Qed.

(** The note on the port is the first thing the process prints when the
    port it found is not the one asked for, whatever happens next; when
    the port asked for was found, or no port at all, what the process
    prints does not start with a note. *)
Theorem port_note (rt : runtime) (a : Main.args) (w : Main.world) :
  let text p := ("Note: Using " : str) ++ p ++ " instead of " ++ Main.port a in
  (forall p,
      Main.usable (find_serial_port (Main.opens w) (Main.port a)) = Some p ->
      p <> Main.port a ->
      exists rest,
        Main.console (Main.process rt (Main.Parsed a) w) = text p :: rest)
  /\ (Main.usable (find_serial_port (Main.opens w) (Main.port a)) = None
      \/ Main.usable (find_serial_port (Main.opens w) (Main.port a))
         = Some (Main.port a) ->
      forall p rest,
        Main.console (Main.process rt (Main.Parsed a) w) <> text p :: rest).
Proof.
  cbv zeta. split.
  - intros p U N.
    destruct (console_after_note rt a w p U) as (rest & -> & _).
    unfold note.
    destruct (str_eqb p (Main.port a)) eqn:E;
      [apply str_eqb_eq in E; contradiction|].
    eexists. reflexivity.
  - intros [U|U] p rest.
    + pose proof (main_parsed rt a w) as M. rewrite U in M.
      rewrite (process_parsed _ _ _ _ _ M). cbn. discriminate.
    + destruct (console_after_note rt a w _ U) as (tl & -> & H).
      unfold note. rewrite str_eqb_refl. cbn [app].
      destruct H as [-> | [(tail & ->) | (tail & ->)]]; cbn; discriminate.
Qed.

Lemma port_note_witness :
  Main.usable (find_serial_port (Main.opens (Sample.world Sample.capture))
                 (Main.port Sample.args))
  = Some ("/dev/ttyUSB0" : str)
  /\ ("/dev/ttyUSB0" : str) <> Main.port Sample.args
  /\ exists rest,
       Main.console (Main.process Reference.cpython (Main.Parsed Sample.args)
                       (Sample.world Sample.capture))
       = (("Note: Using " : str) ++ "/dev/ttyUSB0" ++ " instead of "
          ++ Main.port Sample.args) :: rest.
Proof.
  assert (N : ("/dev/ttyUSB0" : str) <> Main.port Sample.args)
    by discriminate.
  split; [reflexivity|]. split; [exact N|].
  destruct (port_note Reference.cpython Sample.args
              (Sample.world Sample.capture)) as (H & _).
  exact (H _ eq_refl N).
Defined.
(** ** The console report *)

Lemma format_f_Float (p : nat) (v : F64.t) :
  format_f p (Float v) = Ok (format_float p v).
Proof. reflexivity. Qed.

Lemma format_f_get_float (o : option F64.t) :
  format_f 2 (get_float o)
  = Ok (match o with
        | Some v => format_float 2 v
        | None => "0.00"
        end).
Proof. destruct o as [v|]; [reflexivity | vm_compute; reflexivity]. Qed.

Lemma format_f_Raise (p : nat) (x : num) (e : exn) :
  format_f p x = Raise e -> e = OverflowError.
Proof.
  unfold format_f. destruct x as [z|f]; [|discriminate].
  destruct (F64.of_fraction z 1); intros H; try discriminate H.
  injection H as <-. reflexivity.
Qed.

Ltac format_cases :=
  repeat match goal with
         | |- context [format_f 0 ?v] =>
             let t := fresh "t" in
             let e := fresh "e" in
             let E := fresh "E" in
             destruct (format_f 0 v) as [t|e] eqn:E;
             [|apply format_f_Raise in E; subst e];
             cbn [Py.bind returns]
         end.

Ltac report_case :=
  cbv [IO.bind print print_f lift ret IO.console IO.files fst snd];
  cbn [app Block.isSome andb];
  split; [auto|]; split;
  [ split; [intros H; try discriminate H; auto
           |intros [H|(H1 & H2 & H3)];
            try discriminate H; try discriminate H1; try discriminate H2;
            try discriminate H3; reflexivity]
  | intros H; try discriminate H;
    match goal with
    | |- exists body, _ :: _ :: _ :: _ :: ?X = _ /\ _ =>
        exists (removelast X)
    end; cbn [removelast app length Nat.add]; split; reflexivity ].

(** What the report of [print_summary] is, whatever the summary. *)
Lemma report_cases (s : Summary.t) :
  (snd (report s) = Ok tt \/ snd (report s) = Raise OverflowError)
  /\ (snd (report s) = Ok tt <->
      Block.isSome (Summary.profiler_count s) = false
      \/ (formattable (Summary.cycles_avg s) = true
          /\ formattable (Summary.exec_pct_avg s) = true
          /\ formattable (Summary.psram_bw_avg s) = true))
  /\ (snd (report s) = Ok tt ->
      exists body,
        fst (report s)
        = [nl ++ repeat "="%char 60; ("PERFORMANCE CAPTURE SUMMARY" : str);
           repeat "="%char 60;
           nl ++ "WiFi Status: "
           ++ get (Summary.wifi_status s) ("Unknown" : str)]
          ++ body ++ [nl ++ repeat "="%char 60]
        /\ length body
           = (if Block.isSome (Summary.mips_avg s)
              then 3 + (if Block.isSome (Summary.mips_stdev s) then 1 else 0)
              else 1)
             + (if Block.isSome (Summary.profiler_count s)
                then 2
                     + (if Block.isSome (Summary.cycles_avg s) then 1 else 0)
                     + (if Block.isSome (Summary.exec_pct_avg s) then 1 else 0)
                     + (if Block.isSome (Summary.psram_bw_avg s) then 1 else 0)
                else 1)).
Proof.
  unfold report, print_summary, formattable.
  rewrite !format_f_get_float.
  destruct (Summary.profiler_count s) as [n|].
  - destruct (Summary.mips_avg s) as [a|], (Summary.mips_stdev s) as [d|],
      (Summary.cycles_avg s) as [c|], (Summary.exec_pct_avg s) as [x|],
      (Summary.psram_bw_avg s) as [b|];
      cbn [Block.isSome getitem Py.bind get format_f returns];
      format_cases; report_case.
  - destruct (Summary.mips_avg s) as [a|], (Summary.mips_stdev s) as [d|];
      cbn [Block.isSome getitem Py.bind get format_f returns];
      report_case.
Qed.

(** [print_summary] prints its report whatever was printed before and
    writes nothing.  The report opens with the ruled title and the status.
    It raises nothing but OverflowError, and that exactly when there is a
    profiler count and [format] finds no float for one of the averages
    present.  When it returns the report closes with a rule, and between
    the status and the rule has one line when there is no average of the
    samples and three, or four with a standard deviation, when there is
    one; then one line when there is no profiler count and, when there is
    one, two lines and one more for each average present. *)
Theorem report_of_any_summary (s : Summary.t) :
  (forall st, print_summary s st = (printed (fst (report s)) st, snd (report s)))
  /\ (exists rest,
         fst (report s)
         = [nl ++ repeat "="%char 60; ("PERFORMANCE CAPTURE SUMMARY" : str);
            repeat "="%char 60;
            nl ++ "WiFi Status: "
            ++ get (Summary.wifi_status s) ("Unknown" : str)] ++ rest)
  /\ (snd (report s) = Ok tt \/ snd (report s) = Raise OverflowError)
  /\ (snd (report s) = Ok tt <->
      Block.isSome (Summary.profiler_count s) = false
      \/ (formattable (Summary.cycles_avg s) = true
          /\ formattable (Summary.exec_pct_avg s) = true
          /\ formattable (Summary.psram_bw_avg s) = true))
  /\ (snd (report s) = Ok tt ->
      exists body,
        fst (report s)
        = [nl ++ repeat "="%char 60; ("PERFORMANCE CAPTURE SUMMARY" : str);
           repeat "="%char 60;
           nl ++ "WiFi Status: "
           ++ get (Summary.wifi_status s) ("Unknown" : str)]
          ++ body ++ [nl ++ repeat "="%char 60]
        /\ length body
           = (if Block.isSome (Summary.mips_avg s)
              then 3 + (if Block.isSome (Summary.mips_stdev s) then 1 else 0)
              else 1)
             + (if Block.isSome (Summary.profiler_count s)
                then 2
                     + (if Block.isSome (Summary.cycles_avg s) then 1 else 0)
                     + (if Block.isSome (Summary.exec_pct_avg s) then 1 else 0)
                     + (if Block.isSome (Summary.psram_bw_avg s) then 1 else 0)
                else 1)).
Proof.
  split; [apply print_summary_run|]. split; [apply report_head|].
  apply report_cases.
Qed.
(** ** The tracking document over many runs *)

(** What a returning [append_to_tracking_doc] leaves. *)
Lemma append_to_tracking_doc_Ok (fs : filesystem)
  (project_root d : str) (s : Summary.t) (l : str) (st st' : IO.state) :
  append_to_tracking_doc fs project_root d s l st = (st', Ok tt) ->
  exists c,
    cells s = Ok c
    /\ IO.read (doc_path project_root) (IO.files st')
       = Some (ledger project_root (IO.files st) ++ row d l c)
    /\ (forall q,
           q <> doc_path project_root ->
           IO.read q (IO.files st') = IO.read q (IO.files st)).
Proof.
  rewrite append_to_tracking_doc_run. unfold ledger.
  destruct (IO.read (doc_path project_root) (IO.files st)) as [content|].
  - destruct (cells s) as [c|e]; [|discriminate].
    destruct (open_error fs _); [discriminate|].
    intros H. injection H as <-. exists c. cbn [IO.files].
    split; [reflexivity|]. split; [apply read_write|].
    intros q N. apply read_write_other. exact N.
  - destruct (open_error fs _); [discriminate|].
    destruct (cells s) as [c|e]; [|discriminate].
    intros H. injection H as <-. exists c. cbn [IO.files].
    split; [reflexivity|]. split; [apply read_write|].
    intros q N. rewrite !read_write_other by exact N. reflexivity.
Qed.

Lemma append_all_Ok (fs : filesystem) (project_root : str)
  (runs : list (str * Summary.t * str)) (st st' : IO.state) :
  append_all fs project_root runs st = (st', Ok tt) ->
  exists rows,
    Forall2 (fun r text =>
               exists c, cells (snd (fst r)) = Ok c
                         /\ text = row (fst (fst r)) (snd r) c)
            runs rows
    /\ IO.read (doc_path project_root) (IO.files st')
       = match runs with
         | [] => IO.read (doc_path project_root) (IO.files st)
         | _ :: _ =>
             Some (ledger project_root (IO.files st) ++ concat rows)
         end
    /\ (forall q,
           q <> doc_path project_root ->
           IO.read q (IO.files st') = IO.read q (IO.files st)).
Proof.
  revert st. induction runs as [|[[d s] l] runs IH]; intros st H.
  - injection H as <-. exists []. split; [constructor|]. auto.
  - cbn [append_all] in H. unfold IO.bind in H.
    destruct (append_to_tracking_doc fs project_root d s l st)
      as (st1 & [[]|e]) eqn:A; [|discriminate H].
    apply append_to_tracking_doc_Ok in A as (c & Hc & R1 & O1).
    destruct (IH st1 H) as (rows & F & R & O).
    exists (row d l c :: rows).
    split; [constructor; [exists c; auto | exact F]|].
    split.
    + rewrite R. cbn [concat]. destruct runs as [|r runs].
      * inversion F. subst. cbn [concat]. rewrite app_nil_r. exact R1.
      * unfold ledger at 1. rewrite R1, <- app_assoc. reflexivity.
    + intros q N. rewrite O, O1 by exact N. reflexivity.
Qed.

Lemma rows_line_feeds (runs : list (str * Summary.t * str))
  (rows : list str) :
  Forall2 (fun r text =>
             exists c, cells (snd (fst r)) = Ok c
                       /\ text = row (fst (fst r)) (snd r) c)
          runs rows ->
  Forall tidy runs ->
  line_feeds (concat rows) = length runs.
Proof.
  induction 1 as [|r text runs rows (c & Hc & ->) F IH]; intros T;
    [reflexivity|].
  inversion T as [|? ? (T1 & T2 & T3 & T4) T']; subst.
  cbn [concat length]. rewrite line_feeds_app, IH by exact T'.
  destruct (row_one_line _ _ _ _ Hc T1 T2 T3 T4) as (-> & _). reflexivity.
Qed.

(** When the runs of [append_to_tracking_doc] all return, the tracking
    document is what it was before the first of them (the header if it
    did not exist) followed by the rows of the runs, one for each, in
    their order, and no other file has changed; without a run it is left
    as it is, and is not created.  When the dates, the labels, the
    bottlenecks and the statuses have no line feed, the document has one
    line more for each run. *)
Theorem tracking_doc_after_runs (fs : filesystem) (project_root : str)
  (runs : list (str * Summary.t * str)) (st st' : IO.state) :
  append_all fs project_root runs st = (st', Ok tt) ->
  exists rows,
    Forall2 (fun r text =>
               exists c, cells (snd (fst r)) = Ok c
                         /\ text = row (fst (fst r)) (snd r) c)
            runs rows
    /\ IO.read (doc_path project_root) (IO.files st')
       = match runs with
         | [] => IO.read (doc_path project_root) (IO.files st)
         | _ :: _ =>
             Some (ledger project_root (IO.files st) ++ concat rows)
         end
    /\ (forall q,
           q <> doc_path project_root ->
           IO.read q (IO.files st') = IO.read q (IO.files st))
    /\ (Forall tidy runs ->
        runs <> [] ->
        line_feeds (ledger project_root (IO.files st'))
        = line_feeds (ledger project_root (IO.files st)) + length runs).
Proof.
  intros H. destruct (append_all_Ok _ _ _ _ _ H) as (rows & F & R & O).
  exists rows. split; [exact F|]. split; [exact R|]. split; [exact O|].
  intros T N. unfold ledger at 1. rewrite R.
  destruct runs as [|r runs]; [congruence|].
  rewrite line_feeds_app, (rows_line_feeds _ _ F T). reflexivity.
Qed.

Lemma tracking_doc_after_runs_witness :
  exists content,
    IO.read (doc_path "/p")
      (IO.files
         (fst (append_all Sample.disk "/p"
                 [("2026-01-05 10:15" : str,
                   Summary.set_wifi_status Summary.empty "Connected",
                   "first" : str);
                  ("2026-01-05 10:20" : str,
                   Summary.set_wifi_status Summary.empty "ERROR",
                   "second" : str)]
                 {| IO.console := []; IO.files := [] |})))
    = Some content
    /\ line_feeds content = line_feeds header + 2.
Proof.
  pose (runs := [("2026-01-05 10:15" : str,
                  Summary.set_wifi_status Summary.empty "Connected",
                  "first" : str);
                 ("2026-01-05 10:20" : str,
                  Summary.set_wifi_status Summary.empty "ERROR",
                  "second" : str)]).
  pose (st0 := {| IO.console := []; IO.files := [] |}).
  assert (H : append_all Sample.disk "/p" runs st0
              = (fst (append_all Sample.disk "/p" runs st0), Ok tt))
    by (vm_compute; reflexivity).
  assert (T : Forall tidy runs).
  { repeat constructor; apply literal_one_line; vm_compute; reflexivity. }
  destruct (tracking_doc_after_runs Sample.disk "/p" runs st0 _ H)
    as (rows & _ & R & _ & L).
  exists (ledger "/p" (IO.files st0) ++ concat rows).
  split; [exact R|].
  assert (N : runs <> []) by discriminate.
  specialize (L T N). unfold ledger at 1 in L. rewrite R in L. exact L.
Defined.

(** ** The exceptions of a run *)

Lemma no_exit_Ok {A} (a : A) : no_exit (Ok a).
Proof. intros e H. discriminate H. Qed.

Lemma no_exit_Raise {A} (e : exn) : is_error e = true -> no_exit (@Raise A e).
Proof. intros H e' E. injection E as <-. exact H. Qed.

Lemma no_exit_bind {A B} (c : result A) (k : A -> result B) :
  no_exit c -> (forall a, no_exit (k a)) -> no_exit (Py.bind c k).
Proof.
  destruct c as [a|e]; cbn [Py.bind]; intros Hc Hk; [apply Hk|].
  intros e' E. injection E as <-. apply Hc. reflexivity.
Qed.

Lemma no_exit_for_each {S X} (body : S -> X -> result S) (l : list X) (st : S) :
  (forall st x, no_exit (body st x)) -> no_exit (for_each body l st).
Proof.
  intros H. revert st. induction l as [|x l IH]; intros st; cbn [for_each].
  - apply no_exit_Ok.
  - apply no_exit_bind; [apply H | exact IH].
Qed.

Lemma no_exit_comprehension {A B} (f : A -> result B) (l : list A) :
  (forall x, no_exit (f x)) -> no_exit (comprehension f l).
Proof.
  intros H. induction l as [|x l IH]; cbn [comprehension].
  - apply no_exit_Ok.
  - apply no_exit_bind; [apply H|]. intros y.
    apply no_exit_bind; [exact IH|]. intros ys. apply no_exit_Ok.
Qed.

Ltac no_exit_steps :=
  repeat first
    [ apply no_exit_Ok
    | apply no_exit_Raise; reflexivity
    | assumption
    | apply no_exit_bind; [|intros ?]
    | match goal with
      | |- no_exit (if ?b then _ else _) => destruct b
      | |- no_exit (match ?x with _ => _ end) => destruct x
      end ].

Lemma no_exit_int (rt : runtime) (g : str) : no_exit (int rt g).
Proof. unfold int. no_exit_steps. Qed.

Lemma no_exit_group (caps : list str) (i : nat) : no_exit (group caps i).
Proof. unfold group. no_exit_steps. Qed.

Lemma no_exit_true_divide (a b : Z) : no_exit (true_divide a b).
Proof. unfold true_divide. no_exit_steps. Qed.

Lemma no_exit_format_f (p : nat) (x : num) : no_exit (format_f p x).
Proof. unfold format_f. no_exit_steps. Qed.

Lemma no_exit_parse_profiler_line (rt : runtime) (b : Block.t) (line : str) :
  no_exit (parse_profiler_line rt b line).
Proof.
  pose proof (no_exit_int rt) as I. pose proof no_exit_group as G.
  unfold parse_profiler_line, parse_cycles, parse_bw. cbv zeta.
  repeat first
    [ apply no_exit_Ok | apply I | apply G
    | apply no_exit_bind; [|intros ?]
    | match goal with
      | |- no_exit (match ?x with _ => _ end) => destruct x
      end ].
Qed.

Lemma no_exit_extract_metrics (rt : runtime) (lines : list str) :
  no_exit (extract_metrics rt lines).
Proof.
  unfold extract_metrics. apply no_exit_bind; [|intros st; apply no_exit_Ok].
  apply no_exit_for_each. intros st line. unfold extract_line.
  destruct (parse_ips_line_returns line) as (o & ->). cbn [Py.bind].
  destruct (contains profiler_start line); [apply no_exit_Ok|].
  destruct (contains profiler_end line && in_profiler_block st).
  - apply no_exit_bind; [|intros b; apply no_exit_Ok].
    apply no_exit_for_each. intros b l. apply no_exit_parse_profiler_line.
  - destruct (in_profiler_block st); apply no_exit_Ok.
Qed.

Lemma no_exit_average_field (field : Block.t -> option Z)
  (store : Summary.t -> num -> Summary.t) (blocks : list Block.t)
  (s : Summary.t) :
  no_exit (average_field field store blocks s).
Proof.
  unfold average_field.
  destruct (forallb _ blocks); [|apply no_exit_Ok].
  apply no_exit_bind.
  - apply no_exit_comprehension. intros b. unfold getitem. no_exit_steps.
  - intros values. apply no_exit_bind; [|intros v; apply no_exit_Ok].
    unfold mean_ints. destruct values; [apply no_exit_Raise; reflexivity|].
    cbv zeta. destruct (_ =? _)%Z; [apply no_exit_Ok|].
    apply no_exit_bind; [apply no_exit_true_divide|].
    intros x. apply no_exit_Ok.
Qed.

Lemma no_exit_calculate_summary (rt : runtime) (m : metrics) :
  plain_runtime rt -> no_exit (calculate_summary rt m).
Proof.
  intros P. unfold calculate_summary. cbv zeta. apply no_exit_bind.
  - unfold mips_statistics.
    destruct (nonempty (mips_values m)); [|apply no_exit_Ok].
    apply no_exit_bind.
    { unfold mean_floats. no_exit_steps. }
    intros a. apply no_exit_bind; [unfold min_; no_exit_steps|].
    intros lo. apply no_exit_bind; [unfold max_; no_exit_steps|].
    intros hi. apply no_exit_bind; [|intros s; apply no_exit_Ok].
    destruct (1 <? length (mips_values m)); [|apply no_exit_Ok].
    apply no_exit_bind; [apply P | intros d; apply no_exit_Ok].
  - intros s. unfold profiler_statistics.
    destruct (nonempty (profiler_blocks m)); [|apply no_exit_Ok].
    apply no_exit_bind; [apply no_exit_average_field|]. intros s1.
    apply no_exit_bind; [apply no_exit_average_field|]. intros s2.
    apply no_exit_bind; [apply no_exit_average_field|]. intros s3.
    apply no_exit_bind; [|intros v; apply no_exit_Ok].
    unfold max_key. no_exit_steps.
Qed.

Lemma no_exit_cells (s : Summary.t) : no_exit (cells s).
Proof.
  pose proof no_exit_format_f as F. unfold cells.
  repeat first
    [ apply no_exit_Ok | apply F
    | apply no_exit_bind; [|intros ?]
    | match goal with
      | |- no_exit (if ?b then _ else _) => destruct b
      end ].
Qed.

Lemma cpython_plain : plain_runtime Reference.cpython.
Proof.
  intros l. cbn [stdev Reference.cpython].
  unfold Reference.stdev, Reference.float_sqrt_of_frac. cbv zeta.
  destruct (_ <? 2)%Z; [apply no_exit_Raise; reflexivity|].
  destruct (existsb _ l); [apply no_exit_Raise; reflexivity|].
  destruct (0 <=? _)%Z; apply no_exit_true_divide.
Qed.

Lemma sample_world_plain (lines : list str) : plain_world (Sample.world lines).
Proof.
  split; [intros p d; apply no_exit_Ok|]. split; intros path e H;
    discriminate H.
Qed.

Lemma error_status (e : exn) :
  is_error e = true -> Main.exit_status (Main.ending_of (Raise e)) = 1%Z.
Proof. destruct e; intros H; try reflexivity. discriminate H. Qed.

(** The exceptions of the reporters are errors. *)
Lemma reporting_no_exit (a : Main.args) (w : Main.world) (lines : list str)
  (s : Summary.t) (st st' : IO.state) (e : exn) :
  plain_world w ->
  reporting a w lines s st = (st', Raise e) -> is_error e = true.
Proof.
  intros (_ & Pm & Po). rewrite reporting_run.
  destruct (report_cases s) as ([R|R] & _); rewrite R.
  2:{ intros H. injection H as _ <-. reflexivity. }
  destruct (Main.no_save a); [discriminate|].
  rewrite save_raw_capture_run.
  destruct (makedirs_error _ _) eqn:M.
  { intros H. injection H as _ <-. eapply Pm; exact M. }
  destruct (open_error _ (capture_path _ _ _)) eqn:O.
  { intros H. injection H as _ <-. eapply Po; exact O. }
  rewrite append_to_tracking_doc_run.
  destruct (IO.read _ _).
  - destruct (cells s) as [c|e'] eqn:C.
    + destruct (open_error (Main.filesystem w)
                  (doc_path (Main.project_root w))) eqn:O'; [|discriminate].
      intros H. injection H as _ <-. eapply Po; exact O'.
    + intros H. injection H as _ <-. apply (no_exit_cells s). exact C.
  - destruct (open_error (Main.filesystem w)
                  (doc_path (Main.project_root w))) eqn:O'.
    + intros H. injection H as _ <-. eapply Po; exact O'.
    + destruct (cells s) as [c|e'] eqn:C; [discriminate|].
      intros H. injection H as _ <-. apply (no_exit_cells s). exact C.
Qed.

(** What the reporters leave of the files when saving is switched off, or
    when the report raises. *)
Lemma reporting_files (a : Main.args) (w : Main.world) (lines : list str)
  (s : Summary.t) (st st' : IO.state) (r : result unit) :
  reporting a w lines s st = (st', r) ->
  Main.no_save a = true \/ snd (report s) <> Ok tt ->
  IO.files st' = IO.files st.
Proof.
  rewrite reporting_run. intros H D.
  destruct (snd (report s)) as [[]|e].
  - destruct (Main.no_save a).
    + injection H as <- _. reflexivity.
    + destruct D as [D|D]; [discriminate D | congruence].
  - injection H as <- _. reflexivity.
Qed.

(** The runs of a process that has parsed its command line, when the
    runtime and the world raise nothing but errors: it ends with status 1,
    having written nothing if saving is switched off; or the capture, the
    extraction, the aggregation and the reporters have returned, and the
    failure marker decides between the statuses 2 and 0. *)
Lemma process_cases (rt : runtime) (a : Main.args) (w : Main.world) :
  plain_runtime rt -> plain_world w ->
  (Main.exit_status (Main.ended (Main.process rt (Main.Parsed a) w)) = 1%Z
   /\ (Main.no_save a = true ->
       Main.files_after (Main.process rt (Main.Parsed a) w) = Main.files w))
  \/ exists p lines m s st,
       Main.usable (find_serial_port (Main.opens w) (Main.port a)) = Some p
       /\ Main.capture_serial w p (Main.duration a) = Ok lines
       /\ lines <> []
       /\ extract_metrics rt lines = Ok m
       /\ calculate_summary rt m = Ok s
       /\ reporting a w lines s (printed (note a p) (start w)) = (st, Ok tt)
       /\ Main.ended (Main.process rt (Main.Parsed a) w)
          = Main.Exit (if existsb failure_marker lines then 2 else 0)
       /\ Main.files_after (Main.process rt (Main.Parsed a) w) = IO.files st.
Proof.
  intros Pr Pw. pose proof (main_parsed rt a w) as M.
  destruct (Main.usable _) as [p|] eqn:U.
  2:{ left. rewrite (process_parsed _ _ _ _ _ M). split; reflexivity. }
  destruct (Main.capture_serial w p (Main.duration a)) as [lines|e] eqn:C.
  2:{ left. rewrite (process_parsed _ _ _ _ _ M).
      split; [|reflexivity]. apply error_status.
      destruct Pw as (Pc & _). eapply Pc; exact C. }
  destruct lines as [|l ls].
  { left. cbn [nonempty negb] in M. rewrite (process_parsed _ _ _ _ _ M).
    split; reflexivity. }
  cbn [nonempty negb] in M.
  destruct (extract_metrics rt (l :: ls)) as [m|e] eqn:X.
  2:{ left. rewrite (process_parsed _ _ _ _ _ M).
      split; [|reflexivity]. apply error_status.
      apply (no_exit_extract_metrics rt (l :: ls)). exact X. }
  destruct (calculate_summary rt m) as [s|e] eqn:S.
  2:{ left. rewrite (process_parsed _ _ _ _ _ M).
      split; [|reflexivity]. apply error_status.
      apply (no_exit_calculate_summary rt m Pr). exact S. }
  destruct (reporting a w (l :: ls) s (printed (note a p) (start w)))
    as (st & [[]|e]) eqn:R.
  - right. exists p, (l :: ls), m, s, st.
    assert (F : wifi_error m = existsb failure_marker (l :: ls))
      by (apply extract_metrics_Ok in X; subst m; reflexivity).
    rewrite F in M.
    split; [first [reflexivity | exact U]|].
    split; [first [reflexivity | exact C]|]. split; [discriminate|].
    split; [first [reflexivity | exact X]|].
    split; [first [reflexivity | exact S]|].
    split; [first [reflexivity | exact R]|].
    destruct (existsb failure_marker (l :: ls));
      rewrite (process_parsed _ _ _ _ _ M); split; reflexivity.
  - left. rewrite (process_parsed _ _ _ _ _ M).
    cbn [Main.ended Main.files_after]. split.
    + apply error_status. eapply reporting_no_exit; eassumption.
    + intros N. apply (reporting_files _ _ _ _ _ _ _ R). left. exact N.
Qed.



(** ** What a run writes *)

Lemma last_app_cons {A} (l : list A) (x d : A) : last (l ++ [x]) d = x.
Proof. apply last_last. Qed.

Lemma path_join_last (a b : str) :
  exists dir, path_join a [b] = dir ++ b.
Proof.
  unfold path_join. cbn [fold_left].
  destruct (startswith b "/"); [exists []; reflexivity|].
  destruct (negb (nonempty a) || ends_with_sep a); [exists a; reflexivity|].
  exists (a ++ "/"). rewrite <- app_assoc. reflexivity.
Qed.

(** The raw capture and the tracking document are two files. *)
Lemma capture_path_not_doc (project_root label timestamp : str) :
  capture_path project_root label timestamp <> doc_path project_root.
Proof.
  destruct (capture_path_name project_root label timestamp) as (dir & E).
  unfold doc_path.
  change (path_join project_root
            ["docs" : str; "PERFORMANCE_TRACKING.md" : str])
    with (path_join (path_join project_root ["docs" : str])
            ["PERFORMANCE_TRACKING.md" : str]).
  destruct (path_join_last (path_join project_root ["docs" : str])
              "PERFORMANCE_TRACKING.md") as (dir' & E').
  rewrite E, E'. intros H.
  apply (f_equal (fun s => last s " "%char)) in H.
  replace (dir ++ timestamp ++ "_" ++ underscores label ++ ".txt")
    with ((dir ++ timestamp ++ "_" ++ underscores label ++ ".tx") ++ ["t"%char])
    in H by (rewrite <- !app_assoc; reflexivity).
  replace (dir' ++ "PERFORMANCE_TRACKING.md")
    with ((dir' ++ "PERFORMANCE_TRACKING.m") ++ ["d"%char])
    in H by (rewrite <- !app_assoc; reflexivity).
  rewrite !last_last in H. discriminate H.
Qed.

(** The process writes no file when saving is switched off, on a request
    for help and on a command line that is refused; when it ends with
    status 0 or 2 with saving on (the runtime and the world raising
    nothing but errors), it has written the captured lines to the raw
    capture, a line feed between two of them, has added one row to the
    tracking document after what it held (the header if it did not
    exist), and has left every other file as it was. *)
Theorem main_writes (rt : runtime) (a : Main.args) (w : Main.world) :
  plain_runtime rt -> plain_world w ->
  (Main.no_save a = true ->
   Main.files_after (Main.process rt (Main.Parsed a) w) = Main.files w)
  /\ Main.files_after (Main.process rt Main.Help w) = Main.files w
  /\ Main.files_after (Main.process rt Main.Refused w) = Main.files w
  /\ (Main.no_save a = false ->
      Main.exit_status (Main.ended (Main.process rt (Main.Parsed a) w)) <> 1%Z ->
      exists p lines m s c,
        Main.usable (find_serial_port (Main.opens w) (Main.port a)) = Some p
        /\ Main.capture_serial w p (Main.duration a) = Ok lines
        /\ extract_metrics rt lines = Ok m
        /\ calculate_summary rt m = Ok s
        /\ cells s = Ok c
        /\ IO.read (capture_path (Main.project_root w) (Main.label a)
                      (Main.timestamp w))
                   (Main.files_after (Main.process rt (Main.Parsed a) w))
           = Some (join nl lines)
        /\ IO.read (doc_path (Main.project_root w))
                   (Main.files_after (Main.process rt (Main.Parsed a) w))
           = Some (ledger (Main.project_root w) (Main.files w)
                   ++ row (Main.date_str w) (Main.label a) c)
        /\ (forall q,
               q <> capture_path (Main.project_root w) (Main.label a)
                      (Main.timestamp w) ->
               q <> doc_path (Main.project_root w) ->
               IO.read q (Main.files_after (Main.process rt (Main.Parsed a) w))
               = IO.read q (Main.files w))).
Proof.
  intros Pr Pw.
  destruct (process_cases rt a w Pr Pw)
    as [(E & K) | (p & lines & m & s & st & U & C & N & X & S & R & E & Fl)].
  - split; [exact K|]. split; [reflexivity|]. split; [reflexivity|].
    intros _ H. contradiction.
  - split; [|split; [reflexivity|split; [reflexivity|]]].
    + intros Ns. rewrite Fl.
      apply (reporting_files _ _ _ _ _ _ _ R). left. exact Ns.
    + intros Ns _. rewrite Fl. rewrite reporting_run in R.
      destruct (snd (report s)) as [[]|e]; [|discriminate R].
      rewrite Ns in R. rewrite save_raw_capture_run in R.
      destruct (makedirs_error _ _); [discriminate R|].
      destruct (open_error _ (capture_path _ _ _)); [discriminate R|].
      apply append_to_tracking_doc_Ok in R as (c & Hc & Rd & Ro).
      cbn [IO.files printed start] in Rd, Ro.
      pose proof (capture_path_not_doc (Main.project_root w) (Main.label a)
                    (Main.timestamp w)) as D.
      exists p, lines, m, s, c.
      split; [exact U|]. split; [exact C|]. split; [exact X|].
      split; [exact S|]. split; [exact Hc|]. split; [|split].
      * rewrite Ro by exact D. apply read_write.
      * rewrite Rd. unfold ledger.
        rewrite read_write_other by (intros H; apply D; symmetry; exact H).
        reflexivity.
      * intros q Q1 Q2. rewrite Ro by exact Q2.
        apply read_write_other. exact Q1.
Qed.

Lemma main_writes_witness :
  exists content,
    IO.read (capture_path (Main.project_root (Sample.world Sample.capture))
               (Main.label Sample.args)
               (Main.timestamp (Sample.world Sample.capture)))
      (Main.files_after (Main.process Reference.cpython
                           (Main.Parsed Sample.args)
                           (Sample.world Sample.capture)))
    = Some content
    /\ split_on "010"%char content = Sample.capture.
Proof.
  assert (S : Main.no_save Sample.args = false) by reflexivity.
  assert (E : Main.exit_status
                (Main.ended (Main.process Reference.cpython
                               (Main.Parsed Sample.args)
                               (Sample.world Sample.capture))) <> 1%Z)
    by (vm_compute; discriminate).
  destruct (main_writes Reference.cpython Sample.args
              (Sample.world Sample.capture) cpython_plain
              (sample_world_plain Sample.capture)) as (_ & _ & _ & H).
  destruct (H S E) as (p & lines & m & s & c & _ & C & _ & _ & _ & R & _).
  injection C as <-.
  exists (join nl Sample.capture). split; [exact R|].
  vm_compute. reflexivity.
Defined.
(** ** The embedding on numbers at the edge of the floats *)

(** The mean of two totals of 401 digits is not whole and is beyond the
    finite floats: [statistics.mean] raises, and so does
    [calculate_summary]. *)
Example mean_beyond_floats :
  calculate_summary Reference.cpython Sample.wide_pair = Raise OverflowError.
Proof. vm_compute. reflexivity. Qed.

(** A mean that is not whole is rounded to a float: the mean of 2^54 + 1
    and 2^54 + 2 is 2^54. *)
Example mean_rounded :
  mean_ints [(2 ^ 54 + 1)%Z; (2 ^ 54 + 2)%Z]
  = Ok (Float (F64.Finite (2 ^ 54 * 2 ^ 1074)%Z)).
Proof. vm_compute. reflexivity. Qed.

(** A reading of 401 digits is the sample [inf], and the standard
    deviation of [inf] and 1.5 raises. *)
Example reading_beyond_floats :
  parse_ips_line Sample.huge_reading = Ok (Some F64.Infinity)
  /\ calculate_summary Reference.cpython Sample.huge_samples
     = Raise AttributeError.
Proof. split; vm_compute; reflexivity. Qed.

(** [format] writes the float a numeral stands for, not the numeral: 1.015
    is the float just below it, and an integer beyond 2^53 is rounded
    before it is written. *)
Example format_of_floats :
  format_f 2 (Float (decimal "1" "015")) = Ok ("1.01" : str)
  /\ format_f 0 (Int (2 ^ 53 + 1)) = Ok ("9007199254740992" : str)
  /\ format_f 0 (Int (10 ^ 400)) = Raise OverflowError.
Proof. split; [|split]; vm_compute; reflexivity. Qed.

(** With a slash in the label the raw capture cannot be opened: the
    report is printed, nothing is written and the process ends with
    status 1, also when the capture holds the failure marker. *)
Example label_with_slash :
  Main.ended (Main.process Reference.cpython (Main.Parsed Sample.slash_args)
                (Sample.slash_world Sample.failing_capture))
  = Main.Uncaught FileNotFoundError
  /\ Main.files_after
       (Main.process Reference.cpython (Main.Parsed Sample.slash_args)
          (Sample.slash_world Sample.failing_capture))
     = [].
Proof. split; vm_compute; reflexivity. Qed.
